(** * remotestate: a remote-state backend provisioner for Terraform

    A shallow embedding of the Python sources
      - [remotestate/main/aws_base.py]     (response validation),
      - [remotestate/main/aws_bucket.py]   (bucket names, [S3Bucket]),
      - [remotestate/main/aws_table.py]    (table names, [DynamoTable]),
      - [remotestate/main/make_backend.py] ([Backend.source_git]),
    together with the properties stated about them.

    Python values are an inductive type, exceptions are an explicit result
    type, the regular expressions of the [re] module are run by a small
    backtracking matcher, and the two AWS services are a store that the
    boto3 calls read and update. *)

From Stdlib Require Import ZArith String Ascii DecimalString.
From stdpp Require Import gmap strings list.

Set Warnings "-register-all".
Local Open Scope Z_scope.

(** ** Python values, exceptions and results *)

Module Py.

(** The double quote and the newline, which a string literal cannot hold. *)
Definition dquote : string := String "034"%char EmptyString.
Definition newline : ascii := "010"%char.

(** A Python [str] is a [string], one character per code point (the code
    points below 256).  A dict is the list of its items, looked up by key
    from the front; the dicts of the program are keyed by strings. *)
Inductive pyval : Type :=
| VNone
| VBool (b : bool)
| VInt (z : Z)
| VStr (s : string)
| VList (l : list pyval)
| VDict (d : list (string * pyval)).

(** The exception classes that the program names or that reach it.
    [SystemExit] is what [sys.exit] raises; it derives from [BaseException]
    only, so [except Exception] lets it through.  The five service
    exceptions ([client.exceptions.X]) derive from botocore's
    [ClientError]. *)
Inductive exn_class : Type :=
| SystemExit
| ValueError
| KeyError
| TypeError
| AttributeError
| ResponseError
| ClientError
| NoSuchBucket
| BucketAlreadyOwnedByYou
| BucketAlreadyExists
| ResourceNotFoundException
| ResourceInUseException
| WaiterError
| OtherException (name : string).

Definition same_class (c d : exn_class) : bool :=
  match c, d with
  | SystemExit, SystemExit
  | ValueError, ValueError
  | KeyError, KeyError
  | TypeError, TypeError
  | AttributeError, AttributeError
  | ResponseError, ResponseError
  | ClientError, ClientError
  | NoSuchBucket, NoSuchBucket
  | BucketAlreadyOwnedByYou, BucketAlreadyOwnedByYou
  | BucketAlreadyExists, BucketAlreadyExists
  | ResourceNotFoundException, ResourceNotFoundException
  | ResourceInUseException, ResourceInUseException
  | WaiterError, WaiterError => true
  | OtherException a, OtherException b => String.eqb a b
  | _, _ => false
  end.

Record exn : Type := Exn { exn_cls : exn_class; exn_msg : string }.

Inductive result (A : Type) : Type :=
| Ok (a : A)
| Raise (e : exn).
Arguments Ok {A} a.
Arguments Raise {A} e.

Definition rbind {A B} (r : result A) (f : A -> result B) : result B :=
  match r with
  | Ok a => f a
  | Raise e => Raise e
  end.

(** Modelled from the spec: [ResponseError] is imported from
    [.exceptions], which is not among the sources.  Section 7 of the
    specification has it as a kind of error of its own, what a response
    that fails the structural or status-code validation becomes: a class
    that derives from [Exception] directly, and from no class of
    botocore. *)
Definition ResponseError_base : option exn_class := None.

(** The base of a class, when it is not [Exception] itself. *)
Definition base_class (c : exn_class) : option exn_class :=
  match c with
  | NoSuchBucket | BucketAlreadyOwnedByYou | BucketAlreadyExists
  | ResourceNotFoundException | ResourceInUseException => Some ClientError
  | ResponseError => ResponseError_base
  | _ => None
  end.

(** [isinstance(e, base)] for exceptions, as an [except base] clause tests
    it. *)
Definition derives_from (c base : exn_class) : bool :=
  same_class c base ||
  match base_class c with
  | Some b => same_class b base
  | None => false
  end.

Definition catches (base : exn_class) (e : exn) : bool :=
  derives_from (exn_cls e) base.

(** *** Dicts and attribute access *)

Fixpoint dict_lookup (d : list (string * pyval)) (k : string) : option pyval :=
  match d with
  | [] => None
  | (k', v) :: d' => if String.eqb k' k then Some v else dict_lookup d' k
  end.

(** [v.get(k)]: only a dict has the method. *)
Definition py_get (v : pyval) (k : string) : result pyval :=
  match v with
  | VDict d => Ok (default VNone (dict_lookup d k))
  | _ => Raise (Exn AttributeError "object has no attribute 'get'")
  end.

(** [v[k]] with a string key [k]. *)
Definition py_getitem (v : pyval) (k : string) : result pyval :=
  match v with
  | VDict d =>
      match dict_lookup d k with
      | Some x => Ok x
      | None => Raise (Exn KeyError k)
      end
  | VStr _ => Raise (Exn TypeError "string indices must be integers")
  | VList _ => Raise (Exn TypeError "list indices must be integers or slices, not str")
  | _ => Raise (Exn TypeError "object is not subscriptable")
  end.

(** [v.__len__()]: [None], booleans and integers have no such attribute. *)
Definition py_len (v : pyval) : result nat :=
  match v with
  | VStr s => Ok (String.length s)
  | VList l => Ok (length l)
  | VDict d => Ok (length d)
  | _ => Raise (Exn AttributeError "object has no attribute '__len__'")
  end.

(** What [re.search] and [re.match] accept as subject. *)
Definition py_re_subject (v : pyval) : result string :=
  match v with
  | VStr s => Ok s
  | _ => Raise (Exn TypeError "expected string or bytes-like object")
  end.

Definition isinstance_str (v : pyval) : bool :=
  match v with VStr _ => true | _ => false end.

Definition isinstance_dict (v : pyval) : bool :=
  match v with VDict _ => true | _ => false end.

(** [bool] is a subclass of [int]. *)
Definition isinstance_int (v : pyval) : bool :=
  match v with VInt _ | VBool _ => true | _ => false end.

(** Truth value of a Python object ([not v] is its negation). *)
Definition py_truthy (v : pyval) : bool :=
  match v with
  | VNone => false
  | VBool b => b
  | VInt z => negb (z =? 0)
  | VStr s => negb (String.eqb s EmptyString)
  | VList l => negb (bool_decide (length l = 0%nat))
  | VDict d => negb (bool_decide (length d = 0%nat))
  end.

(** Iteration, as a [for] clause does it: a list yields its elements, a
    dict its keys, a string its characters. *)
Definition py_iter (v : pyval) : result (list pyval) :=
  match v with
  | VList l => Ok l
  | VDict d => Ok (map (fun kv => VStr (fst kv)) d)
  | VStr s => Ok (map (fun c => VStr (String c EmptyString)) (list_ascii_of_string s))
  | _ => Raise (Exn TypeError "object is not iterable")
  end.

(** [str(n)] for an integer. *)
Definition str_of_Z (z : Z) : string := NilZero.string_of_int (Z.to_int z).

(** *** String methods *)

(** [s.split(sep)] for a one-character separator: never an empty list. *)
Fixpoint split_chars (sep : ascii) (s : list ascii) : list (list ascii) :=
  match s with
  | [] => [[]]
  | c :: s' =>
      if Ascii.eqb c sep then [] :: split_chars sep s'
      else match split_chars sep s' with
           | piece :: pieces => (c :: piece) :: pieces
           | [] => [[c]]
           end
  end.

Definition split (sep : ascii) (s : string) : list string :=
  map string_of_list_ascii (split_chars sep (list_ascii_of_string s)).

(** [sep.join(pieces)] *)
Fixpoint join (sep : string) (pieces : list string) : string :=
  match pieces with
  | [] => EmptyString
  | [p] => p
  | p :: rest => p +:+ sep +:+ join sep rest
  end.

(** [l[0:-1]], [l[1:]], [l[0]] and [l[-1]] on the result of a split, which
    is never empty. *)
Definition but_last {A} (l : list A) : list A := removelast l.
Definition from_1 {A} (l : list A) : list A := tail l.
Definition first_of (l : list string) : string := hd EmptyString l.
Definition last_of (l : list string) : string := List.last l EmptyString.

(** [s.lower()] on the characters a [string] holds: A-Z, and the
    upper-case letters of Latin-1. *)
Definition lower_char (c : ascii) : ascii :=
  let n := N_of_ascii c in
  if ((65 <=? n) && (n <=? 90))%N then ascii_of_N (n + 32)
  else if ((192 <=? n) && (n <=? 222) && negb (n =? 215))%N then ascii_of_N (n + 32)
  else c.

Definition lower (s : string) : string :=
  string_of_list_ascii (map lower_char (list_ascii_of_string s)).

End Py.
Export Py.

(** ** The regular expressions of [re] *)

Module Re.

(** The constructs that the patterns of the program use. *)
Inductive regex : Type :=
| Chr (c : ascii)                     (* a literal character *)
| Dot                                 (* [.]: any character but a newline *)
| Cls (ranges : list (ascii * ascii)) (* [[...]]: a union of ranges *)
| Bol                                 (* [^] *)
| Eol                                 (* [$] *)
| Eps
| Seq (r1 r2 : regex)
| Alt (r1 r2 : regex)                 (* [r1|r2], [r1] tried first *)
| Star (r : regex).                   (* [r*], greedy *)

Definition Plus (r : regex) : regex := Seq r (Star r).

Fixpoint Rep (n : nat) (r : regex) : regex :=
  match n with
  | O => Eps
  | S n' => Seq r (Rep n' r)
  end.

Definition in_range (c : ascii) (range : ascii * ascii) : bool :=
  ((N_of_ascii (fst range) <=? N_of_ascii c) &&
   (N_of_ascii c <=? N_of_ascii (snd range)))%N.

Definition in_class (ranges : list (ascii * ascii)) (c : ascii) : bool :=
  existsb (in_range c) ranges.

(** The loop of a star whose body is matched by [body]: one more
    iteration first (greedy), what follows the star when that fails.  An
    iteration has to consume something; [fuel] bounds the iterations by
    what is left of the subject. *)
Fixpoint star_loop {A}
    (body : nat -> list ascii -> (nat -> list ascii -> option A) -> option A)
    (k : nat -> list ascii -> option A)
    (fuel : nat) (i : nat) (rest : list ascii) : option A :=
  match fuel with
  | O => k i rest
  | S fuel' =>
      match body i rest
              (fun i' rest' =>
                 if Nat.ltb i i' then star_loop body k fuel' i' rest' else None) with
      | Some x => Some x
      | None => k i rest
      end
  end.

(** The backtracking matcher.  [i] is the index of the current position in
    the subject and [rest] what is left of the subject there; [k] is what
    has to match afterwards.  Without flags, [^] matches at index 0 only
    and [$] matches at the end of the subject and also just before a
    newline that ends it. *)
Fixpoint run {A} (r : regex) (i : nat) (rest : list ascii)
    (k : nat -> list ascii -> option A) : option A :=
  match r with
  | Chr c =>
      match rest with
      | x :: rest' => if Ascii.eqb x c then k (S i) rest' else None
      | [] => None
      end
  | Dot =>
      match rest with
      | x :: rest' => if Ascii.eqb x newline then None else k (S i) rest'
      | [] => None
      end
  | Cls ranges =>
      match rest with
      | x :: rest' => if in_class ranges x then k (S i) rest' else None
      | [] => None
      end
  | Bol => if Nat.eqb i 0 then k i rest else None
  | Eol =>
      match rest with
      | [] => k i rest
      | [x] => if Ascii.eqb x newline then k i rest else None
      | _ => None
      end
  | Eps => k i rest
  | Seq r1 r2 => run r1 i rest (fun i' rest' => run r2 i' rest' k)
  | Alt r1 r2 =>
      match run r1 i rest k with
      | Some x => Some x
      | None => run r2 i rest k
      end
  | Star r1 => star_loop (run r1) k (S (length rest)) i rest
  end.

(** A match of [r] that starts at index [i]: the index where it ends.  With
    [must_advance] an empty match is refused. *)
Definition match_at (r : regex) (must_advance : bool) (i : nat)
    (rest : list ascii) : option nat :=
  run r i rest
    (fun j _ => if must_advance && Nat.eqb j i then None else Some j).

(** [re.match(r, s)]: a match at the start. *)
Definition re_match (r : regex) (s : string) : option nat :=
  match_at r false 0 (list_ascii_of_string s).

(** [re.search(r, s)]: the leftmost match, as (start, end). *)
Fixpoint search_from (r : regex) (i : nat) (rest : list ascii) : option (nat * nat) :=
  match match_at r false i rest with
  | Some j => Some (i, j)
  | None =>
      match rest with
      | [] => None
      | _ :: rest' => search_from r (S i) rest'
      end
  end.

Definition re_search (r : regex) (s : string) : option (nat * nat) :=
  search_from r 0 (list_ascii_of_string s).

(** [re.sub(r, repl, s)]: every match, from the left, is replaced by
    [repl].  [skip] counts the characters of the last match that are still
    to be dropped.  After an empty match the same position is tried again
    for a match that is not empty. *)
Fixpoint sub_from (r : regex) (repl : list ascii) (skip : nat) (i : nat)
    (rest : list ascii) : list ascii :=
  match skip with
  | S skip' =>
      match rest with
      | [] => []
      | _ :: rest' => sub_from r repl skip' (S i) rest'
      end
  | O =>
      let copy :=
        match rest with
        | [] => []
        | c :: rest' => c :: sub_from r repl O (S i) rest'
        end in
      let drop (j : nat) :=
        match rest with
        | [] => []
        | _ :: rest' => sub_from r repl (j - i - 1) (S i) rest'
        end in
      match match_at r false i rest with
      | Some j =>
          if Nat.eqb j i then
            match match_at r true i rest with
            | Some j' => repl ++ repl ++ drop j'
            | None => repl ++ copy
            end
          else repl ++ drop j
      | None => copy
      end
  end.

(** The truth value of what [re.match] and [re.search] return: a match
    object is true, [None] is false. *)
Definition matched {A} (m : option A) : bool :=
  match m with Some _ => true | None => false end.

Definition re_sub (r : regex) (repl : string) (s : string) : string :=
  string_of_list_ascii
    (sub_from r (list_ascii_of_string repl) 0 0 (list_ascii_of_string s)).

End Re.
Export Re.

(** ** [aws_base.py] *)

Module AwsBase.

(** [validate_aws(response, expect_status_code=200)] *)
Definition validate_aws (response : pyval) (expect_status_code : Z) : result bool :=
  (* if not isinstance(response.get('ResponseMetadata'), dict): raise *)
  rbind (py_get response "ResponseMetadata") (fun metadata =>
  if negb (isinstance_dict metadata) then
    Raise (Exn ResponseError "No response received by API")
  else
  (* if not isinstance(response['ResponseMetadata'].get('HTTPStatusCode'), int): raise *)
  rbind (py_getitem response "ResponseMetadata") (fun metadata =>
  rbind (py_get metadata "HTTPStatusCode") (fun code =>
  if negb (isinstance_int code) then
    Raise (Exn ResponseError "No HTTPStatusCode received by API")
  else
  (* status_code = response['ResponseMetadata']['HTTPStatusCode'] *)
  rbind (py_getitem response "ResponseMetadata") (fun metadata =>
  rbind (py_getitem metadata "HTTPStatusCode") (fun status_code =>
  (* if status_code != expect_status_code: raise *)
  match status_code with
  | VInt z =>
      if negb (z =? expect_status_code) then
        Raise (Exn ResponseError ("HTTPStatusCode=" +:+ str_of_Z z))
      else Ok true
  | VBool b =>
      if negb (Z.b2z b =? expect_status_code) then
        Raise (Exn ResponseError
                 ("HTTPStatusCode=" +:+ (if b then "True" else "False")))
      else Ok true
  | _ =>
      (* not reached: the value has passed the [isinstance] test *)
      Raise (Exn ResponseError "No HTTPStatusCode received by API")
  end))))).

End AwsBase.
Export AwsBase.

(** ** Name validation ([aws_bucket.py], [aws_table.py]) *)

Module Names.

Definition upper : list (ascii * ascii) := [("A", "Z")]%char.
Definition lower_digit : list (ascii * ascii) := [("a", "z"); ("0", "9")]%char.
Definition alnum : list (ascii * ascii) :=
  [("a", "z"); ("A", "Z"); ("0", "9")]%char.
Definition dash_dot : list (ascii * ascii) := [("-", "-"); (".", ".")]%char.
Definition dash_dot_underscore : list (ascii * ascii) :=
  [("-", "-"); (".", "."); ("_", "_")]%char.
Definition bucket_chars : list (ascii * ascii) :=
  [("-", "-"); ("a", "z"); ("0", "9"); (".", ".")]%char.
Definition table_chars : list (ascii * ascii) :=
  [("-", "-"); ("a", "z"); ("A", "Z"); ("0", "9"); (".", "."); ("_", "_")]%char.

(** [r'[A-Z]'] *)
Definition re_upper : regex := Cls upper.
(** [r'^[a-z0-9]'] *)
Definition re_bucket_start : regex := Seq Bol (Cls lower_digit).
(** [r'[-\.]{2}'] *)
Definition re_bucket_double : regex := Rep 2 (Cls dash_dot).
(** [r'^[-a-z0-9\.]*$'] *)
Definition re_bucket_all : regex := Seq Bol (Seq (Star (Cls bucket_chars)) Eol).
(** [r'^[a-zA-Z0-9]'] *)
Definition re_table_start : regex := Seq Bol (Cls alnum).
(** [r'[-\._]{2}'] *)
Definition re_table_double : regex := Rep 2 (Cls dash_dot_underscore).
(** [r'^[-a-zA-Z0-9\._]*$'] *)
Definition re_table_all : regex := Seq Bol (Seq (Star (Cls table_chars)) Eol).
(** [' +'] *)
Definition re_spaces : regex := Plus (Chr " ").

(** The message of the last rule is written over two source lines joined
    by a backslash, so the indentation of the second line is part of the
    literal; [re.sub(' +', ' ', ...)] squeezes it. *)
Definition bucket_chars_message : string :=
  re_sub re_spaces " "
    ("BucketName contains invalid character. " +:+
     "                Allowed characters: [a-z, 0-9, '.', '-']").

Definition table_chars_message : string :=
  re_sub re_spaces " "
    ("TableName contains invalid character. " +:+
     "                Allowed characters: [a-z, A-Z, 0-9, '.', '-', '_']").

(** [validate_s3bucket_name(bucket_name)].  The [isinstance] test builds a
    [ValueError] and does not raise it, so the body runs on any value. *)
Definition validate_s3bucket_name (bucket_name : pyval) : result (bool * string) :=
  rbind (py_len bucket_name) (fun len =>
  if (len <? 3)%nat || (63 <? len)%nat then
    Ok (false, "BucketName should be of length: [3-63]")
  else
  rbind (py_re_subject bucket_name) (fun s =>
  if matched (re_search re_upper s) then
    Ok (false, "BucketName can't contain upper-case characters")
  else if negb (matched (re_match re_bucket_start s)) then
    Ok (false, "BucketName should start with a lowercase letter or number")
  else if matched (re_search re_bucket_double s) then
    Ok (false, "BucketName can't contain two special characters [-, .] in a row")
  else if negb (matched (re_match re_bucket_all s)) then
    Ok (false, bucket_chars_message)
  else Ok (true, "Success"))).

(** [validate_name_dynamotable(table_name)] *)
Definition validate_name_dynamotable (table_name : pyval) : result (bool * string) :=
  rbind (py_len table_name) (fun len =>
  if (len <? 3)%nat || (255 - 5 <? len)%nat then
    Ok (false, "TableName should be of length: [3-255]")
  else
  rbind (py_re_subject table_name) (fun s =>
  if negb (matched (re_match re_table_start s)) then
    Ok (false, "BucketName should start with a lowercase letter or number")
  else if matched (re_search re_table_double s) then
    Ok (false, "TableName can't contain two special characters [-, ., _] in a row")
  else if negb (matched (re_match re_table_all s)) then
    Ok (false, table_chars_message)
  else Ok (true, "Success"))).

End Names.
Export Names.

(** ** [make_backend.py]: [Backend.source_git] *)

Module MakeBackend.

(** The fields of [Backend] that [source_git] sets. *)
Record Backend : Type := mkBackend {
  keyvalue_map : list (string * pyval);
  table_name : pyval
}.

Definition Backend_init : Backend :=
  {| keyvalue_map := []; table_name := VNone |}.

(** [d[k] = v] *)
Fixpoint dict_set (d : list (string * pyval)) (k : string) (v : pyval)
    : list (string * pyval) :=
  match d with
  | [] => [(k, v)]
  | (k', v') :: d' =>
      if String.eqb k' k then (k, v) :: d' else (k', v') :: dict_set d' k v
  end.

(** [r'.*:\/\/|.*@|:'] *)
Definition re_uri_vars : regex :=
  Alt (Seq (Star Dot) (Seq (Chr ":") (Seq (Chr "/") (Chr "/"))))
      (Alt (Seq (Star Dot) (Chr "@")) (Chr ":")).

(** [r'\.git$'] *)
Definition re_dot_git : regex :=
  Seq (Chr ".") (Seq (Chr "g") (Seq (Chr "i") (Seq (Chr "t") Eol))).

Definition giturl_message : string :=
  re_sub re_spaces " "
    ("giturl not found, location searched: " +:+
     "                             .git/config -> [remote " +:+ dquote +:+
     "origin" +:+ dquote +:+ "] -> url").

(** [source_git(self)].  The module [gitconfig_rs] is a collaborator: what
    its [remote_read(git_directory, name='origin')] and [current_branch]
    return is given as [remote_read] and [current_branch].  The result is
    the object as the method leaves it, with what it returns or raises. *)
Definition source_git (remote_read current_branch : pyval) (self : Backend)
    : Backend * result unit :=
  let origin :=
    match remote_read with
    | VDict d => default VNone (dict_lookup d "origin")
    | _ => VNone
    end in
  match remote_read, origin with
  | VDict _, VStr url =>
      let git_url_project := lower url in
      let host_path :=
        re_sub re_uri_vars EmptyString
          (join "/" (but_last (split "/" git_url_project))) in
      let git_host := first_of (split "/" host_path) in
      let git_path := join "." (from_1 (split "/" host_path)) in
      let repo_name :=
        re_sub re_dot_git EmptyString (last_of (split "/" git_url_project)) in
      let kv := dict_set (keyvalue_map self) "repo_name" (VStr repo_name) in
      let bucket_uri := git_host +:+ "/" +:+ git_path +:+ "/" +:+ repo_name in
      let kv := dict_set kv "bucket_uri" (VStr bucket_uri) in
      let kv := dict_set kv "branch_name" current_branch in
      if negb (isinstance_str current_branch) then
        ({| keyvalue_map := kv; table_name := table_name self |},
         Raise (Exn ValueError "gitbranch not of correct format"))
      else
        ({| keyvalue_map := kv;
            table_name :=
              VStr ("terraform." +:+ join "." (but_last (split "/" bucket_uri))) |},
         Ok tt)
  | _, _ => (self, Raise (Exn ValueError giturl_message))
  end.

End MakeBackend.
Export MakeBackend.

(** ** The remote services

    What boto3 talks to: the buckets of S3, the tables of DynamoDB, the
    region of the session and the clock.  This is the environment of the
    program, not part of it: each call is answered the way the two
    services document it for the state of the store, and a call that
    changes the store answers with its success status.  A scheduled fault
    makes a call raise, or answer something else, without touching the
    store. *)

Module Aws.

Record public_access_block : Type := mkPAB {
  BlockPublicAcls : bool;
  IgnorePublicAcls : bool;
  BlockPublicPolicy : bool;
  RestrictPublicBuckets : bool
}.

Inductive request : Type :=
| HeadBucket (Bucket : string)
| GetBucketTagging (Bucket : string)
| CreateBucket (ACL : string) (Bucket : string) (LocationConstraint : pyval)
| PutBucketTagging (Bucket : string) (TagSet : list (string * string))
| PutPublicAccessBlock (Bucket : string) (cfg : public_access_block)
| PutBucketVersioning (Bucket : string) (Status : string)
| DescribeTable (TableName : string)
| CreateTable (TableName : string) (hash_key : string) (attr_type : string)
    (read_units write_units : Z)
| WaitTableExists (TableName : string)
| GetItem (TableName : string) (key_attr : string) (key : string)
| PutItem (TableName : string) (Item : list (string * pyval)).

(** The calls that change the store. *)
Definition is_mutation (req : request) : bool :=
  match req with
  | CreateBucket _ _ _ | PutBucketTagging _ _ | PutPublicAccessBlock _ _
  | PutBucketVersioning _ _ | CreateTable _ _ _ _ _ | PutItem _ _ => true
  | HeadBucket _ | GetBucketTagging _ | DescribeTable _ | WaitTableExists _
  | GetItem _ _ _ => false
  end.

(** A bucket name is global: [in_our_account] tells a bucket of this
    account from one that somebody else holds. *)
Record bucket : Type := mkBucket {
  in_our_account : bool;
  tag_set : list (string * string);
  access_block : option public_access_block;
  versioning : option string
}.

Record table : Type := mkTable {
  hash_key_of : string;
  active : bool;
  items : gmap string (list (string * pyval))
}.

Inductive fault : Type :=
| Fails (e : exn)       (* the call raises [e] *)
| Garbled (r : pyval).  (* the call returns [r] *)

Record world : Type := mkWorld {
  buckets : gmap string bucket;
  tables : gmap string table;
  region : pyval;            (* [session.region_name] *)
  clock : Z;                 (* [round(time.time()*10**6)] *)
  faults : list (option fault);  (* one entry per call to come *)
  calls : list request;      (* the calls made so far *)
  stdout : list string
}.

Definition set_buckets (b : gmap string bucket) (w : world) : world :=
  mkWorld b (tables w) (region w) (clock w) (faults w) (calls w) (stdout w).
Definition set_tables (t : gmap string table) (w : world) : world :=
  mkWorld (buckets w) t (region w) (clock w) (faults w) (calls w) (stdout w).
Definition set_faults (f : list (option fault)) (w : world) : world :=
  mkWorld (buckets w) (tables w) (region w) (clock w) f (calls w) (stdout w).
Definition log_call (req : request) (w : world) : world :=
  mkWorld (buckets w) (tables w) (region w) (clock w) (faults w)
    (calls w ++ [req]) (stdout w).
Definition print (line : string) (w : world) : world :=
  mkWorld (buckets w) (tables w) (region w) (clock w) (faults w) (calls w)
    (stdout w ++ [line]).

(** A response: the payload and the metadata with the HTTP status. *)
Definition response (status : Z) (payload : list (string * pyval)) : pyval :=
  VDict (payload ++
         [("ResponseMetadata", VDict [("HTTPStatusCode", VInt status)])]).

Definition client_error (cls : exn_class) (code : string) : exn :=
  Exn cls ("An error occurred (" +:+ code +:+ ")").

Definition tag_dict (kv : string * string) : pyval :=
  VDict [("Key", VStr (fst kv)); ("Value", VStr (snd kv))].

(** How the service answers a call, and the store afterwards. *)
Definition serve (req : request) (w : world) : result pyval * world :=
  match req with
  | HeadBucket name =>
      match buckets w !! name with
      | Some b =>
          if in_our_account b then (Ok (response 200 []), w)
          else (Raise (client_error ClientError "403"), w)
      | None => (Raise (client_error ClientError "404"), w)
      end
  | GetBucketTagging name =>
      match buckets w !! name with
      | Some b =>
          if negb (in_our_account b) then
            (Raise (client_error ClientError "AccessDenied"), w)
          else
            match tag_set b with
            | [] => (Raise (client_error ClientError "NoSuchTagSet"), w)
            | tags => (Ok (response 200 [("TagSet", VList (map tag_dict tags))]), w)
            end
      | None => (Raise (client_error NoSuchBucket "NoSuchBucket"), w)
      end
  | CreateBucket _ name _ =>
      match buckets w !! name with
      | Some b =>
          if in_our_account b then
            (Raise (client_error BucketAlreadyOwnedByYou "BucketAlreadyOwnedByYou"), w)
          else (Raise (client_error BucketAlreadyExists "BucketAlreadyExists"), w)
      | None =>
          (Ok (response 200 []),
           set_buckets (<[name := mkBucket true [] None None]> (buckets w)) w)
      end
  | PutBucketTagging name tags =>
      match buckets w !! name with
      | Some b =>
          if in_our_account b then
            (Ok (response 204 []),
             set_buckets
               (<[name := mkBucket true tags (access_block b) (versioning b)]>
                  (buckets w)) w)
          else (Raise (client_error ClientError "AccessDenied"), w)
      | None => (Raise (client_error NoSuchBucket "NoSuchBucket"), w)
      end
  | PutPublicAccessBlock name cfg =>
      match buckets w !! name with
      | Some b =>
          if in_our_account b then
            (Ok (response 200 []),
             set_buckets
               (<[name := mkBucket true (tag_set b) (Some cfg) (versioning b)]>
                  (buckets w)) w)
          else (Raise (client_error ClientError "AccessDenied"), w)
      | None => (Raise (client_error NoSuchBucket "NoSuchBucket"), w)
      end
  | PutBucketVersioning name status =>
      match buckets w !! name with
      | Some b =>
          if in_our_account b then
            (Ok (response 200 []),
             set_buckets
               (<[name := mkBucket true (tag_set b) (access_block b) (Some status)]>
                  (buckets w)) w)
          else (Raise (client_error ClientError "AccessDenied"), w)
      | None => (Raise (client_error NoSuchBucket "NoSuchBucket"), w)
      end
  | DescribeTable name =>
      match tables w !! name with
      | Some t => (Ok (response 200 [("Table", VDict [("TableName", VStr name)])]), w)
      | None =>
          (Raise (client_error ResourceNotFoundException "ResourceNotFoundException"), w)
      end
  | CreateTable name key _ _ _ =>
      match tables w !! name with
      | Some _ =>
          (Raise (client_error ResourceInUseException "ResourceInUseException"), w)
      | None =>
          (Ok (response 200 []),
           set_tables (<[name := mkTable key false ∅]> (tables w)) w)
      end
  | WaitTableExists name =>
      match tables w !! name with
      | Some t =>
          (Ok VNone,
           set_tables (<[name := mkTable (hash_key_of t) true (items t)]> (tables w)) w)
      | None => (Raise (Exn WaiterError "Waiter TableExists failed"), w)
      end
  | GetItem name attr key =>
      match tables w !! name with
      | Some t =>
          if negb (String.eqb attr (hash_key_of t)) then
            (Raise (client_error ClientError "ValidationException"), w)
          else
            match items t !! key with
            | Some item => (Ok (response 200 [("Item", VDict item)]), w)
            | None => (Ok (response 200 []), w)
            end
      | None =>
          (Raise (client_error ResourceNotFoundException "ResourceNotFoundException"), w)
      end
  | PutItem name item =>
      match tables w !! name with
      | Some t =>
          match dict_lookup item (hash_key_of t) with
          | Some (VStr key) =>
              (Ok (response 200 []),
               set_tables
                 (<[name := mkTable (hash_key_of t) (active t)
                              (<[key := item]> (items t))]> (tables w)) w)
          | _ => (Raise (client_error ClientError "ValidationException"), w)
          end
      | None =>
          (Raise (client_error ResourceNotFoundException "ResourceNotFoundException"), w)
      end
  end.

(** Programs: state over the world, with exceptions. *)
Definition M (A : Type) : Type := world -> result A * world.

Definition ret {A} (a : A) : M A := fun w => (Ok a, w).
Definition raise {A} (e : exn) : M A := fun w => (Raise e, w).
Definition bind {A B} (m : M A) (f : A -> M B) : M B :=
  fun w =>
    match m w with
    | (Ok a, w') => f a w'
    | (Raise e, w') => (Raise e, w')
    end.
Definition lift {A} (r : result A) : M A := fun w => (r, w).

(** A [try] statement: [rest] is what follows when the body went through;
    a handler that ends in [pass] goes on with the same [rest].  A handler
    ends in [raise e] for the clause [except Exception: raise] and for
    what no clause catches. *)
Definition try_except {A B} (body : M A) (handler : exn -> M B)
    (rest : A -> M B) : M B :=
  fun w =>
    match body w with
    | (Ok a, w') => rest a w'
    | (Raise e, w') => handler e w'
    end.

(** One call of a boto3 client: it is logged, it uses up one entry of the
    fault schedule, and unless that entry is a fault it is served. *)
Definition api (req : request) : M pyval :=
  fun w =>
    let w' := set_faults (tail (faults w)) (log_call req w) in
    match hd None (faults w) with
    | Some (Fails e) => (Raise e, w')
    | Some (Garbled r) => (Ok r, w')
    | None => serve req w'
    end.

(** [get_region_name()] of [aws_base.py] *)
Definition get_region_name : M pyval := fun w => (Ok (region w), w).

(** [boto3.client('dynamodb')] and [boto3.resource('dynamodb')].  DynamoDB
    has no endpoint without a region: building either of the two raises
    [NoRegionError] when the session has no region ([session.region_name]
    is a name or [None]).  Nothing is sent to the service. *)
Definition NoRegionError : exn :=
  Exn (OtherException "NoRegionError") "You must specify a region.".

Definition boto3_dynamodb : M unit :=
  fun w =>
    match region w with
    | VStr _ => (Ok tt, w)
    | _ => (Raise NoRegionError, w)
    end.

(** [time_string()] of [aws_table.py] *)
Definition time_string : M string := fun w => (Ok (str_of_Z (clock w)), w).

Definition say (line : string) : M unit := fun w => (Ok tt, print line w).

End Aws.
Export Aws.

Notation "x <- m ;; k" := (bind m (fun x => k))
  (at level 100, m at next level, right associativity).
Notation "m ;;; k" := (bind m (fun _ => k))
  (at level 100, right associativity).

(** ** [aws_bucket.py]: class [S3Bucket] *)

Module Bucket.

Record S3Bucket : Type := mkS3Bucket {
  region_name : pyval;
  bucket_name : string
}.

(** [self.__info(message)] *)
Definition info (self : S3Bucket) (message : string) : M unit :=
  say ("I: bucket " +:+ dquote +:+ bucket_name self +:+ dquote +:+ "->" +:+ message).

(** [self.__exit(message)]: [sys.exit] raises [SystemExit]. *)
Definition exit {A} (self : S3Bucket) (message : string) : M A :=
  raise (Exn SystemExit
           ("E: bucket " +:+ dquote +:+ bucket_name self +:+ dquote +:+ "->" +:+ message)).

(** [bucket_exist(self)] *)
Definition bucket_exist (self : S3Bucket) : M bool :=
  try_except
    (response <- api (HeadBucket (bucket_name self)) ;;
     lift (validate_aws response 200))
    (fun e =>
       if catches ClientError e then ret false
       else if catches ResponseError e then ret false
       else raise e)
    (fun _ => ret true).

Definition py_eq_str (v : pyval) (s : string) : bool :=
  match v with VStr s' => String.eqb s' s | _ => false end.

(** The condition of the list comprehension of [bucket_owned]; [and] stops
    at the first operand that is false. *)
Definition is_managed_tag (tag : pyval) : result bool :=
  rbind (py_get tag "Key") (fun k =>
  if negb (isinstance_str k) then Ok false else
  rbind (py_getitem tag "Key") (fun k =>
  if negb (py_eq_str k "managed_by") then Ok false else
  rbind (py_get tag "Value") (fun v =>
  if negb (isinstance_str v) then Ok false else
  rbind (py_getitem tag "Value") (fun v =>
  Ok (py_eq_str v "terraform-init"))))).

(** [[tag for tag in tags if cond(tag)]] *)
Fixpoint comprehension (cond : pyval -> result bool) (tags : list pyval)
    : result (list pyval) :=
  match tags with
  | [] => Ok []
  | tag :: tags' =>
      rbind (cond tag) (fun keep =>
      rbind (comprehension cond tags') (fun found =>
      Ok (if keep then tag :: found else found)))
  end.

(** [bucket_owned(self)] *)
Definition bucket_owned (self : S3Bucket) : M bool :=
  try_except
    (bucket_tagging <- api (GetBucketTagging (bucket_name self)) ;;
     lift (py_get bucket_tagging "TagSet"))
    (fun e =>
       if catches NoSuchBucket e then ret false
       else if catches ClientError e then ret false
       else raise e)
    (fun tag_set =>
       if negb (py_truthy tag_set) then ret false else
       tags <- lift (py_iter tag_set) ;;
       found <- lift (comprehension is_managed_tag tags) ;;
       if Nat.eqb (length found) 1 then ret true else ret false).

(** [create_bucket(self)] *)
Definition create_bucket (self : S3Bucket) : M S3Bucket :=
  exist_ <- bucket_exist self ;;
  if exist_ then
    owned <- bucket_owned self ;;
    (if negb owned then
       exit self "bucket exist in our account, but is not managed by terraform-init"
     else ret tt) ;;;
    info self "bucket exist in our account and is also managed by terraform-init" ;;;
    ret self
  else
  try_except
    (response <- api (CreateBucket "private" (bucket_name self) (region_name self)) ;;
     lift (validate_aws response 200))
    (fun e =>
       if catches BucketAlreadyOwnedByYou e then ret self
       else if catches BucketAlreadyExists e then
         exit self "BucketAlreadyExists, not owned by us."
       else if catches ClientError e then
         exit self ("S3ResponseError when creating bucket: " +:+ exn_msg e)
       else if catches ResponseError e then
         exit self ("ResponseError when creating bucket: " +:+ exn_msg e)
       else raise e)
    (fun _ =>
  try_except
    (response <- api (PutBucketTagging (bucket_name self)
                        [("managed_by", "terraform-init")]) ;;
     lift (validate_aws response 204))
    (fun e =>
       if catches ResponseError e then
         exit self ("ResponseError when creating bucket: " +:+ exn_msg e)
       else raise e)
    (fun _ =>
  info self "new bucket created" ;;;
  ret self)).

(** [tighten_policy(self)] *)
Definition tighten_policy (self : S3Bucket) : M S3Bucket :=
  owned <- bucket_owned self ;;
  (if negb owned then exit self "cant update policy, bucket is not managed by us."
   else ret tt) ;;;
  try_except
    (response <- api (PutPublicAccessBlock (bucket_name self)
                        (mkPAB true true true true)) ;;
     lift (validate_aws response 200))
    (fun e =>
       if catches ResponseError e then
         exit self ("ResponseError when tightening policy: " +:+ exn_msg e)
       else raise e)
    (fun _ =>
  try_except
    (response <- api (PutBucketVersioning (bucket_name self) "Enabled") ;;
     lift (validate_aws response 200))
    (fun e =>
       if catches ResponseError e then
         exit self ("ResponseError when enabling versioning: " +:+ exn_msg e)
       else raise e)
    (fun _ =>
  info self "strict policy enabled" ;;;
  ret self)).

(** [S3Bucket(bucket_name, auto_create)].  Only a [str] gets through the
    validation, so the name of the object is a string. *)
Definition S3Bucket_init (bucket_name : pyval) (auto_create : bool) : M S3Bucket :=
  v <- lift (validate_s3bucket_name bucket_name) ;;
  (if negb (fst v) then raise (Exn ValueError (snd v)) else ret tt) ;;;
  region <- get_region_name ;;
  match bucket_name with
  | VStr name =>
      let self := mkS3Bucket region name in
      if auto_create then
        self <- create_bucket self ;;
        self <- tighten_policy self ;;
        ret self
      else ret self
  | _ => raise (Exn TypeError "expected string or bytes-like object")
  end.

End Bucket.
Export Bucket.

(** ** [aws_table.py]: class [DynamoTable] *)

Module Table.

Record DynamoTable : Type := mkDynamoTable {
  region_name : pyval;
  table_name : string
}.

(** [self.__info(message)] *)
Definition info (self : DynamoTable) (message : string) : M unit :=
  say ("I: table " +:+ dquote +:+ table_name self +:+ dquote +:+ "->" +:+ message).

(** [self.__exit(message)] *)
Definition exit {A} (self : DynamoTable) (message : string) : M A :=
  raise (Exn SystemExit
           ("E: table " +:+ dquote +:+ table_name self +:+ dquote +:+ "->" +:+ message)).

(** [tables_exist(self)] *)
Definition tables_exist (self : DynamoTable) : M bool :=
  try_except
    (response <- api (DescribeTable (table_name self +:+ ".lock")) ;;
     lift (validate_aws response 200))
    (fun e =>
       if catches ResourceNotFoundException e then ret false
       else raise e)
    (fun _ =>
  try_except
    (response <- api (DescribeTable (table_name self +:+ ".s3")) ;;
     lift (validate_aws response 200))
    (fun e =>
       if catches ResourceNotFoundException e then ret false
       else raise e)
    (fun _ => ret true)).

(** [create_tables(self, check_exist)] *)
Definition create_tables (self : DynamoTable) (check_exist : bool) : M DynamoTable :=
  let wait_both : M DynamoTable :=
    api (WaitTableExists (table_name self +:+ ".lock")) ;;;
    api (WaitTableExists (table_name self +:+ ".s3")) ;;;
    info self "new bucket created" ;;;
    ret self in
  let create_s3 : M DynamoTable :=
    try_except
      (table_s3 <- api (CreateTable (table_name self +:+ ".s3") "GitURI" "S" 5 5) ;;
       lift (validate_aws table_s3 200))
      (fun e =>
         if catches ResourceInUseException e then wait_both
         else if catches ResponseError e then
           exit self ("ResponseError when creating table: " +:+ exn_msg e)
         else raise e)
      (fun _ => wait_both) in
  let create_lock : M DynamoTable :=
    try_except
      (table_lock <- api (CreateTable (table_name self +:+ ".lock") "LockID" "S" 5 5) ;;
       lift (validate_aws table_lock 200))
      (fun e =>
         if catches ResourceInUseException e then create_s3
         else if catches ResponseError e then
           exit self ("ResponseError when creating table: " +:+ exn_msg e)
         else raise e)
      (fun _ => create_s3) in
  if check_exist then
    exist_ <- tables_exist self ;;
    if exist_ then
      info self "table exist in our account" ;;;
      ret self
    else create_lock
  else create_lock.

(** [lookup_s3(self, bucket_uri, auto_create)].  The result is a [str] or
    [None].  The [isinstance] test on [bucket_uri] builds a [ValueError]
    and does not raise it; the key is a string here. *)
Definition lookup_s3 (self : DynamoTable) (bucket_uri : string) (auto_create : bool)
    : M (option string) :=
  let table := table_name self +:+ ".s3" in
  let allocate : M (option string) :=
    if negb auto_create then ret None else
    stamp <- time_string ;;
    let bucket_name := table_name self +:+ "-" +:+ stamp in
    v <- lift (validate_s3bucket_name (VStr bucket_name)) ;;
    (if negb (fst v) then raise (Exn ValueError (snd v)) else ret tt) ;;;
    try_except
      (response <- api (PutItem table [("GitURI", VStr bucket_uri);
                                       ("BucketName", VStr bucket_name)]) ;;
       lift (validate_aws response 200))
      (fun e =>
         if catches ResponseError e then
           exit self ("ResponseError when putting Dynamo table item: " +:+ exn_msg e)
         else raise e)
      (fun _ => ret (Some bucket_name)) in
  try_except
    (response <- api (GetItem table "GitURI" bucket_uri) ;;
     lift (validate_aws response 200) ;;;
     item <- lift (py_getitem response "Item") ;;
     value <- lift (py_getitem item "BucketName") ;;
     match value with
     | VStr s => ret s
     | _ => raise (Exn KeyError EmptyString)
     end)
    (fun e =>
       if catches KeyError e then allocate
       else if catches ResponseError e then
         exit self ("ResponseError when putting Dynamo table item: " +:+ exn_msg e)
       else raise e)
    (fun value => ret (Some value)).

(** [DynamoTable(table_name, auto_create)]: [self.client] and
    [self.resource] are built after the name is checked and before
    anything is sent. *)
Definition DynamoTable_init (table_name : pyval) (auto_create : bool) : M DynamoTable :=
  v <- lift (validate_name_dynamotable table_name) ;;
  (if negb (fst v) then raise (Exn ValueError (snd v)) else ret tt) ;;;
  region <- get_region_name ;;
  boto3_dynamodb ;;;
  boto3_dynamodb ;;;
  match table_name with
  | VStr name =>
      let self := mkDynamoTable region name in
      if auto_create then create_tables self true else ret self
  | _ => raise (Exn TypeError "expected string or bytes-like object")
  end.

End Table.
Export Table.

(** ** What the properties speak about *)

Module Props.

(** *** Responses, in the words of the specification *)

(** The metadata field of a response, when it is there and is a dict. *)
Definition metadata_field (d : list (string * pyval)) : option (list (string * pyval)) :=
  match dict_lookup d "ResponseMetadata" with
  | Some (VDict m) => Some m
  | _ => None
  end.

(** The status code of the metadata, when it is there and is an integer
    ([True] and [False] are the integers 1 and 0). *)
Definition status_field (m : list (string * pyval)) : option Z :=
  match dict_lookup m "HTTPStatusCode" with
  | Some (VInt z) => Some z
  | Some (VBool b) => Some (Z.b2z b)
  | _ => None
  end.

(** Metadata absent or malformed, status code absent or not an integer, or
    a status code that differs from the expected one. *)
Definition response_rejected (d : list (string * pyval)) (expected : Z) : Prop :=
  match metadata_field d with
  | None => True
  | Some m =>
      match status_field m with
      | None => True
      | Some z => z <> expected
      end
  end.

(** *** Names, in the words of the specification *)

Definition chars (s : string) : list ascii := list_ascii_of_string s.

Definition starts_with (cls : list (ascii * ascii)) (s : string) : bool :=
  match chars s with
  | c :: _ => in_class cls c
  | [] => false
  end.

Fixpoint has_double (cls : list (ascii * ascii)) (s : list ascii) : bool :=
  match s with
  | c1 :: ((c2 :: _) as s') =>
      (in_class cls c1 && in_class cls c2) || has_double cls s'
  | _ => false
  end.

Definition bucket_name_rules (s : string) : bool :=
  (3 <=? String.length s)%nat && (String.length s <=? 63)%nat &&
  negb (existsb (in_class upper) (chars s)) &&
  starts_with lower_digit s &&
  negb (has_double dash_dot (chars s)) &&
  forallb (in_class bucket_chars) (chars s).

Definition table_name_rules (s : string) : bool :=
  (3 <=? String.length s)%nat && (String.length s <=? 250)%nat &&
  starts_with alnum s &&
  negb (has_double dash_dot_underscore (chars s)) &&
  forallb (in_class table_chars) (chars s).

(** What [^[cls]*$] accepts: characters of the class up to the end of the
    subject, or up to a newline that ends it. *)
Fixpoint class_to_end (cls : list (ascii * ascii)) (l : list ascii) : bool :=
  match l with
  | [] => true
  | x :: l' =>
      (in_class cls x && class_to_end cls l') ||
      (match l' with [] => Ascii.eqb x newline | _ => false end)
  end.

(** The rules as the validators apply them. *)
Definition bucket_name_accepted (s : string) : bool :=
  (3 <=? String.length s)%nat && (String.length s <=? 63)%nat &&
  negb (existsb (in_class upper) (chars s)) &&
  starts_with lower_digit s &&
  negb (has_double dash_dot (chars s)) &&
  class_to_end bucket_chars (chars s).

Definition table_name_accepted (s : string) : bool :=
  (3 <=? String.length s)%nat && (String.length s <=? 250)%nat &&
  starts_with alnum s &&
  negb (has_double dash_dot_underscore (chars s)) &&
  class_to_end table_chars (chars s).

(** *** The state of a bucket *)

Definition managed_tag : string * string := ("managed_by", "terraform-init").

Definition all_blocked : public_access_block := mkPAB true true true true.

(** The bucket exists in the account, carries the tag of the tool, blocks
    public access with all four flags and keeps versions. *)
Definition secured (b : bucket) : Prop :=
  in_our_account b = true /\
  In managed_tag (tag_set b) /\
  access_block b = Some all_blocked /\
  versioning b = Some "Enabled".

Definition provisioned (w : world) (name : string) : Prop :=
  exists b, buckets w !! name = Some b /\ secured b.

(** Every scheduled fault is an exception: a call that returns has been
    served. *)
Definition raises_only (w : world) : bool :=
  forallb (fun f => match f with Some (Garbled _) => false | _ => true end)
    (faults w).

(** The calls that [w'] has on top of those of [w]. *)
Definition calls_since (w w' : world) : list request :=
  drop (length (calls w)) (calls w').

(** *** Inputs of the examples *)

Definition origin_scp : pyval :=
  VDict [("origin", VStr "git@github.com:org/sub/myrepo.git")].

Definition origin_https : pyval :=
  VDict [("origin", VStr "https://github.com/org/sub/myrepo.git")].

(** The name "ab" followed by a newline. *)
Definition ab_newline : string := String "a" (String "b" (String newline EmptyString)).

Definition bucket_abc : S3Bucket := mkS3Bucket (VStr "eu-west-1") "abc".

Definition table_x : DynamoTable := mkDynamoTable (VStr "eu-west-1") "terraform.x".

(** Nothing there yet, every call served. *)
Definition world_empty : world :=
  mkWorld ∅ ∅ (VStr "eu-west-1") 1571000000000000 [] [] [].

(** The bucket "abc" is in the account and tagged, with no access block
    and no versioning yet. *)
Definition world_tagged : world :=
  mkWorld {[ "abc" := mkBucket true [managed_tag] None None ]} ∅
    (VStr "eu-west-1") 1571000000000000 [] [] [].

(** The registry table holds a row for the repository "x/y". *)
Definition row_xy : list (string * pyval) :=
  [("GitURI", VStr "x/y"); ("BucketName", VStr "terraform.x-1571000000000000")].

Definition registry_x : table := mkTable "GitURI" true {[ "x/y" := row_xy ]}.

Definition world_registered : world :=
  mkWorld ∅ {[ "terraform.x.s3" := registry_x ]}
    (VStr "eu-west-1") 1571000000000000 [] [] [].

(** The first call is answered by an empty dict. *)
Definition world_garbled : world :=
  mkWorld ∅ ∅ (VStr "eu-west-1") 1571000000000000 [Some (Garbled (VDict []))] [] [].

(** A tag is the one of the tool. *)
Definition is_managed (kv : string * string) : bool :=
  String.eqb (fst kv) "managed_by" && String.eqb (snd kv) "terraform-init".

End Props.
Export Props.

(** ** [make_backend.py]: class [BackendAWS] *)

Module BackendAws.

(** The object: the fields of [Backend] and those that [BackendAWS] adds.
    A method is given the object and returns it as the method leaves it;
    when a method raises, the run of [create] is over and the object is
    not looked at again. *)
Record BackendAWS : Type := mkBackendAWS {
  base : Backend;
  region_name : pyval;
  bucket : option S3Bucket;
  table : option DynamoTable
}.

(** [BackendAWS(git_directory)] *)
Definition BackendAWS_init : BackendAWS :=
  {| base := Backend_init; region_name := VNone; bucket := None; table := None |}.

Definition set_base (b : Backend) (self : BackendAWS) : BackendAWS :=
  mkBackendAWS b (region_name self) (bucket self) (table self).
Definition set_region_name (r : pyval) (self : BackendAWS) : BackendAWS :=
  mkBackendAWS (base self) r (bucket self) (table self).
Definition set_bucket (b : S3Bucket) (self : BackendAWS) : BackendAWS :=
  mkBackendAWS (base self) (region_name self) (Some b) (table self).
Definition set_table (t : DynamoTable) (self : BackendAWS) : BackendAWS :=
  mkBackendAWS (base self) (region_name self) (bucket self) (Some t).

(** [self.keyvalue_map[k] = v] *)
Definition set_key (k : string) (v : pyval) (self : BackendAWS) : BackendAWS :=
  set_base (mkBackend (dict_set (keyvalue_map (base self)) k v)
              (MakeBackend.table_name (base self))) self.

(** [self.keyvalue_map.get(k)] *)
Definition get_key (self : BackendAWS) (k : string) : pyval :=
  default VNone (dict_lookup (keyvalue_map (base self)) k).

(** [print(error.__str__()); sys.exit(1)] *)
Definition print_and_exit {A} (error : exn) : M A :=
  say (exn_msg error) ;;;
  raise (Exn SystemExit "1").

Definition str_or_none (v : option string) : pyval :=
  match v with Some s => VStr s | None => VNone end.

(** [retrieve_tables(self)] *)
Definition retrieve_tables (self : BackendAWS) : M BackendAWS :=
  try_except
    (DynamoTable_init (MakeBackend.table_name (base self)) true)
    (fun error =>
       if catches ValueError error then print_and_exit error
       else raise error)
    (fun t => ret (set_table t self)).

(** [self.table.lookup_s3(bucket_uri=self.keyvalue_map['bucket_uri'],
    auto_create=True)]: the method is looked up first ([None] has no
    attribute [lookup_s3]), then the key.  A key that is not a string is
    sent as an attribute of another type, which the service refuses
    (ValidationException, a [ClientError]); [lookup_s3] lets that
    through. *)
Definition lookup_s3_of (t : option DynamoTable) (keyvalue_map : list (string * pyval))
    : M (option string) :=
  match t with
  | None => raise (Exn AttributeError "'NoneType' object has no attribute 'lookup_s3'")
  | Some t =>
      uri <- lift (py_getitem (VDict keyvalue_map) "bucket_uri") ;;
      match uri with
      | VStr u => lookup_s3 t u true
      | _ => raise (client_error ClientError "ValidationException")
      end
  end.

(** [retrieve_bucket_name(self)] *)
Definition retrieve_bucket_name (self : BackendAWS) : M BackendAWS :=
  self <- (match table self with
           | None => retrieve_tables self
           | Some _ => ret self
           end) ;;
  try_except
    (lookup_s3_of (table self) (keyvalue_map (base self)))
    (fun error =>
       if catches ValueError error then print_and_exit error
       else raise error)
    (fun name => ret (set_key "bucket_name" (str_or_none name) self)).

(** [retrieve_bucket(self)] *)
Definition retrieve_bucket (self : BackendAWS) : M BackendAWS :=
  self <- (if negb (isinstance_str (get_key self "bucket_name"))
           then retrieve_bucket_name self
           else ret self) ;;
  try_except
    (name <- lift (py_getitem (VDict (keyvalue_map (base self))) "bucket_name") ;;
     S3Bucket_init name true)
    (fun error =>
       if catches ValueError error then print_and_exit error
       else raise error)
    (fun b => ret (set_bucket b self)).

(** The keyword arguments that [update_backend_terraform] gives to the
    template; [self.table_name + '.lock'] needs a string. *)
Definition template_arguments (self : BackendAWS) : result (list (string * pyval)) :=
  match MakeBackend.table_name (base self) with
  | VStr t =>
      Ok [("BUCKET_NAME", get_key self "bucket_name");
          ("TABLE_LOCK", VStr (t +:+ ".lock"));
          ("REPO_NAME", get_key self "repo_name");
          ("BRANCH_NAME", get_key self "branch_name");
          ("REGION_NAME", region_name self)]
  | _ => Raise (Exn TypeError "unsupported operand type(s) for +")
  end.

(** [create(self)].  What [gitconfig_rs] reads from the repository is
    given as [remote_read] and [current_branch]; reading the template and
    writing the rendered file is [update_backend_terraform], a
    collaborator (the file system and jinja2).  The object is returned
    for the sake of the statements; the method itself returns [None]. *)
Definition create (remote_read current_branch : pyval)
    (update_backend_terraform : BackendAWS -> M unit)
    (self : BackendAWS) : M BackendAWS :=
  match source_git remote_read current_branch (base self) with
  | (_, Raise e) => raise e
  | (b, Ok _) =>
      let self := set_base b self in
      self <- (if match bucket self with None => true | Some _ => false end
                  || negb (isinstance_str (get_key self "bucket_name"))
               then retrieve_bucket self
               else ret self) ;;
      match bucket self with
      | None => raise (Exn AttributeError "'NoneType' object has no attribute 'region_name'")
      | Some b =>
          let self := set_region_name (Bucket.region_name b) self in
          update_backend_terraform self ;;;
          ret self
      end
  end.

End BackendAws.

(** ** [tfconfig.py]: the provider of a terraform project *)

Module TfConfig.

(** [r?], which tries [r] first, and a literal string. *)
Definition Opt (r : regex) : regex := Alt r Eps.

Fixpoint Lit (s : list ascii) : regex :=
  match s with
  | [] => Eps
  | c :: s' => Seq (Chr c) (Lit s')
  end.

Definition quotes : list (ascii * ascii) := [("034", "034"); ("'", "'")]%char.
Definition name_chars : list (ascii * ascii) :=
  [("-", "-"); ("a", "z"); ("A", "Z"); ("0", "9")]%char.
Definition wrapping : list (ascii * ascii) :=
  [(" ", " "); ("034", "034"); ("'", "'"); ("{", "{")]%char.

(** [' ?provider [<quotes>][-a-zA-Z0-9]*[<quotes>] ?{'], where the class
    of the quotes holds the double and the single quote. *)
Definition re_provider : regex :=
  Seq (Opt (Chr " "))
    (Seq (Lit (list_ascii_of_string "provider "))
       (Seq (Cls quotes)
          (Seq (Star (Cls name_chars))
             (Seq (Cls quotes)
                (Seq (Opt (Chr " ")) (Chr "{")))))).

(** ['.*provider |[ <quotes>{]*'] *)
Definition re_name_wrapping : regex :=
  Alt (Seq (Star Dot) (Lit (list_ascii_of_string "provider ")))
      (Star (Cls wrapping)).

(** [c.isspace()] for the characters a [string] holds: tab to carriage
    return, the four separators 28 to 31, the space, and 133 and 160 of
    Latin-1. *)
Definition is_space (c : ascii) : bool :=
  let n := N_of_ascii c in
  (((9 <=? n) && (n <=? 13)) || ((28 <=? n) && (n <=? 32)) ||
   (n =? 133) || (n =? 160))%N.

Fixpoint lstrip_chars (l : list ascii) : list ascii :=
  match l with
  | c :: l' => if is_space c then lstrip_chars l' else l
  | [] => []
  end.

(** [s.strip()] *)
Definition strip (s : string) : string :=
  string_of_list_ascii
    (rev (lstrip_chars (rev (lstrip_chars (list_ascii_of_string s))))).

(** [m.group()] for the match [m] = (start, end) in the subject [s]. *)
Definition group (m : nat * nat) (s : string) : string :=
  string_of_list_ascii
    (take (snd m - fst m) (drop (fst m) (list_ascii_of_string s))).

(** What the file system has for [provider_file]: no file there
    ([os.path.isfile] is false), a file whose reading raises [IOError] or
    another exception, or a file with its text. *)
Inductive file_state : Type :=
| Missing
| Unreadable
| Failing (e : exn)
| Holding (data : string).

(** [terraform_provider(provider_file)]: the warnings it issues, and what
    it returns or raises. *)
Definition terraform_provider (provider_file : string) (file : file_state)
    : list string * result (option string) :=
  match file with
  | Missing | Unreadable =>
      (["cant access provider_file:" +:+ provider_file], Ok None)
  | Failing e => ([], Raise e)
  | Holding data =>
      let contents := join " " (split newline (strip data)) in
      let squeezed := re_sub re_spaces " " contents in
      match re_search re_provider squeezed with
      | None => ([], Ok None)
      | Some m =>
          let name := re_sub re_name_wrapping EmptyString (group m squeezed) in
          if Nat.ltb (String.length name) 32 && Nat.ltb 1 (String.length name)
          then ([], Ok (Some name))
          else ([], Ok None)
      end
  end.

End TfConfig.
Export TfConfig.

(** ** What the further properties speak about *)

Module More.

(** A run keeps [P] between the world it starts in and the one it ends
    in, whether it returns or raises. *)
Definition preserves {A} (P : world -> world -> Prop) (m : M A) : Prop :=
  forall w r w', m w = (r, w') -> P w w'.

(** The bucket a call is about, for the calls of S3. *)
Definition about_bucket (name : string) (req : request) : bool :=
  match req with
  | HeadBucket b | GetBucketTagging b | CreateBucket _ b _
  | PutBucketTagging b _ | PutPublicAccessBlock b _
  | PutBucketVersioning b _ => String.eqb b name
  | _ => false
  end.

(** Between [w] and [w']: only calls about the bucket [name] were made,
    every other bucket is as it was, and so are the tables. *)
Definition bucket_run (name : string) (w w' : world) : Prop :=
  (forall other, other <> name -> buckets w' !! other = buckets w !! other) /\
  tables w' = tables w /\
  exists made, calls w' = calls w ++ made /\
               forallb (about_bucket name) made = true.

(** The bucket is in the account and exactly one of its tags is
    managed_by=terraform-init. *)
Definition owned_in (w : world) (name : string) : bool :=
  match buckets w !! name with
  | Some b =>
      in_our_account b && Nat.eqb (length (List.filter is_managed (tag_set b))) 1
  | None => false
  end.

(** The bucket is in the account. *)
Definition exists_in (w : world) (name : string) : bool :=
  match buckets w !! name with
  | Some b => in_our_account b
  | None => false
  end.

(** The world right after a call that did not change the store. *)
Definition after (req : request) (w : world) : world :=
  set_faults (tail (faults w)) (log_call req w).

(** The bucket as a completed provisioning leaves it. *)
Definition secured_bucket (tags : list (string * string)) : bucket :=
  mkBucket true tags (Some all_blocked) (Some "Enabled").

(** The tags of the bucket once it is provisioned: those it has, or the
    one that [create_bucket] puts on a new bucket. *)
Definition tags_after (w : world) (name : string) : list (string * string) :=
  match buckets w !! name with
  | Some b => tag_set b
  | None => [managed_tag]
  end.

(** The bucket "abc" belongs to somebody else. *)
Definition world_foreign : world :=
  mkWorld {[ "abc" := mkBucket false [] None None ]} ∅
    (VStr "eu-west-1") 1571000000000000 [] [] [].

(** The table a call is about, for the calls of DynamoDB. *)
Definition table_of (req : request) : option string :=
  match req with
  | DescribeTable t | CreateTable t _ _ _ _ | WaitTableExists t
  | GetItem t _ _ | PutItem t _ => Some t
  | _ => None
  end.

(** The call is about one of the two tables of [name]. *)
Definition about_tables (name : string) (req : request) : bool :=
  match table_of req with
  | Some t => String.eqb t (name +:+ ".lock") || String.eqb t (name +:+ ".s3")
  | None => false
  end.

(** Between [w] and [w']: only calls about the two tables of [name] were
    made, every other table is as it was, and so are the buckets. *)
Definition table_run (name : string) (w w' : world) : Prop :=
  buckets w' = buckets w /\
  (forall other, other <> name +:+ ".lock" -> other <> name +:+ ".s3" ->
                 tables w' !! other = tables w !! other) /\
  exists made, calls w' = calls w ++ made /\
               forallb (about_tables name) made = true.

(** Between [w] and [w']: every table that was there is still there with
    its hash key, and every row outside [skip] is as it was. *)
Definition rows_kept (skip : string -> string -> bool) (w w' : world) : Prop :=
  forall n t, tables w !! n = Some t ->
    exists t', tables w' !! n = Some t' /\
               hash_key_of t' = hash_key_of t /\
               forall k, skip n k = false -> items t' !! k = items t !! k.

Definition no_row : string -> string -> bool := fun _ _ => false.

Definition the_row (table uri : string) : string -> string -> bool :=
  fun n k => String.eqb n table && String.eqb k uri.

(** Both tables of [name] are there. *)
Definition tables_in (w : world) (name : string) : bool :=
  bool_decide (is_Some (tables w !! (name +:+ ".lock"))) &&
  bool_decide (is_Some (tables w !! (name +:+ ".s3"))).

(** The row of a GitURI in the registry table of [name], when it holds a
    bucket name that is a string. *)
Definition registered (w : world) (name uri : string) : option string :=
  match tables w !! (name +:+ ".s3") with
  | Some t =>
      match items t !! uri with
      | Some item =>
          match dict_lookup item "BucketName" with
          | Some (VStr s) => Some s
          | _ => None
          end
      | None => None
      end
  | None => None
  end.

(** The registry table of [name] is there, with the key of the tool. *)
Definition registry_ready (w : world) (name : string) : Prop :=
  exists t, tables w !! (name +:+ ".s3") = Some t /\ hash_key_of t = "GitURI".

(** The name that [lookup_s3] generates. *)
Definition generated_name (w : world) (name : string) : string :=
  name +:+ "-" +:+ str_of_Z (clock w).

(** The last character of a string. *)
Definition last_char (s : string) : option ascii :=
  List.last (map Some (chars s)) None.

(** A table name that cannot be the stem of a bucket name: one of its
    characters is outside [a-z0-9.-] (an upper-case letter or an
    underscore, which the rules of a table allow), or it ends with a dash
    or a dot, which the dash that [lookup_s3] appends would follow. *)
Definition unfit_stem (name : string) : bool :=
  existsb (fun c => negb (in_class bucket_chars c)) (chars name) ||
  match last_char name with
  | Some c => in_class dash_dot c
  | None => false
  end.

Definition digits : list (ascii * ascii) := [("0", "9")]%char.

(** The registry table of [name], if it is there, has the key of the
    tool. *)
Definition registry_keyed (name : string) (w : world) : Prop :=
  forall t, tables w !! (name +:+ ".s3") = Some t -> hash_key_of t = "GitURI".

(** Starting with such a registry table, the run keeps every row but the
    one of [uri], and the registry table keeps its key. *)
Definition registry_run (name uri : string) (w w' : world) : Prop :=
  registry_keyed name w ->
  rows_kept (the_row (name +:+ ".s3") uri) w w' /\ registry_keyed name w'.

(** A few rows in the registry, one of them of another repository. *)
Definition world_two_rows : world :=
  mkWorld ∅
    {[ "terraform.x.s3" :=
         mkTable "GitURI" true
           {[ "x/y" := row_xy;
              "x/z" := [("GitURI", VStr "x/z"); ("BucketName", VStr "terraform.x-7")] ]};
       "terraform.x.lock" := mkTable "LockID" true ∅ ]}
    (VStr "eu-west-1") 1571000000000000 [] [] [].

(** The registry of "terraform.x" is there and empty. *)
Definition world_ready : world :=
  mkWorld ∅
    {[ "terraform.x.s3" := mkTable "GitURI" true ∅;
       "terraform.x.lock" := mkTable "LockID" true ∅ ]}
    (VStr "eu-west-1") 1571000000000000 [] [] [].

Definition table_upper : DynamoTable := mkDynamoTable (VStr "eu-west-1") "Terraform.X".

Definition world_ready_upper : world :=
  mkWorld ∅
    {[ "Terraform.X.s3" := mkTable "GitURI" true ∅;
       "Terraform.X.lock" := mkTable "LockID" true ∅ ]}
    (VStr "eu-west-1") 1571000000000000 [] [] [].

(** The store as a completed run for the repository [uri] leaves it: both
    tables, the row of the repository with the bucket name [b], and that
    bucket secured and carrying the tag of the tool once. *)
Definition converged (w : world) (tn uri b : string) : Prop :=
  tables_in w tn = true /\
  registry_ready w tn /\
  registered w tn uri = Some b /\
  exists tags, buckets w !! b = Some (secured_bucket tags) /\
               length (List.filter is_managed tags) = 1%nat.

(** The bucket name of the repository: the registered one, or the one
    that would be generated now. *)
Definition bucket_name_for (w : world) (tn uri : string) : string :=
  match registered w tn uri with
  | Some b => b
  | None => generated_name w tn
  end.

(** A renderer that only remembers what it was given. *)
Definition no_render : BackendAws.BackendAWS -> M unit := fun _ => ret tt.

(** The object after [retrieve_bucket_name] and after [retrieve_bucket],
    in a run that starts in [w] for the table name [tn] and the
    repository [uri]. *)
Definition named (w : world) (tn uri : string) (self : BackendAws.BackendAWS)
    : BackendAws.BackendAWS :=
  BackendAws.set_key "bucket_name" (VStr (bucket_name_for w tn uri))
    (BackendAws.set_table (mkDynamoTable (region w) tn) self).

Definition provided (w : world) (tn uri : string) (self : BackendAws.BackendAWS)
    : BackendAws.BackendAWS :=
  BackendAws.set_bucket (mkS3Bucket (region w) (bucket_name_for w tn uri))
    (named w tn uri self).


(** A string without a slash, and one without an upper-case letter A-Z. *)
Definition no_slash (s : string) : bool :=
  forallb (fun c => negb (Ascii.eqb c "/")) (chars s).

Definition no_upper (s : string) : bool :=
  forallb (fun c => negb (in_class upper c)) (chars s).

(** The characters that a match of a pattern can consume. *)
Fixpoint consumes (r : regex) (c : ascii) : bool :=
  match r with
  | Chr x => Ascii.eqb c x
  | Dot => negb (Ascii.eqb c newline)
  | Cls ranges => in_class ranges c
  | Bol | Eol | Eps => false
  | Seq r1 r2 | Alt r1 r2 => consumes r1 c || consumes r2 c
  | Star r1 => consumes r1 c
  end.

(** The first lines of a provider file: [provider <q1>name<q2> {]. *)
Definition provider_block (q1 : ascii) (name : string) (q2 : ascii) : string :=
  "provider " +:+ String q1 name +:+ String q2 " {".

(** The world that the first run for the https origin leaves. *)
Definition world_after_first_run : world :=
  snd (BackendAws.create origin_https (VStr "main") no_render
         BackendAws.BackendAWS_init world_empty).

End More.
Export More.

(** * Properties *)

(** ** The matcher on known cases *)

(** Results that the documentation of [re] states, or that follow from
    its rules for empty matches and for [$]. *)
Example re_sub_empty_matches :
  re_sub (Star (Chr "x")) "-" "abxd" = "-a-b--d-" /\
  re_sub (Alt Eps (Chr "a")) "-" "a" = "---".
Proof. split; vm_compute; reflexivity. Qed.

Example re_sub_dot_git :
  re_sub re_dot_git EmptyString "myrepo.git" = "myrepo" /\
  re_sub re_dot_git EmptyString "my.git.repo" = "my.git.repo".
Proof. split; vm_compute; reflexivity. Qed.

Example re_match_dollar :
  let a := "a"%char in let b := "b"%char in
  matched (match_at re_bucket_all false 0 [a; b]) = true /\
  matched (match_at re_bucket_all false 0 [a; b; newline]) = true /\
  matched (match_at re_bucket_all false 0 [a; b; newline; newline]) = false /\
  matched (match_at re_bucket_all false 0 [a; newline; b]) = false.
Proof. repeat split. Qed.

(** ** C1: the names derived from an scp-like origin *)

(** The colon of the scp-like form is among what [r'.*:\/\/|.*@|:']
    deletes: host and first path segment run together. *)
Example host_path_scp :
  re_sub re_uri_vars EmptyString "git@github.com:org/sub" = "github.comorg/sub".
Proof. vm_compute. reflexivity. Qed.

(** For the origin [git@github.com:org/sub/myrepo.git] and the branch
    [main], [source_git] does not yield the bucket_uri
    [github.com/org.sub/myrepo] nor the table_name
    [terraform.github.com.org.sub] of C1. *)
Lemma source_git_scp_counterexample :
  let self := fst (source_git origin_scp (VStr "main") Backend_init) in
  dict_lookup (keyvalue_map self) "bucket_uri"
    <> Some (VStr "github.com/org.sub/myrepo") /\
  MakeBackend.table_name self <> VStr "terraform.github.com.org.sub".
Proof. vm_compute. split; intros H; discriminate H. Qed.

(** C1: the code at the scp-like origin.  For
    [git@github.com:org/sub/myrepo.git] and the branch [main],
    [source_git] returns with repo_name = "myrepo", but with
    bucket_uri = "github.comorg/sub/myrepo" and
    table_name = "terraform.github.comorg.sub": the colon between the host
    and the path is deleted, so [git_host] holds the host and the first
    segment of the path run together, where C1 has them apart. *)
Theorem source_git_scp :
  source_git origin_scp (VStr "main") Backend_init =
  ({| keyvalue_map := [("repo_name", VStr "myrepo");
                       ("bucket_uri", VStr "github.comorg/sub/myrepo");
                       ("branch_name", VStr "main")];
      MakeBackend.table_name := VStr "terraform.github.comorg.sub" |},
   Ok tt).
Proof. vm_compute. reflexivity. Qed.

(** The names of the specification's example are those of the https form
    of the same origin. *)
Example source_git_https :
  source_git origin_https (VStr "main") Backend_init =
  ({| keyvalue_map := [("repo_name", VStr "myrepo");
                       ("bucket_uri", VStr "github.com/org.sub/myrepo");
                       ("branch_name", VStr "main")];
      MakeBackend.table_name := VStr "terraform.github.com.org.sub" |},
   Ok tt).
Proof. vm_compute. reflexivity. Qed.

(** The usual scp-like origin, with one segment before the repository:
    the whole path ends up in [git_host], [git_path] is empty, and the
    table name ends with a dot, which no bucket name can be made from. *)
Example source_git_scp_one_segment :
  let self :=
    fst (source_git (VDict [("origin", VStr "git@github.com:org/myrepo.git")])
           (VStr "main") Backend_init) in
  dict_lookup (keyvalue_map self) "bucket_uri" = Some (VStr "github.comorg//myrepo") /\
  MakeBackend.table_name self = VStr "terraform.github.comorg." /\
  unfit_stem "terraform.github.comorg." = true.
Proof. vm_compute. repeat split. Qed.

(** The origin is lower-cased first. *)
Example source_git_mixed_case :
  source_git (VDict [("origin", VStr "git@GitHub.com:Org/Sub/MyRepo.git")])
    (VStr "main") Backend_init =
  source_git origin_scp (VStr "main") Backend_init.
Proof. vm_compute. reflexivity. Qed.

(** ** C2, C3: the name rules *)

Example validate_s3bucket_name_examples :
  map (fun s => validate_s3bucket_name (VStr s))
      ["My_Bucket"; "ab"; "my..bucket"; "my-bucket.01"] =
  [Ok (false, "BucketName can't contain upper-case characters");
   Ok (false, "BucketName should be of length: [3-63]");
   Ok (false, "BucketName can't contain two special characters [-, .] in a row");
   Ok (true, "Success")].
Proof. vm_compute. reflexivity. Qed.

Example validate_name_dynamotable_examples :
  map (fun s => validate_name_dynamotable (VStr s))
      ["ab"; "My--Table"; "terraform.example.com.repo"] =
  [Ok (false, "TableName should be of length: [3-255]");
   Ok (false, "TableName can't contain two special characters [-, ., _] in a row");
   Ok (true, "Success")].
Proof. vm_compute. reflexivity. Qed.

(** C2: the name rules of a bucket ([bucket_name_rules]: length in
    [3,63], no upper-case letter, first character in [a-z0-9], no two
    special characters in a row, every character in [a-z0-9.-]) are not
    what [validate_s3bucket_name] accepts: the name "ab" followed by a
    newline breaks the last rule and is accepted, because [$] also matches
    before a final newline. *)
Theorem validate_s3bucket_name_final_newline :
  validate_s3bucket_name (VStr ab_newline) = Ok (true, "Success") /\
  bucket_name_rules ab_newline = false /\
  in_class bucket_chars newline = false.
Proof. vm_compute. auto. Qed.

(** C3: the name rules of a table ([table_name_rules]: length in
    [3,250], first character alphanumeric, no two special characters in a
    row, every character in [A-Za-z0-9._-]) are not what
    [validate_name_dynamotable] accepts: the name "ab" followed by a
    newline breaks the last rule and is accepted. *)
Theorem validate_name_dynamotable_final_newline :
  validate_name_dynamotable (VStr ab_newline) = Ok (true, "Success") /\
  table_name_rules ab_newline = false /\
  in_class table_chars newline = false.
Proof. vm_compute. auto. Qed.

(** ** What the patterns of the validators accept *)

Section Patterns.

Variable cls : list (ascii * ascii).

(** [re.search] of a class: some character is in it. *)
Lemma search_class (i : nat) (l : list ascii) :
  matched (search_from (Cls cls) i l) = existsb (in_class cls) l.
Proof.
  revert i. induction l as [|x l IH]; intros i; [reflexivity|].
  cbn [search_from match_at run existsb andb].
  destruct (in_class cls x); [reflexivity|]. simpl. apply IH.
Qed.

(** [re.match] of [^] and a class: the first character is in it. *)
Lemma match_start_class (l : list ascii) :
  matched (match_at (Seq Bol (Cls cls)) false 0 l) =
  match l with x :: _ => in_class cls x | [] => false end.
Proof.
  destruct l as [|x l]; [reflexivity|].
  cbn. destruct (in_class cls x); reflexivity.
Qed.

Lemma match_double (i : nat) (l : list ascii) :
  match_at (Rep 2 (Cls cls)) false i l =
  match l with
  | x :: y :: _ => if in_class cls x && in_class cls y then Some (S (S i)) else None
  | _ => None
  end.
Proof.
  destruct l as [|x [|y l]]; cbn; try reflexivity.
  - destruct (in_class cls x); reflexivity.
  - destruct (in_class cls x); [destruct (in_class cls y)|]; reflexivity.
Qed.

(** [re.search] of a class twice: two characters in a row are in it. *)
Lemma search_double (i : nat) (l : list ascii) :
  matched (search_from (Rep 2 (Cls cls)) i l) = has_double cls l.
Proof.
  revert i. induction l as [|x l IH]; intros i; [reflexivity|].
  change (search_from (Rep 2 (Cls cls)) i (x :: l))
    with (match match_at (Rep 2 (Cls cls)) false i (x :: l) with
          | Some j => Some (i, j)
          | None => search_from (Rep 2 (Cls cls)) (S i) l
          end).
  rewrite match_double.
  destruct l as [|y l']; [reflexivity|].
  change (has_double cls (x :: y :: l'))
    with ((in_class cls x && in_class cls y) || has_double cls (y :: l')).
  destruct (in_class cls x && in_class cls y); [reflexivity|].
  apply IH.
Qed.

Lemma star_class_eol (fuel i : nat) (l : list ascii) :
  (length l < fuel)%nat ->
  matched (star_loop (run (Cls cls))
             (fun i' rest' => run Eol i' rest' (fun j _ => Some j)) fuel i l) =
  class_to_end cls l.
Proof.
  revert fuel i. induction l as [|x l IH]; intros fuel i Hf.
  - destruct fuel; reflexivity.
  - destruct fuel as [|fuel]; [simpl in Hf; lia|].
    cbn [star_loop run class_to_end].
    assert (Hlt : Nat.ltb i (S i) = true) by (apply Nat.ltb_lt; lia).
    rewrite Hlt.
    specialize (IH fuel (S i) ltac:(simpl in Hf; lia)).
    destruct (in_class cls x); cbn [andb orb].
    + destruct (star_loop _ _ fuel (S i) l) eqn:E.
      * rewrite <- IH. reflexivity.
      * rewrite <- IH. cbn [matched orb].
        destruct l; [destruct (Ascii.eqb x newline)|]; reflexivity.
    + destruct l; [destruct (Ascii.eqb x newline)|]; reflexivity.
Qed.

(** [re.match] of [^[cls]*$]. *)
Lemma match_all_class (l : list ascii) :
  matched (match_at (Seq Bol (Seq (Star (Cls cls)) Eol)) false 0 l) =
  class_to_end cls l.
Proof.
  unfold match_at. cbn [run Nat.eqb andb].
  apply star_class_eol. lia.
Qed.

(** Without a newline in the class, this is: every character is in the
    class, but for a newline at the very end. *)
Lemma class_to_end_spec (l : list ascii) :
  in_class cls newline = false ->
  class_to_end cls l =
  forallb (in_class cls) l ||
  match List.last (map Some l) None with
  | Some c => Ascii.eqb c newline && forallb (in_class cls) (removelast l)
  | None => false
  end.
Proof.
  intros Hn. induction l as [|x l IH]; [reflexivity|].
  cbn [class_to_end forallb].
  destruct l as [|y l'].
  - cbn. destruct (Ascii.eqb_spec x newline) as [->|Hx].
    + rewrite Hn. reflexivity.
    + destruct (in_class cls x); reflexivity.
  - rewrite IH. rewrite orb_false_r.
    change (List.last (map Some (x :: y :: l')) None)
      with (List.last (map Some (y :: l')) None).
    change (removelast (x :: y :: l')) with (x :: removelast (y :: l')).
    cbn [forallb].
    destruct (in_class cls x); cbn [andb orb]; [reflexivity|].
    destruct (List.last (map Some (y :: l')) None); [|reflexivity].
    rewrite andb_false_r. reflexivity.
Qed.

Lemma last_newline_exists (l : list ascii) :
  match List.last (map Some l) None with
  | Some c => Ascii.eqb c newline && forallb (in_class cls) (removelast l)
  | None => false
  end = true ->
  existsb (Ascii.eqb newline) l = true.
Proof.
  induction l as [|x l IH]; [discriminate|].
  destruct l as [|y l'].
  - cbn [List.last map removelast forallb existsb]. intros H.
    apply andb_true_iff in H as [H _].
    rewrite Ascii.eqb_sym, H. reflexivity.
  - change (List.last (map Some (x :: y :: l')) None)
      with (List.last (map Some (y :: l')) None).
    change (removelast (x :: y :: l')) with (x :: removelast (y :: l')).
    intros H. cbn [existsb]. apply orb_true_iff. right. apply IH.
    destruct (List.last (map Some (y :: l')) None); [|discriminate H].
    apply andb_true_iff in H as [-> H]. cbn [forallb] in H.
    apply andb_true_iff in H as [_ ->]. reflexivity.
Qed.

End Patterns.

(** What [validate_s3bucket_name] accepts: the rules, with the last one
    read as [class_to_end]. *)
Lemma validate_s3bucket_name_accepts (s : string) :
  validate_s3bucket_name (VStr s) = Ok (true, "Success") <->
  bucket_name_accepted s = true.
Proof.
  unfold validate_s3bucket_name, bucket_name_accepted, starts_with, chars.
  cbn [py_len py_re_subject rbind].
  unfold re_search, re_match, re_upper, re_bucket_start, re_bucket_double,
    re_bucket_all.
  rewrite search_class, match_start_class, search_double, match_all_class.
  destruct (Nat.ltb_spec (String.length s) 3) as [H3|H3];
    destruct (Nat.ltb_spec 63 (String.length s)) as [H63|H63];
    destruct (Nat.leb_spec 3 (String.length s)) as [L3|L3];
    destruct (Nat.leb_spec (String.length s) 63) as [L63|L63];
    try lia; cbn [orb andb]; try (split; intros H; discriminate H).
  destruct (existsb (in_class upper) (list_ascii_of_string s)); cbn [negb andb];
    [split; intros H; discriminate H|].
  destruct (match list_ascii_of_string s with
            | [] => false
            | x :: _ => in_class lower_digit x
            end); cbn [negb andb];
    [|split; intros H; discriminate H].
  destruct (has_double dash_dot (list_ascii_of_string s)); cbn [negb andb];
    [split; intros H; discriminate H|].
  destruct (class_to_end bucket_chars (list_ascii_of_string s)); cbn [negb];
    split; intros H; try reflexivity; discriminate H.
Qed.

Lemma validate_name_dynamotable_accepts (s : string) :
  validate_name_dynamotable (VStr s) = Ok (true, "Success") <->
  table_name_accepted s = true.
Proof.
  unfold validate_name_dynamotable, table_name_accepted, starts_with, chars.
  cbn [py_len py_re_subject rbind].
  unfold re_search, re_match, re_table_start, re_table_double, re_table_all.
  rewrite match_start_class, search_double, match_all_class.
  change (255 - 5)%nat with 250%nat.
  destruct (Nat.ltb_spec (String.length s) 3) as [H3|H3];
    destruct (Nat.ltb_spec 250 (String.length s)) as [H63|H63];
    destruct (Nat.leb_spec 3 (String.length s)) as [L3|L3];
    destruct (Nat.leb_spec (String.length s) 250) as [L63|L63];
    try lia; cbn [orb andb]; try (split; intros H; discriminate H).
  destruct (match list_ascii_of_string s with
            | [] => false
            | x :: _ => in_class alnum x
            end); cbn [negb andb];
    [|split; intros H; discriminate H].
  destruct (has_double dash_dot_underscore (list_ascii_of_string s));
    cbn [negb andb]; [split; intros H; discriminate H|].
  destruct (class_to_end table_chars (list_ascii_of_string s)); cbn [negb];
    split; intros H; try reflexivity; discriminate H.
Qed.

(** A name that follows the rules is accepted, and an accepted name
    without a newline follows the rules. *)
Lemma bucket_name_rules_accepted (s : string) :
  bucket_name_rules s = true -> validate_s3bucket_name (VStr s) = Ok (true, "Success").
Proof.
  intros H. apply validate_s3bucket_name_accepts.
  unfold bucket_name_rules in H. unfold bucket_name_accepted.
  rewrite (class_to_end_spec bucket_chars) by reflexivity.
  apply andb_true_iff in H as [H ->]. rewrite H. reflexivity.
Qed.

Lemma accepted_bucket_name_rules (s : string) :
  validate_s3bucket_name (VStr s) = Ok (true, "Success") ->
  existsb (Ascii.eqb newline) (chars s) = false ->
  bucket_name_rules s = true.
Proof.
  intros H Hn. apply validate_s3bucket_name_accepts in H.
  unfold bucket_name_rules. unfold bucket_name_accepted in H.
  apply andb_true_iff in H as [H Hc]. rewrite H. cbn [andb].
  rewrite (class_to_end_spec bucket_chars) in Hc by reflexivity.
  apply orb_true_iff in Hc as [Hc|Hc]; [exact Hc|].
  apply last_newline_exists in Hc. congruence.
Qed.

Lemma table_name_rules_accepted (s : string) :
  table_name_rules s = true -> validate_name_dynamotable (VStr s) = Ok (true, "Success").
Proof.
  intros H. apply validate_name_dynamotable_accepts.
  unfold table_name_rules in H. unfold table_name_accepted.
  rewrite (class_to_end_spec table_chars) by reflexivity.
  apply andb_true_iff in H as [H ->]. rewrite H. reflexivity.
Qed.

Lemma accepted_table_name_rules (s : string) :
  validate_name_dynamotable (VStr s) = Ok (true, "Success") ->
  existsb (Ascii.eqb newline) (chars s) = false ->
  table_name_rules s = true.
Proof.
  intros H Hn. apply validate_name_dynamotable_accepts in H.
  unfold table_name_rules. unfold table_name_accepted in H.
  apply andb_true_iff in H as [H Hc]. rewrite H. cbn [andb].
  rewrite (class_to_end_spec table_chars) in Hc by reflexivity.
  apply orb_true_iff in Hc as [Hc|Hc]; [exact Hc|].
  apply last_newline_exists in Hc. congruence.
Qed.

(** ** C4: response validation *)

Lemma validate_aws_cases (d : list (string * pyval)) (expected : Z) :
  validate_aws (VDict d) expected =
  match metadata_field d with
  | None => Raise (Exn ResponseError "No response received by API")
  | Some m =>
      match dict_lookup m "HTTPStatusCode" with
      | Some (VInt z) =>
          if z =? expected then Ok true
          else Raise (Exn ResponseError ("HTTPStatusCode=" +:+ str_of_Z z))
      | Some (VBool b) =>
          if Z.b2z b =? expected then Ok true
          else Raise (Exn ResponseError
                        ("HTTPStatusCode=" +:+ (if b then "True" else "False")))
      | _ => Raise (Exn ResponseError "No HTTPStatusCode received by API")
      end
  end.
Proof.
  unfold validate_aws, metadata_field, py_get, py_getitem, rbind.
  destruct (dict_lookup d "ResponseMetadata") as [[| | | | |m]|]; simpl; try reflexivity.
  destruct (dict_lookup m "HTTPStatusCode") as [[|b|z| | |]|]; simpl; try reflexivity.
  - destruct (Z.b2z b =? expected); reflexivity.
  - destruct (z =? expected); reflexivity.
Qed.

(** C4: on a response [d], [validate_aws] raises [ResponseError] exactly
    when the metadata is absent or not a dict, or the status code is absent
    or not an integer, or the status code differs from the expected one;
    in every other case it returns [True]. *)
Theorem validate_aws_spec (d : list (string * pyval)) (expected : Z) :
  ((exists msg, validate_aws (VDict d) expected = Raise (Exn ResponseError msg))
     <-> response_rejected d expected) /\
  (validate_aws (VDict d) expected = Ok true <-> ~ response_rejected d expected).
Proof.
  rewrite validate_aws_cases. unfold response_rejected, status_field.
  destruct (metadata_field d) as [m|].
  2:{ split; split; intros H; try exact I; try (eexists; reflexivity);
      try discriminate H. exfalso; apply H; exact I. }
  destruct (dict_lookup m "HTTPStatusCode") as [[|b|z| | |]|];
    try (split; split; intros H; try exact I; try (eexists; reflexivity);
         try discriminate H; exfalso; apply H; exact I).
  - destruct (Z.eqb_spec (Z.b2z b) expected) as [E|E].
    + split; split; intros H; try reflexivity.
      * destruct H as [msg H]; discriminate H.
      * contradiction.
      * intros N; contradiction.
    + split; split; intros H; try assumption.
      * eexists; reflexivity.
      * discriminate H.
      * contradiction.
  - destruct (Z.eqb_spec z expected) as [E|E].
    + split; split; intros H; try reflexivity.
      * destruct H as [msg H]; discriminate H.
      * contradiction.
      * intros N; contradiction.
    + split; split; intros H; try assumption.
      * eexists; reflexivity.
      * discriminate H.
      * contradiction.
Qed.

(** A value that is not a dict has no [get]: the [AttributeError] of the
    first test comes out. *)
Example validate_aws_not_a_dict :
  validate_aws VNone 200 = Raise (Exn AttributeError "object has no attribute 'get'").
Proof. reflexivity. Qed.

(** ** C9: the validators on any value *)

(** C9, as stated, does not hold: on [None], which is the default of the
    argument in both constructors, the validators raise [AttributeError],
    and on a list of three items [TypeError]. *)
Lemma validators_raise_counterexample :
  validate_s3bucket_name VNone =
    Raise (Exn AttributeError "object has no attribute '__len__'") /\
  validate_name_dynamotable VNone =
    Raise (Exn AttributeError "object has no attribute '__len__'") /\
  validate_s3bucket_name (VList [VInt 1; VInt 2; VInt 3]) =
    Raise (Exn TypeError "expected string or bytes-like object").
Proof. repeat split. Qed.

(** C9 (amended): on every string both validators return a pair of a
    boolean and a reason, and do not raise. *)
Theorem validators_total_on_str (s : string) :
  (exists valid reason, validate_s3bucket_name (VStr s) = Ok (valid, reason)) /\
  (exists valid reason, validate_name_dynamotable (VStr s) = Ok (valid, reason)).
Proof.
  split.
  - unfold validate_s3bucket_name; simpl.
    repeat match goal with
           | |- context [if ?c then _ else _] => destruct c
           end; eauto.
  - unfold validate_name_dynamotable; simpl.
    repeat match goal with
           | |- context [if ?c then _ else _] => destruct c
           end; eauto.
Qed.

(** ** Calls and the store *)

Section Frame.

Implicit Types (w : world) (req : request).

Lemma serve_frame req w r w' :
  serve req w = (r, w') ->
  calls w' = calls w /\ faults w' = faults w /\ stdout w' = stdout w /\
  region w' = region w /\ clock w' = clock w.
Proof.
  destruct req; simpl; intros H;
    repeat match type of H with
           | context [match ?x with _ => _ end] => destruct x
           end;
    inversion H; subst; simpl; auto.
Qed.

Lemma api_frame req w r w' :
  api req w = (r, w') ->
  calls w' = calls w ++ [req] /\ faults w' = tail (faults w) /\
  stdout w' = stdout w /\ region w' = region w /\ clock w' = clock w.
Proof.
  unfold api. intros H.
  destruct (hd None (faults w)) as [[e|v]|].
  - inversion H; subst; simpl; auto.
  - inversion H; subst; simpl; auto.
  - apply serve_frame in H. simpl in H. exact H.
Qed.

End Frame.

(** What [validate_aws] raises on a dict is a [ResponseError]. *)
Lemma validate_aws_raises (d : list (string * pyval)) (expected : Z) (e : exn) :
  validate_aws (VDict d) expected = Raise e -> exn_cls e = ResponseError.
Proof.
  rewrite validate_aws_cases.
  destruct (metadata_field d) as [m|]; [|intros [= <-]; reflexivity].
  destruct (dict_lookup m "HTTPStatusCode") as [[|b|z| | |]|];
    try (intros [= <-]; reflexivity).
  - destruct (Z.b2z b =? expected); [discriminate|intros [= <-]; reflexivity].
  - destruct (z =? expected); [discriminate|intros [= <-]; reflexivity].
Qed.

Lemma validate_aws_rejected (d : list (string * pyval)) (expected : Z) :
  response_rejected d expected ->
  exists msg, validate_aws (VDict d) expected = Raise (Exn ResponseError msg).
Proof.
  rewrite validate_aws_cases. unfold response_rejected, status_field.
  destruct (metadata_field d) as [m|]; [|intros _; eexists; reflexivity].
  destruct (dict_lookup m "HTTPStatusCode") as [[|b|z| | |]|];
    try (intros _; eexists; reflexivity).
  - intros H. destruct (Z.eqb_spec (Z.b2z b) expected) as [E|E];
      [contradiction|eexists; reflexivity].
  - intros H. destruct (Z.eqb_spec z expected) as [E|E];
      [contradiction|eexists; reflexivity].
Qed.

Lemma validate_aws_raise_class (r : pyval) (expected : Z) (e : exn) :
  validate_aws r expected = Raise e ->
  exn_cls e = ResponseError \/ exn_cls e = AttributeError.
Proof.
  destruct r as [| | | | |d]; try (intros [= <-]; right; reflexivity).
  intros H. left. exact (validate_aws_raises _ _ _ H).
Qed.

Lemma validate_aws_ok (r : pyval) (expected : Z) (v : bool) :
  validate_aws r expected = Ok v -> v = true.
Proof.
  destruct r as [| | | | |d]; try discriminate.
  rewrite validate_aws_cases.
  repeat match goal with
         | |- context [match ?x with _ => _ end] => destruct x
         end; congruence.
Qed.

Lemma catches_not_found (e : exn) :
  catches ResourceNotFoundException e = true ->
  exn_cls e = ResourceNotFoundException.
Proof.
  unfold catches, derives_from. destruct (exn_cls e); simpl; congruence.
Qed.

Lemma validate_aws_not_caught (r : pyval) (expected : Z) (e : exn) (base : exn_class) :
  validate_aws r expected = Raise e ->
  base <> ResponseError -> base <> AttributeError ->
  catches base e = false.
Proof.
  intros H N1 N2. unfold catches.
  destruct (validate_aws_raise_class _ _ _ H) as [-> | ->];
    destruct base; try reflexivity; congruence.
Qed.

(** ** C10: a bad answer to a describe is not a missing table *)

(** C10: [tables_exist] returns [False] only when the describe of
    [<name>.lock], or after it that of [<name>.s3], raises "table not
    found"; when a describe answers with a response that is malformed or
    whose status is not 200, the [ResponseError] of the validation reaches
    the caller, whereas [bucket_exist] turns the same [ResponseError] on
    its probe into [False]. *)
Theorem tables_exist_reports_bad_response (self : DynamoTable) (probe : S3Bucket) (w : world) :
  let lock := DescribeTable (Table.table_name self +:+ ".lock") in
  let s3 := DescribeTable (Table.table_name self +:+ ".s3") in
  (forall w', tables_exist self w = (Ok false, w') ->
     (exists e, api lock w = (Raise e, w') /\
                exn_cls e = ResourceNotFoundException) \/
     (exists r w1 e, api lock w = (Ok r, w1) /\ validate_aws r 200 = Ok true /\
                     api s3 w1 = (Raise e, w') /\
                     exn_cls e = ResourceNotFoundException)) /\
  (forall d w1, api lock w = (Ok (VDict d), w1) -> response_rejected d 200 ->
     exists msg, tables_exist self w = (Raise (Exn ResponseError msg), w1)) /\
  (forall r w1 d w2, api lock w = (Ok r, w1) -> validate_aws r 200 = Ok true ->
     api s3 w1 = (Ok (VDict d), w2) -> response_rejected d 200 ->
     exists msg, tables_exist self w = (Raise (Exn ResponseError msg), w2)) /\
  (forall d w1, api (HeadBucket (bucket_name probe)) w = (Ok (VDict d), w1) ->
     response_rejected d 200 ->
     bucket_exist probe w = (Ok false, w1)).
Proof.
  intros lock s3. repeat split.
  - intros w'. unfold tables_exist, try_except, bind, lift, ret, raise.
    fold lock. fold s3.
    destruct (api lock w) as [[r|e] w1] eqn:E1.
    + destruct (validate_aws r 200) as [v|e] eqn:V1.
      * pose proof (validate_aws_ok _ _ _ V1) as ->.
        destruct (api s3 w1) as [[r2|e2] w2] eqn:E2.
        -- destruct (validate_aws r2 200) as [v2|e2] eqn:V2; [intros [=]|].
           rewrite (validate_aws_not_caught _ _ _ ResourceNotFoundException V2)
             by discriminate.
           intros [=].
        -- destruct (catches ResourceNotFoundException e2) eqn:C; intros [= <-].
           right. exists r, w1, e2. repeat split; auto using catches_not_found.
      * rewrite (validate_aws_not_caught _ _ _ ResourceNotFoundException V1)
          by discriminate.
        intros [=].
    + destruct (catches ResourceNotFoundException e) eqn:C; intros [= <-].
      left. exists e. split; auto using catches_not_found.
  - intros d w1 E1 R. destruct (validate_aws_rejected _ _ R) as [msg V].
    exists msg. unfold tables_exist, try_except, bind, lift.
    fold lock. rewrite E1, V. reflexivity.
  - intros r w1 d w2 E1 V1 E2 R. destruct (validate_aws_rejected _ _ R) as [msg V].
    exists msg. unfold tables_exist, try_except, bind, lift.
    fold lock. fold s3. rewrite E1, V1, E2, V. reflexivity.
  - intros d w1 E1 R. destruct (validate_aws_rejected _ _ R) as [msg V].
    unfold bucket_exist, try_except, bind, lift. rewrite E1, V. reflexivity.
Qed.

(** The describe of the lock table is answered by an empty dict: the
    [ResponseError] comes out of [tables_exist], and [bucket_exist] says
    [False] on the same answer. *)
Lemma tables_exist_reports_bad_response_witness :
  api (DescribeTable "terraform.x.lock") world_garbled =
    (Ok (VDict []), snd (api (DescribeTable "terraform.x.lock") world_garbled)) /\
  response_rejected [] 200 /\
  (exists msg,
     tables_exist table_x world_garbled =
     (Raise (Exn ResponseError msg),
      snd (api (DescribeTable "terraform.x.lock") world_garbled))) /\
  bucket_exist bucket_abc world_garbled =
    (Ok false, snd (api (HeadBucket "abc") world_garbled)).
Proof.
  destruct (tables_exist_reports_bad_response table_x bucket_abc world_garbled)
    as (_ & Hlock & _ & Hprobe).
  split; [vm_compute; reflexivity|].
  split; [vm_compute; exact I|].
  split.
  - apply (Hlock []); [vm_compute; reflexivity | vm_compute; exact I].
  - apply (Hprobe []); [vm_compute; reflexivity | vm_compute; exact I].
Defined.

(** ** C7: a registered repository keeps its bucket name *)

(** C7: when the [.s3] table has a row for the GitURI whose BucketName is
    a string, and the read is served, [lookup_s3] with auto_create=True
    returns that name; the read is the only call, and the tables are as
    before. *)
Theorem lookup_s3_returns_stored (self : DynamoTable) (uri stored : string)
    (w : world) (t : table) (item : list (string * pyval)) :
  hd None (faults w) = None ->
  tables w !! (Table.table_name self +:+ ".s3") = Some t ->
  hash_key_of t = "GitURI" ->
  items t !! uri = Some item ->
  dict_lookup item "BucketName" = Some (VStr stored) ->
  exists w',
    lookup_s3 self uri true w = (Ok (Some stored), w') /\
    tables w' = tables w /\
    buckets w' = buckets w /\
    calls w' = calls w ++ [GetItem (Table.table_name self +:+ ".s3") "GitURI" uri].
Proof.
  intros Hf Ht Hk Hi Hb.
  eexists. split.
  - unfold lookup_s3, try_except, bind, api, lift. rewrite Hf.
    cbn [serve set_faults log_call buckets tables faults calls region clock stdout].
    rewrite Ht, Hk. cbn [String.eqb Ascii.eqb Bool.eqb negb]. rewrite Hi.
    cbn. rewrite Hb. reflexivity.
  - cbn. auto.
Qed.

Lemma lookup_s3_returns_stored_witness :
  hd None (faults world_registered) = None /\
  tables world_registered !! "terraform.x.s3" = Some registry_x /\
  hash_key_of registry_x = "GitURI" /\
  items registry_x !! "x/y" = Some row_xy /\
  dict_lookup row_xy "BucketName" = Some (VStr "terraform.x-1571000000000000") /\
  exists w',
    lookup_s3 table_x "x/y" true world_registered =
      (Ok (Some "terraform.x-1571000000000000"), w') /\
    tables w' = tables world_registered /\
    buckets w' = buckets world_registered /\
    calls w' = calls world_registered ++ [GetItem "terraform.x.s3" "GitURI" "x/y"].
Proof.
  repeat (split; [vm_compute; reflexivity|]).
  apply (lookup_s3_returns_stored table_x "x/y" "terraform.x-1571000000000000"
           world_registered registry_x row_xy);
    vm_compute; reflexivity.
Defined.

(** ** C8: ensuring the tables twice *)

Lemma suffix_lock_s3 (name : string) : name +:+ ".lock" <> name +:+ ".s3".
Proof.
  induction name as [|c name IH]; simpl; intros H.
  - discriminate H.
  - injection H as H. exact (IH H).
Qed.

Ltac crunch_tables L S :=
  unfold api;
  repeat first [ progress cbn -[lookup insert]
               | rewrite L | rewrite S
               | rewrite lookup_insert_eq
               | rewrite lookup_insert_ne by congruence ].

(** With both tables there, the call describes them and returns. *)
Lemma create_tables_present (self : DynamoTable) (w : world) :
  faults w = [] ->
  is_Some (tables w !! (Table.table_name self +:+ ".lock")) ->
  is_Some (tables w !! (Table.table_name self +:+ ".s3")) ->
  exists w',
    create_tables self true w = (Ok self, w') /\
    tables w' = tables w /\
    calls w' = calls w ++ [DescribeTable (Table.table_name self +:+ ".lock");
                           DescribeTable (Table.table_name self +:+ ".s3")].
Proof.
  intros Hf [tl L] [ts S].
  unfold create_tables, tables_exist, try_except, bind, lift, ret, Table.info, say.
  destruct w as [bk tb rg ck fl cl so]; simpl in Hf, L, S; subst fl.
  eexists; split; [crunch_tables L S; reflexivity|].
  cbn. rewrite <- app_assoc. auto.
Qed.

(** Whatever is there at first, the call succeeds and both tables are
    there afterwards. *)
Lemma create_tables_first (self : DynamoTable) (w : world) :
  faults w = [] ->
  exists w1,
    create_tables self true w = (Ok self, w1) /\
    faults w1 = [] /\
    is_Some (tables w1 !! (Table.table_name self +:+ ".lock")) /\
    is_Some (tables w1 !! (Table.table_name self +:+ ".s3")).
Proof.
  intros Hf.
  pose proof (suffix_lock_s3 (Table.table_name self)) as Hne.
  unfold create_tables, tables_exist, try_except, bind, lift, ret, Table.info, say.
  set (lock := Table.table_name self +:+ ".lock") in *.
  set (s3 := Table.table_name self +:+ ".s3") in *.
  destruct w as [bk tb rg ck fl cl so]; simpl in Hf; subst fl.
  destruct (tb !! lock) as [tl|] eqn:L; destruct (tb !! s3) as [ts|] eqn:S;
    (eexists; split; [crunch_tables L S; reflexivity|]);
    cbn -[lookup insert];
    repeat first [ rewrite L | rewrite S | rewrite lookup_insert_eq
                 | rewrite lookup_insert_ne by congruence ];
    repeat split; eauto.
Qed.

(** C8: against a service that answers every call, [create_tables] with
    check_exist=True succeeds twice in a row; after the first call both
    tables are there, and the second call only describes them: it returns
    without an error and leaves the tables as they were. *)
Theorem create_tables_twice (self : DynamoTable) (w : world) :
  faults w = [] ->
  exists w1 w2,
    create_tables self true w = (Ok self, w1) /\
    create_tables self true w1 = (Ok self, w2) /\
    is_Some (tables w1 !! (Table.table_name self +:+ ".lock")) /\
    is_Some (tables w1 !! (Table.table_name self +:+ ".s3")) /\
    tables w2 = tables w1 /\
    calls w2 = calls w1 ++ [DescribeTable (Table.table_name self +:+ ".lock");
                            DescribeTable (Table.table_name self +:+ ".s3")].
Proof.
  intros Hf.
  destruct (create_tables_first self w Hf) as (w1 & E1 & Hf1 & Hl & Hs).
  destruct (create_tables_present self w1 Hf1 Hl Hs) as (w2 & E2 & Ht & Hc).
  exists w1, w2. auto 10.
Qed.

Lemma create_tables_twice_witness :
  faults world_empty = [] /\
  exists w1 w2,
    create_tables table_x true world_empty = (Ok table_x, w1) /\
    create_tables table_x true w1 = (Ok table_x, w2) /\
    is_Some (tables w1 !! "terraform.x.lock") /\
    is_Some (tables w1 !! "terraform.x.s3") /\
    tables w2 = tables w1 /\
    calls w2 = calls w1 ++ [DescribeTable "terraform.x.lock";
                            DescribeTable "terraform.x.s3"].
Proof.
  split; [reflexivity|].
  apply (create_tables_twice table_x world_empty). reflexivity.
Defined.

(** ** The bucket calls under a fault schedule *)

Lemma raises_only_hd (w : world) (r : pyval) :
  raises_only w = true -> hd None (faults w) <> Some (Garbled r).
Proof.
  unfold raises_only. destruct (faults w) as [|[[e|v]|] later]; simpl;
    congruence.
Qed.

Lemma raises_only_tail (w w' : world) :
  raises_only w = true -> faults w' = tail (faults w) -> raises_only w' = true.
Proof.
  unfold raises_only. intros H ->.
  destruct (faults w) as [|f later]; simpl in *; [reflexivity|].
  apply andb_true_iff in H. tauto.
Qed.

(** A call that returns under such a schedule has been served. *)
Lemma api_returns (req : request) (w : world) (r : pyval) (w' : world) :
  raises_only w = true ->
  api req w = (Ok r, w') ->
  serve req (set_faults (tail (faults w)) (log_call req w)) = (Ok r, w') /\
  raises_only w' = true.
Proof.
  intros Hr H. split.
  - unfold api in H. pose proof (raises_only_hd w) as Hh.
    destruct (hd None (faults w)) as [[e|v]|].
    + discriminate H.
    + exfalso. exact (Hh v Hr eq_refl).
    + exact H.
  - apply api_frame in H. eapply raises_only_tail; [exact Hr|tauto].
Qed.

Lemma api_raises_only (req : request) (w : world) (r : result pyval) (w' : world) :
  raises_only w = true -> api req w = (r, w') -> raises_only w' = true.
Proof.
  intros Hr H. apply api_frame in H. eapply raises_only_tail; [exact Hr|tauto].
Qed.

(** Reading does not change the buckets. *)
Lemma api_read_buckets (req : request) (w : world) (r : result pyval) (w' : world) :
  is_mutation req = false -> api req w = (r, w') ->
  buckets w' = buckets w /\ (forall name, is_Some (tables w !! name) -> is_Some (tables w' !! name)).
Proof.
  unfold api. intros Hm H.
  destruct (hd None (faults w)) as [[e|v]|].
  - inversion H; subst; simpl; auto.
  - inversion H; subst; simpl; auto.
  - destruct req; try discriminate Hm; simpl in H;
      repeat match type of H with
             | context [match ?x with _ => _ end] => destruct x eqn:?
             end;
      inversion H; subst; simpl; auto.
    split; [reflexivity|]. intros name' Hs.
    destruct (decide (TableName = name')) as [->|Hne].
    + rewrite lookup_insert_eq. eauto.
    + rewrite lookup_insert_ne by exact Hne. exact Hs.
Qed.

Lemma is_managed_tag_dict (kv : string * string) :
  is_managed_tag (tag_dict kv) = Ok (is_managed kv).
Proof.
  destruct kv as [k v]. unfold is_managed_tag, tag_dict, is_managed. simpl.
  destruct (String.eqb k "managed_by"); reflexivity.
Qed.

Lemma comprehension_tag_dicts (tags : list (string * string)) :
  comprehension is_managed_tag (map tag_dict tags) =
  Ok (map tag_dict (List.filter is_managed tags)).
Proof.
  induction tags as [|kv tags IH]; simpl; [reflexivity|].
  rewrite is_managed_tag_dict, IH. simpl.
  destruct (is_managed kv); reflexivity.
Qed.

Lemma is_managed_eq (kv : string * string) :
  is_managed kv = true -> kv = managed_tag.
Proof.
  destruct kv as [k v]. unfold is_managed. simpl. intros H.
  apply andb_true_iff in H as [Hk Hv].
  apply String.eqb_eq in Hk, Hv. subst. reflexivity.
Qed.

Lemma filter_managed_nonempty (tags : list (string * string)) :
  List.filter is_managed tags <> [] -> In managed_tag tags.
Proof.
  induction tags as [|kv tags IH]; simpl; [congruence|].
  destruct (is_managed kv) eqn:E.
  - intros _. left. exact (is_managed_eq _ E).
  - intros H. right. exact (IH H).
Qed.

(** When [bucket_owned] says yes under such a schedule, the bucket is in
    the account and carries the tag. *)
Lemma bucket_owned_true (self : S3Bucket) (w w' : world) :
  raises_only w = true ->
  bucket_owned self w = (Ok true, w') ->
  raises_only w' = true /\ buckets w' = buckets w /\
  exists b, buckets w !! bucket_name self = Some b /\
            in_our_account b = true /\ In managed_tag (tag_set b).
Proof.
  intros Hr. unfold bucket_owned, try_except, bind, lift, ret, raise.
  destruct (api (GetBucketTagging (bucket_name self)) w) as [[r|e] w1] eqn:E.
  2:{ destruct (catches NoSuchBucket e); [intros [=]|].
      destruct (catches ClientError e); intros [=]. }
  destruct (api_returns _ _ _ _ Hr E) as [Hs Hr1].
  destruct (api_read_buckets (GetBucketTagging (bucket_name self)) _ _ _ eq_refl E) as [Hb _].
  simpl in Hs.
  destruct (buckets w !! bucket_name self) as [b|] eqn:L; [|discriminate Hs].
  destruct (in_our_account b) eqn:Ho; simpl in Hs; [|discriminate Hs].
  destruct (tag_set b) as [|t ts] eqn:Ht; [discriminate Hs|].
  injection Hs as <- <-.
  change (tag_dict t :: map tag_dict ts) with (map tag_dict (t :: ts)).
  rewrite <- Ht. clear E Ht t ts.
  change (py_get (response 200 [("TagSet", VList (map tag_dict (tag_set b)))]) "TagSet")
    with (@Ok pyval (VList (map tag_dict (tag_set b)))).
  cbv beta iota.
  destruct (py_truthy (VList (map tag_dict (tag_set b)))); cbn [negb];
    [|intros [=]].
  cbn [py_iter]. rewrite comprehension_tag_dicts.
  destruct (Nat.eqb (length (map tag_dict (List.filter is_managed (tag_set b)))) 1)
    eqn:El; [|intros [=]].
  intros [= <-]. split; [exact Hr1|]. split; [exact Hb|].
  exists b. split; [reflexivity|]. split; [exact Ho|].
  apply filter_managed_nonempty. intros Hnil. rewrite Hnil in El. discriminate El.
Qed.

(** The two probes change neither the buckets nor the tables. *)
Lemma api_probe (req : request) (w : world) (r : result pyval) (w' : world) :
  (exists name, req = HeadBucket name \/ req = GetBucketTagging name) ->
  api req w = (r, w') ->
  buckets w' = buckets w /\ tables w' = tables w.
Proof.
  unfold api. intros [name Hreq] H.
  destruct (hd None (faults w)) as [[e|v]|].
  - inversion H; subst; simpl; auto.
  - inversion H; subst; simpl; auto.
  - destruct Hreq as [-> | ->]; simpl in H;
      repeat match type of H with
             | context [match ?x with _ => _ end] => destruct x
             end;
      inversion H; subst; simpl; auto.
Qed.

Ltac same_world H :=
  repeat match type of H with
         | context [match ?x with _ => _ end] => destruct x
         | context [if ?x then _ else _] => destruct x
         end;
  unfold ret, raise in H; congruence.

Lemma bucket_owned_world (self : S3Bucket) (w : world) (r : result bool) (w' : world) :
  bucket_owned self w = (r, w') ->
  exists r0, api (GetBucketTagging (bucket_name self)) w = (r0, w').
Proof.
  unfold bucket_owned, try_except, bind, lift.
  destruct (api (GetBucketTagging (bucket_name self)) w) as [r0 w1].
  intros H. exists r0. f_equal. destruct r0 as [v|e]; same_world H.
Qed.

Lemma bucket_exist_world (self : S3Bucket) (w : world) (r : result bool) (w' : world) :
  bucket_exist self w = (r, w') ->
  exists r0, api (HeadBucket (bucket_name self)) w = (r0, w').
Proof.
  unfold bucket_exist, try_except, bind, lift.
  destruct (api (HeadBucket (bucket_name self)) w) as [r0 w1].
  intros H. exists r0. f_equal. destruct r0 as [v|e]; same_world H.
Qed.

(** What a [tighten_policy] that returns has done. *)
Lemma tighten_policy_secures (self s : S3Bucket) (w w' : world) :
  raises_only w = true ->
  tighten_policy self w = (Ok s, w') ->
  s = self /\ provisioned w' (bucket_name self).
Proof.
  intros Hr. unfold tighten_policy, bind.
  destruct (bucket_owned self w) as [[[|]|e] w1] eqn:Eo; cbn [negb];
    [|intros [=]|intros [=]].
  destruct (bucket_owned_true _ _ _ Hr Eo) as (Hr1 & Hb1 & b & L & Ho & Htag).
  unfold ret at 1. unfold try_except at 1, bind, lift.
  destruct (api (PutPublicAccessBlock (bucket_name self) (mkPAB true true true true)) w1)
    as [[r2|e2] w2] eqn:E2.
  2:{ unfold Bucket.exit, raise. destruct (catches ResponseError e2); intros [=]. }
  destruct (api_returns _ _ _ _ Hr1 E2) as [Hs2 Hr2].
  simpl in Hs2. rewrite Hb1, L, Ho in Hs2. injection Hs2 as <- <-.
  change (validate_aws (response 200 []) 200) with (@Ok bool true). cbv beta iota.
  unfold try_except, bind, lift.
  match goal with
  | |- context [api ?req ?wx] => destruct (api req wx) as [[r3|e3] w3] eqn:E3
  end.
  2:{ unfold Bucket.exit, raise. destruct (catches ResponseError e3); intros [=]. }
  destruct (api_returns _ _ _ _ Hr2 E3) as [Hs3 Hr3].
  cbn -[lookup insert] in Hs3. rewrite lookup_insert_eq in Hs3.
  cbn -[lookup insert] in Hs3. injection Hs3 as <- <-.
  change (validate_aws (response 200 []) 200) with (@Ok bool true). cbv beta iota.
  unfold Bucket.info, say, ret. intros [= <- <-].
  split; [reflexivity|].
  unfold provisioned. cbn -[lookup insert]. rewrite lookup_insert_eq.
  eexists; split; [reflexivity|].
  unfold secured; cbn. auto.
Qed.

(** A [create_bucket] that returns hands back the object it was called
    on. *)
Lemma create_bucket_returns (self s : S3Bucket) (w w' : world) :
  raises_only w = true ->
  create_bucket self w = (Ok s, w') ->
  s = self /\ raises_only w' = true.
Proof.
  intros Hr. unfold create_bucket, bind.
  destruct (bucket_exist self w) as [[ex|e] w0] eqn:Ee; [|intros [=]].
  destruct (bucket_exist_world _ _ _ _ Ee) as [r0 E0].
  pose proof (api_raises_only _ _ _ _ Hr E0) as Hr0.
  destruct ex.
  - destruct (bucket_owned self w0) as [[ow|e] wa] eqn:Eo; [|intros [=]].
    destruct (bucket_owned_world _ _ _ _ Eo) as [ra Ea].
    pose proof (api_raises_only _ _ _ _ Hr0 Ea) as Hra.
    destruct ow; cbn [negb]; unfold Bucket.exit, Bucket.info, say, ret, raise;
      intros [= <- <-]; auto.
  - unfold try_except at 1, bind, lift.
    destruct (api (CreateBucket "private" (bucket_name self) (Bucket.region_name self)) w0)
      as [r1 w1] eqn:E1.
    pose proof (api_raises_only _ _ _ _ Hr0 E1) as Hr1.
    assert (Hh : forall e : exn,
      (if catches BucketAlreadyOwnedByYou e then ret self
       else if catches BucketAlreadyExists e
            then Bucket.exit self "BucketAlreadyExists, not owned by us."
            else if catches ClientError e
                 then Bucket.exit self
                        ("S3ResponseError when creating bucket: " +:+ exn_msg e)
                 else if catches ResponseError e
                      then Bucket.exit self
                             ("ResponseError when creating bucket: " +:+ exn_msg e)
                      else raise e) w1 = (Ok s, w') ->
      s = self /\ raises_only w' = true).
    { intros e. unfold Bucket.exit, ret, raise.
      repeat match goal with
             | |- context [if ?c then _ else _] => destruct c
             end; intros [= <- <-]; auto. }
    destruct r1 as [r1|e1]; [|apply Hh].
    destruct (validate_aws r1 200) as [v1|e1]; [|apply Hh].
    unfold try_except, bind, lift.
    match goal with
    | |- context [api ?req ?wx] => destruct (api req wx) as [r2 w2] eqn:E2
    end.
    pose proof (api_raises_only _ _ _ _ Hr1 E2) as Hr2.
    unfold Bucket.exit, Bucket.info, say, ret, raise.
    destruct r2 as [r2|e2].
    + destruct (validate_aws r2 204) as [v2|e2].
      * intros [= <- <-]; auto.
      * destruct (catches ResponseError e2); intros [=].
    + destruct (catches ResponseError e2); intros [=].
Qed.

(** ** C5: what a completed provisioning leaves behind *)

(** C5: from any store, and whatever calls fail on the way, when
    [create_bucket] followed by [tighten_policy] returns, the bucket
    exists in the account, carries the tag managed_by=terraform-init, has
    the four public-access-block flags set and versioning enabled; this
    covers the run that creates the bucket and the run that finds it. *)
Theorem provisioning_secures_bucket (self s : S3Bucket) (w w' : world) :
  raises_only w = true ->
  (created <- create_bucket self ;; tighten_policy created) w = (Ok s, w') ->
  provisioned w' (bucket_name self).
Proof.
  intros Hr. unfold bind at 1.
  destruct (create_bucket self w) as [[created|e] w1] eqn:Ec; [|intros [=]].
  destruct (create_bucket_returns _ _ _ _ Hr Ec) as [-> Hr1].
  intros Ht. exact (proj2 (tighten_policy_secures _ _ _ _ Hr1 Ht)).
Qed.

(** The run that creates the bucket. *)
Lemma provisioning_secures_bucket_witness :
  raises_only world_empty = true /\
  (created <- create_bucket bucket_abc ;; tighten_policy created) world_empty =
    (Ok bucket_abc,
     snd ((created <- create_bucket bucket_abc ;; tighten_policy created) world_empty)) /\
  provisioned
    (snd ((created <- create_bucket bucket_abc ;; tighten_policy created) world_empty))
    "abc".
Proof.
  split; [reflexivity|].
  split; [vm_compute; reflexivity|].
  apply (provisioning_secures_bucket bucket_abc bucket_abc world_empty);
    [reflexivity | vm_compute; reflexivity].
Defined.

(** The run that finds the bucket, and one where the probe fails first. *)
Example provisioning_found_bucket :
  fst (S3Bucket_init (VStr "abc") true world_tagged) = Ok bucket_abc /\
  buckets (snd (S3Bucket_init (VStr "abc") true world_tagged)) !! "abc" =
    Some (mkBucket true [managed_tag] (Some all_blocked) (Some "Enabled")).
Proof. split; vm_compute; reflexivity. Qed.

Example provisioning_after_failed_probe :
  let w := set_faults [Some (Fails (Exn ClientError "timeout"))] world_tagged in
  fst (S3Bucket_init (VStr "abc") true w) = Ok bucket_abc /\
  calls (snd (S3Bucket_init (VStr "abc") true w)) =
    [HeadBucket "abc"; CreateBucket "private" "abc" (VStr "eu-west-1");
     GetBucketTagging "abc"; PutPublicAccessBlock "abc" all_blocked;
     PutBucketVersioning "abc" "Enabled"].
Proof. split; vm_compute; reflexivity. Qed.

(** The constructor with auto_create=True is that sequence. *)
Corollary S3Bucket_init_secures (name : string) (s : S3Bucket) (w w' : world) :
  raises_only w = true ->
  S3Bucket_init (VStr name) true w = (Ok s, w') ->
  provisioned w' name.
Proof.
  intros Hr. unfold S3Bucket_init, bind, lift, get_region_name.
  destruct (validate_s3bucket_name (VStr name)) as [[[|] reason]|e];
    cbn [fst snd negb]; unfold ret, raise;
    [|intros H; discriminate H|intros H; discriminate H].
  destruct (create_bucket (mkS3Bucket (region w) name) w) as [[c|e] w1] eqn:Ec;
    [|intros [=]].
  destruct (create_bucket_returns _ _ _ _ Hr Ec) as [-> Hr1].
  destruct (tighten_policy (mkS3Bucket (region w) name) w1) as [[c2|e] w2] eqn:Et;
    intros [= <- <-].
  exact (proj2 (tighten_policy_secures _ _ _ _ Hr1 Et)).
Qed.

(** ** C6: the bucket that is already there *)

(** C6, as stated, does not hold: in [world_tagged] the bucket exists and
    is owned, and the constructor with auto_create=True returns the object
    after two mutating calls that change the bucket. *)
Lemma S3Bucket_init_mutates_counterexample :
  fst (bucket_exist bucket_abc world_tagged) = Ok true /\
  fst (bucket_owned bucket_abc world_tagged) = Ok true /\
  fst (S3Bucket_init (VStr "abc") true world_tagged) = Ok bucket_abc /\
  List.filter is_mutation (calls (snd (S3Bucket_init (VStr "abc") true world_tagged))) =
    [PutPublicAccessBlock "abc" all_blocked; PutBucketVersioning "abc" "Enabled"] /\
  buckets (snd (S3Bucket_init (VStr "abc") true world_tagged)) !! "abc" =
    Some (mkBucket true [managed_tag] (Some all_blocked) (Some "Enabled")) /\
  buckets (snd (S3Bucket_init (VStr "abc") true world_tagged)) <> buckets world_tagged.
Proof.
  repeat split; try (vm_compute; reflexivity).
  intros H.
  assert (E : buckets (snd (S3Bucket_init (VStr "abc") true world_tagged)) !! "abc"
              = buckets world_tagged !! "abc") by (rewrite H; reflexivity).
  vm_compute in E. discriminate E.
Qed.

(** The calls of a [tighten_policy] that returns. *)
Lemma tighten_policy_calls (self s : S3Bucket) (w w' : world) :
  tighten_policy self w = (Ok s, w') ->
  calls w' = calls w ++ [GetBucketTagging (bucket_name self);
                         PutPublicAccessBlock (bucket_name self) all_blocked;
                         PutBucketVersioning (bucket_name self) "Enabled"].
Proof.
  unfold tighten_policy, bind.
  destruct (bucket_owned self w) as [[[|]|e] w1] eqn:Eo; cbn [negb];
    [|intros [=]|intros [=]].
  destruct (bucket_owned_world _ _ _ _ Eo) as [r1 E1].
  apply api_frame in E1 as (C1 & _).
  unfold ret at 1. unfold try_except at 1, bind, lift.
  destruct (api (PutPublicAccessBlock (bucket_name self) (mkPAB true true true true)) w1)
    as [[r2|e2] w2] eqn:E2.
  2:{ unfold Bucket.exit, raise. destruct (catches ResponseError e2); intros [=]. }
  apply api_frame in E2 as (C2 & _).
  destruct (validate_aws r2 200) as [v2|e2].
  2:{ unfold Bucket.exit, raise. destruct (catches ResponseError e2); intros [=]. }
  unfold try_except, bind, lift.
  destruct (api (PutBucketVersioning (bucket_name self) "Enabled") w2)
    as [[r3|e3] w3] eqn:E3.
  2:{ unfold Bucket.exit, raise. destruct (catches ResponseError e3); intros [=]. }
  apply api_frame in E3 as (C3 & _).
  destruct (validate_aws r3 200) as [v3|e3].
  2:{ unfold Bucket.exit, raise. destruct (catches ResponseError e3); intros [=]. }
  unfold Bucket.info, say, ret. intros [= <- <-]. cbn.
  rewrite C3, C2, C1. rewrite <- !app_assoc. reflexivity.
Qed.

(** C6 (amended): when [bucket_exist] and then [bucket_owned] say yes,
    [create_bucket] returns the object after these two probes only, with
    the buckets and the tables as they were; the [tighten_policy] that the
    constructor runs next issues, when it returns, the calls
    put_public_access_block and put_bucket_versioning. *)
Theorem create_bucket_noop_when_owned (self : S3Bucket) (w w1 w2 : world) :
  bucket_exist self w = (Ok true, w1) ->
  bucket_owned self w1 = (Ok true, w2) ->
  exists w',
    create_bucket self w = (Ok self, w') /\
    buckets w' = buckets w /\ tables w' = tables w /\
    calls w' = calls w ++ [HeadBucket (bucket_name self);
                           GetBucketTagging (bucket_name self)] /\
    forall s w'',
      tighten_policy self w' = (Ok s, w'') ->
      calls_since w' w'' = [GetBucketTagging (bucket_name self);
                            PutPublicAccessBlock (bucket_name self) all_blocked;
                            PutBucketVersioning (bucket_name self) "Enabled"].
Proof.
  intros He Ho.
  eexists. split.
  { unfold create_bucket, bind. rewrite He, Ho. cbn [negb].
    unfold ret, Bucket.info, say. reflexivity. }
  destruct (bucket_exist_world _ _ _ _ He) as [r0 E0].
  destruct (bucket_owned_world _ _ _ _ Ho) as [r1 E1].
  destruct (api_probe _ _ _ _ (ex_intro _ _ (or_introl eq_refl)) E0) as [B0 T0].
  destruct (api_probe _ _ _ _ (ex_intro _ _ (or_intror eq_refl)) E1) as [B1 T1].
  apply api_frame in E0 as (C0 & _). apply api_frame in E1 as (C1 & _).
  cbn [buckets tables calls print].
  split; [congruence|]. split; [congruence|].
  split; [rewrite C1, C0, <- app_assoc; reflexivity|].
  intros s w'' Ht. apply tighten_policy_calls in Ht.
  unfold calls_since. rewrite Ht. apply drop_app_length.
Qed.

Lemma create_bucket_noop_when_owned_witness :
  bucket_exist bucket_abc world_tagged =
    (Ok true, snd (bucket_exist bucket_abc world_tagged)) /\
  bucket_owned bucket_abc (snd (bucket_exist bucket_abc world_tagged)) =
    (Ok true,
     snd (bucket_owned bucket_abc (snd (bucket_exist bucket_abc world_tagged)))) /\
  exists w',
    create_bucket bucket_abc world_tagged = (Ok bucket_abc, w') /\
    buckets w' = buckets world_tagged /\ tables w' = tables world_tagged /\
    calls w' = calls world_tagged ++ [HeadBucket "abc"; GetBucketTagging "abc"] /\
    forall s w'',
      tighten_policy bucket_abc w' = (Ok s, w'') ->
      calls_since w' w'' = [GetBucketTagging "abc";
                            PutPublicAccessBlock "abc" all_blocked;
                            PutBucketVersioning "abc" "Enabled"].
Proof.
  split; [vm_compute; reflexivity|].
  split; [vm_compute; reflexivity|].
  apply (create_bucket_noop_when_owned bucket_abc world_tagged
           (snd (bucket_exist bucket_abc world_tagged))
           (snd (bucket_owned bucket_abc (snd (bucket_exist bucket_abc world_tagged)))));
    vm_compute; reflexivity.
Defined.


(** * Further properties *)

(** ** Runs that keep a relation *)

Section Preserved.

Variable P : world -> world -> Prop.
Hypothesis P_refl : forall w, P w w.
Hypothesis P_trans : forall w1 w2 w3, P w1 w2 -> P w2 w3 -> P w1 w3.

Lemma preserves_ret {A} (a : A) : preserves P (ret a).
Proof. intros w r w' [= <- <-]. apply P_refl. Qed.

Lemma preserves_raise {A} (e : exn) : preserves P (@raise A e).
Proof. intros w r w' [= <- <-]. apply P_refl. Qed.

Lemma preserves_lift {A} (x : result A) : preserves P (lift x).
Proof. intros w r w' [= <- <-]. apply P_refl. Qed.

Lemma preserves_bind {A B} (m : M A) (f : A -> M B) :
  preserves P m -> (forall a, preserves P (f a)) -> preserves P (bind m f).
Proof.
  intros Hm Hf w r w'. unfold bind.
  destruct (m w) as [[a|e] w1] eqn:E.
  - intros H. exact (P_trans _ _ _ (Hm _ _ _ E) (Hf a _ _ _ H)).
  - intros [= <- <-]. exact (Hm _ _ _ E).
Qed.

Lemma preserves_try_except {A B} (body : M A) (handler : exn -> M B)
    (rest : A -> M B) :
  preserves P body -> (forall e, preserves P (handler e)) ->
  (forall a, preserves P (rest a)) ->
  preserves P (try_except body handler rest).
Proof.
  intros Hb Hh Hr w r w'. unfold try_except.
  destruct (body w) as [[a|e] w1] eqn:E; intros H.
  - exact (P_trans _ _ _ (Hb _ _ _ E) (Hr a _ _ _ H)).
  - exact (P_trans _ _ _ (Hb _ _ _ E) (Hh e _ _ _ H)).
Qed.

Lemma preserves_get_region_name : preserves P get_region_name.
Proof. intros w r w' [= <- <-]. apply P_refl. Qed.

Lemma preserves_time_string : preserves P time_string.
Proof. intros w r w' [= <- <-]. apply P_refl. Qed.

End Preserved.

(** Steps through a program, leaving the calls and the prints. *)
Ltac preserved Hrefl Htrans :=
  repeat first
    [ apply (preserves_ret _ Hrefl)
    | apply (preserves_raise _ Hrefl)
    | apply (preserves_lift _ Hrefl)
    | apply (preserves_get_region_name _ Hrefl)
    | apply (preserves_time_string _ Hrefl)
    | apply (preserves_bind _ Htrans); [|intros ?]
    | apply (preserves_try_except _ Htrans); [|intros ?|intros ?]
    | match goal with
      | |- preserves _ (if ?c then _ else _) => destruct c
      | |- preserves _ (match ?c with _ => _ end) => destruct c
      end ].

(** ** [S3Bucket]: what a run touches *)

Lemma bucket_run_refl (name : string) (w : world) : bucket_run name w w.
Proof.
  repeat split; auto. exists []. rewrite app_nil_r. auto.
Qed.

Lemma bucket_run_trans (name : string) (w1 w2 w3 : world) :
  bucket_run name w1 w2 -> bucket_run name w2 w3 -> bucket_run name w1 w3.
Proof.
  intros (B1 & T1 & l1 & C1 & F1) (B2 & T2 & l2 & C2 & F2).
  split; [|split].
  - intros other Hne. rewrite (B2 other Hne). exact (B1 other Hne).
  - congruence.
  - exists (l1 ++ l2). rewrite C2, C1, <- app_assoc. split; [reflexivity|].
    rewrite forallb_app, F1, F2. reflexivity.
Qed.

Lemma bucket_run_print (name line : string) : preserves (bucket_run name) (say line).
Proof.
  intros w r w' [= <- <-]. change (bucket_run name w w). apply bucket_run_refl.
Qed.

Lemma bucket_run_api (name : string) (req : request) :
  about_bucket name req = true -> preserves (bucket_run name) (api req).
Proof.
  intros Ha w r w' H.
  pose proof (api_frame _ _ _ _ H) as (Hc & _).
  assert (Hs : (forall other, other <> name -> buckets w' !! other = buckets w !! other) /\
               tables w' = tables w).
  { unfold api in H. destruct (hd None (faults w)) as [[e|v]|].
    - injection H as <- <-. auto.
    - injection H as <- <-. auto.
    - destruct req; try discriminate Ha; simpl in Ha;
        apply String.eqb_eq in Ha; subst; simpl in H;
        repeat match type of H with
               | context [match ?x with _ => _ end] => destruct x
               end;
        injection H as <- <-; simpl; split; auto;
        intros other Hne; rewrite lookup_insert_ne by congruence; reflexivity. }
  destruct Hs as [Hb Ht]. split; [exact Hb|]. split; [exact Ht|].
  exists [req]. split; [exact Hc|]. simpl. rewrite Ha. reflexivity.
Qed.

Ltac bucket_steps name :=
  repeat first
    [ progress preserved (bucket_run_refl name) (bucket_run_trans name)
    | apply bucket_run_print
    | apply bucket_run_api; simpl; apply String.eqb_refl ].

Lemma bucket_exist_run (self : S3Bucket) :
  preserves (bucket_run (bucket_name self)) (bucket_exist self).
Proof. unfold bucket_exist. bucket_steps (bucket_name self). Qed.

Lemma bucket_owned_run (self : S3Bucket) :
  preserves (bucket_run (bucket_name self)) (bucket_owned self).
Proof. unfold bucket_owned. bucket_steps (bucket_name self). Qed.

Lemma create_bucket_run (self : S3Bucket) :
  preserves (bucket_run (bucket_name self)) (create_bucket self).
Proof.
  unfold create_bucket, Bucket.exit, Bucket.info.
  preserved (bucket_run_refl (bucket_name self)) (bucket_run_trans (bucket_name self));
    try apply bucket_exist_run; try apply bucket_owned_run;
    bucket_steps (bucket_name self).
Qed.

Lemma tighten_policy_run (self : S3Bucket) :
  preserves (bucket_run (bucket_name self)) (tighten_policy self).
Proof.
  unfold tighten_policy, Bucket.exit, Bucket.info.
  preserved (bucket_run_refl (bucket_name self)) (bucket_run_trans (bucket_name self));
    try apply bucket_owned_run;
    bucket_steps (bucket_name self).
Qed.

Ltac returned H :=
  repeat match type of H with
         | context [match ?x with _ => _ end] => destruct x
         | context [if ?x then _ else _] => destruct x
         end;
  unfold ret, raise, say, Bucket.exit, Bucket.info in H;
  try discriminate H; try (injection H as <- <-; reflexivity).

(** What [create_bucket] and [tighten_policy] return is the object they
    were called on. *)
Lemma create_bucket_self (self s : S3Bucket) (w w' : world) :
  create_bucket self w = (Ok s, w') -> s = self.
Proof.
  unfold create_bucket, try_except, bind, lift. intros H.
  destruct (bucket_exist self w) as [[[|]|e] w0].
  - destruct (bucket_owned self w0) as [[[|]|e] w1]; returned H.
  - destruct (api (CreateBucket "private" (bucket_name self) (Bucket.region_name self)) w0)
      as [[r1|e1] w1]; [|returned H].
    destruct (validate_aws r1 200) as [v1|e1]; [|returned H].
    destruct (api (PutBucketTagging (bucket_name self) [("managed_by", "terraform-init")]) w1)
      as [[r2|e2] w2]; [|returned H].
    destruct (validate_aws r2 204) as [v2|e2]; returned H.
  - discriminate H.
Qed.

Lemma tighten_policy_self (self s : S3Bucket) (w w' : world) :
  tighten_policy self w = (Ok s, w') -> s = self.
Proof.
  unfold tighten_policy, try_except, bind, lift. intros H.
  destruct (bucket_owned self w) as [[[|]|e] w0]; cbn [negb] in H; [|returned H|returned H].
  unfold ret at 1 in H.
  destruct (api (PutPublicAccessBlock (bucket_name self) (mkPAB true true true true)) w0)
    as [[r1|e1] w1]; [|returned H].
  destruct (validate_aws r1 200) as [v1|e1]; [|returned H].
  destruct (api (PutBucketVersioning (bucket_name self) "Enabled") w1)
    as [[r2|e2] w2]; [|returned H].
  destruct (validate_aws r2 200) as [v2|e2]; returned H.
Qed.

(** X1: whatever the service answers and however the run ends, the
    constructor of [S3Bucket] only makes calls about its own bucket, and
    leaves every other bucket and every table as it was. *)
Theorem S3Bucket_init_touches_own_bucket (name : string) (auto_create : bool)
    (w : world) (r : result S3Bucket) (w' : world) :
  S3Bucket_init (VStr name) auto_create w = (r, w') ->
  bucket_run name w w'.
Proof.
  unfold S3Bucket_init, bind, lift, get_region_name.
  destruct (validate_s3bucket_name (VStr name)) as [[[|] reason]|e];
    cbn [fst snd negb]; unfold ret, raise;
    [|intros [= <- <-]; apply bucket_run_refl|intros [= <- <-]; apply bucket_run_refl].
  destruct auto_create; [|intros [= <- <-]; apply bucket_run_refl].
  destruct (create_bucket (mkS3Bucket (region w) name) w) as [[c|e] w1] eqn:Ec.
  - pose proof (create_bucket_self _ _ _ _ Ec) as ->.
    pose proof (create_bucket_run _ _ _ _ Ec) as R1.
    destruct (tighten_policy (mkS3Bucket (region w) name) w1) as [[c2|e] w2] eqn:Et;
      intros [= <- <-];
      exact (bucket_run_trans _ _ _ _ R1 (tighten_policy_run _ _ _ _ Et)).
  - intros [= <- <-]. exact (create_bucket_run _ _ _ _ Ec).
Qed.

Lemma S3Bucket_init_touches_own_bucket_witness :
  bucket_run "terraform.x-1" world_foreign
    (snd (S3Bucket_init (VStr "terraform.x-1") true world_foreign)).
Proof.
  apply (S3Bucket_init_touches_own_bucket "terraform.x-1" true world_foreign
           (fst (S3Bucket_init (VStr "terraform.x-1") true world_foreign))).
  vm_compute. reflexivity.
Defined.

(** ** [S3Bucket]: the probes, when the service answers *)

Lemma tag_dicts_truthy (tags : list (string * string)) :
  tags <> [] -> py_truthy (VList (map tag_dict tags)) = true.
Proof. destruct tags; [congruence|reflexivity]. Qed.

Lemma bucket_exist_served (self : S3Bucket) (w : world) :
  hd None (faults w) = None ->
  bucket_exist self w =
  (Ok (exists_in w (bucket_name self)), after (HeadBucket (bucket_name self)) w).
Proof.
  intros Hf. unfold bucket_exist, try_except, bind, lift, api, exists_in, after.
  rewrite Hf. cbn -[lookup].
  destruct (buckets w !! bucket_name self) as [b|]; [|reflexivity].
  destruct (in_our_account b); reflexivity.
Qed.

Lemma bucket_owned_served (self : S3Bucket) (w : world) :
  hd None (faults w) = None ->
  bucket_owned self w =
  (Ok (owned_in w (bucket_name self)), after (GetBucketTagging (bucket_name self)) w).
Proof.
  intros Hf. unfold bucket_owned, try_except, bind, lift, api, owned_in.
  fold (after (GetBucketTagging (bucket_name self)) w).
  rewrite Hf. cbn -[lookup after].
  change (buckets (after (GetBucketTagging (bucket_name self)) w)) with (buckets w).
  destruct (buckets w !! bucket_name self) as [b|]; [|reflexivity].
  destruct (in_our_account b); [|reflexivity]. cbn [negb andb].
  destruct (tag_set b) as [|t ts] eqn:Ht; [reflexivity|].
  change (tag_dict t :: map tag_dict ts) with (map tag_dict (t :: ts)).
  change (py_get (response 200 [("TagSet", VList (map tag_dict (t :: ts)))]) "TagSet")
    with (@Ok pyval (VList (map tag_dict (t :: ts)))).
  cbv beta iota. rewrite tag_dicts_truthy by discriminate. cbn [negb py_iter].
  rewrite comprehension_tag_dicts. rewrite length_map.
  destruct (Nat.eqb (length (List.filter is_managed (t :: ts))) 1); reflexivity.
Qed.

Lemma owned_in_inv (w : world) (name : string) :
  owned_in w name = true ->
  exists b, buckets w !! name = Some b /\ in_our_account b = true /\
            length (List.filter is_managed (tag_set b)) = 1%nat.
Proof.
  unfold owned_in. destruct (buckets w !! name) as [b|]; [|discriminate].
  intros H. apply andb_true_iff in H as [Ho Hl]. apply Nat.eqb_eq in Hl. eauto.
Qed.

(** [tighten_policy] when every call is served. *)
Lemma tighten_policy_served (self : S3Bucket) (w : world) (b : bucket) :
  faults w = [] ->
  buckets w !! bucket_name self = Some b ->
  owned_in w (bucket_name self) = true ->
  exists w',
    tighten_policy self w = (Ok self, w') /\
    buckets w' = <[bucket_name self := secured_bucket (tag_set b)]> (buckets w) /\
    tables w' = tables w /\ faults w' = [] /\ region w' = region w.
Proof.
  intros Hf Hb Ho. unfold tighten_policy. unfold bind at 1.
  rewrite bucket_owned_served by (rewrite Hf; reflexivity). rewrite Ho.
  pose proof Ho as Ho'. unfold owned_in in Ho'. rewrite Hb in Ho'.
  apply andb_true_iff in Ho' as [Ha _].
  destruct w as [bk tb rg ck fl cl so]; simpl in Hf, Hb; subst fl.
  unfold after, try_except, bind, lift, api, Bucket.info, say, ret.
  cbn -[lookup insert]. rewrite Hb, Ha. cbn -[lookup insert].
  rewrite lookup_insert_eq. cbn -[lookup insert].
  eexists. split; [reflexivity|]. cbn -[lookup insert].
  rewrite insert_insert_eq. auto 10.
Qed.

Lemma tighten_policy_unowned (self : S3Bucket) (w : world) :
  hd None (faults w) = None ->
  owned_in w (bucket_name self) = false ->
  exists msg,
    tighten_policy self w =
    (Raise (Exn SystemExit msg), after (GetBucketTagging (bucket_name self)) w).
Proof.
  intros Hf Ho. unfold tighten_policy. unfold bind at 1.
  rewrite bucket_owned_served by exact Hf. rewrite Ho.
  eexists. reflexivity.
Qed.

(** [create_bucket] when every call is served: the three cases. *)
Lemma create_bucket_served_owned (self : S3Bucket) (w : world) :
  faults w = [] ->
  exists_in w (bucket_name self) = true ->
  owned_in w (bucket_name self) = true ->
  exists w',
    create_bucket self w = (Ok self, w') /\
    buckets w' = buckets w /\ tables w' = tables w /\ faults w' = [] /\ region w' = region w /\
    calls w' = calls w ++ [HeadBucket (bucket_name self);
                           GetBucketTagging (bucket_name self)].
Proof.
  intros Hf He Ho. unfold create_bucket. unfold bind at 1.
  rewrite bucket_exist_served by (rewrite Hf; reflexivity). rewrite He.
  unfold bind at 1.
  rewrite bucket_owned_served by (simpl; rewrite Hf; reflexivity).
  change (owned_in (after (HeadBucket (bucket_name self)) w) (bucket_name self))
    with (owned_in w (bucket_name self)).
  rewrite Ho. eexists. split; [reflexivity|].
  cbn. rewrite Hf, <- app_assoc. auto 10.
Qed.

Lemma create_bucket_served_absent (self : S3Bucket) (w : world) :
  faults w = [] ->
  buckets w !! bucket_name self = None ->
  exists w',
    create_bucket self w = (Ok self, w') /\
    buckets w' = <[bucket_name self := mkBucket true [managed_tag] None None]> (buckets w) /\
    tables w' = tables w /\ faults w' = [] /\ region w' = region w /\
    calls w' = calls w ++ [HeadBucket (bucket_name self);
                           CreateBucket "private" (bucket_name self) (Bucket.region_name self);
                           PutBucketTagging (bucket_name self) [managed_tag]].
Proof.
  intros Hf Hb. unfold create_bucket. unfold bind at 1.
  rewrite bucket_exist_served by (rewrite Hf; reflexivity).
  unfold exists_in. rewrite Hb.
  destruct w as [bk tb rg ck fl cl so]; simpl in Hf, Hb; subst fl.
  unfold after, try_except, bind, lift, api, Bucket.info, say, ret.
  cbn -[lookup insert]. rewrite Hb. cbn -[lookup insert].
  rewrite lookup_insert_eq. cbn -[lookup insert].
  eexists. split; [reflexivity|]. cbn -[lookup insert].
  rewrite insert_insert_eq, <- !app_assoc. auto 10.
Qed.

(** A bucket that is there and is not owned stops the run. *)
Lemma create_bucket_served_conflict (self : S3Bucket) (w : world) (b : bucket) :
  faults w = [] ->
  buckets w !! bucket_name self = Some b ->
  owned_in w (bucket_name self) = false ->
  exists msg w',
    create_bucket self w = (Raise (Exn SystemExit msg), w') /\
    buckets w' = buckets w /\ tables w' = tables w.
Proof.
  intros Hf Hb Ho. unfold create_bucket. unfold bind at 1.
  rewrite bucket_exist_served by (rewrite Hf; reflexivity).
  unfold exists_in. rewrite Hb.
  destruct (in_our_account b) eqn:Ha.
  - unfold bind at 1.
    rewrite bucket_owned_served by (simpl; rewrite Hf; reflexivity).
    change (owned_in (after (HeadBucket (bucket_name self)) w) (bucket_name self))
      with (owned_in w (bucket_name self)).
    rewrite Ho. eexists _, _. split; [reflexivity|]. auto.
  - destruct w as [bk tb rg ck fl cl so]; simpl in Hf, Hb; subst fl.
    unfold after, try_except, bind, lift, api, Bucket.exit, raise.
    cbn -[lookup insert]. rewrite Hb, Ha. cbn -[lookup insert].
    eexists _, _. split; [reflexivity|]. auto.
Qed.

Lemma validate_s3bucket_name_outcome (s : string) :
  validate_s3bucket_name (VStr s) = Ok (true, "Success") \/
  exists reason, validate_s3bucket_name (VStr s) = Ok (false, reason).
Proof.
  unfold validate_s3bucket_name; simpl.
  repeat match goal with
         | |- context [if ?c then _ else _] => destruct c
         end; eauto.
Qed.

Lemma validate_name_dynamotable_outcome (s : string) :
  validate_name_dynamotable (VStr s) = Ok (true, "Success") \/
  exists reason, validate_name_dynamotable (VStr s) = Ok (false, reason).
Proof.
  unfold validate_name_dynamotable; simpl.
  repeat match goal with
         | |- context [if ?c then _ else _] => destruct c
         end; eauto.
Qed.

Lemma secured_bucket_owned (w : world) (name : string) (tags : list (string * string)) :
  buckets w !! name = Some (secured_bucket tags) ->
  length (List.filter is_managed tags) = 1%nat ->
  owned_in w name = true /\ exists_in w name = true.
Proof.
  intros Hb Hl. unfold owned_in, exists_in. rewrite Hb. simpl.
  rewrite Hl. auto.
Qed.

(** The constructor when every call is served and the bucket is either
    missing or owned: it returns, and the bucket is secured. *)
Lemma S3Bucket_init_served (name : string) (w : world) :
  faults w = [] ->
  bucket_name_accepted name = true ->
  buckets w !! name = None \/ owned_in w name = true ->
  exists w',
    S3Bucket_init (VStr name) true w = (Ok (mkS3Bucket (region w) name), w') /\
    length (List.filter is_managed (tags_after w name)) = 1%nat /\
    buckets w' = <[name := secured_bucket (tags_after w name)]> (buckets w) /\
    tables w' = tables w /\ faults w' = [] /\ region w' = region w.
Proof.
  intros Hf Hv Hcase.
  apply validate_s3bucket_name_accepts in Hv.
  unfold S3Bucket_init, bind, lift, get_region_name. rewrite Hv.
  cbn [fst snd negb]. unfold ret at 1.
  set (self := mkS3Bucket (region w) name).
  destruct Hcase as [Hn|Ho].
  - destruct (create_bucket_served_absent self w Hf Hn)
      as (w1 & E1 & B1 & T1 & F1 & R1 & _).
    rewrite E1.
    assert (L1 : buckets w1 !! name = Some (mkBucket true [managed_tag] None None))
      by (rewrite B1; apply lookup_insert_eq).
    assert (O1 : owned_in w1 name = true) by (unfold owned_in; rewrite L1; reflexivity).
    destruct (tighten_policy_served self w1 _ F1 L1 O1)
      as (w2 & E2 & B2 & T2 & F2 & R2).
    rewrite E2. exists w2. unfold ret, tags_after. rewrite Hn.
    split; [reflexivity|]. split; [reflexivity|].
    split; [rewrite B2, B1; apply insert_insert_eq|].
    repeat split; congruence.
  - destruct (owned_in_inv _ _ Ho) as (b & Hb & Ha & Hl).
    assert (He : exists_in w name = true) by (unfold exists_in; rewrite Hb; exact Ha).
    destruct (create_bucket_served_owned self w Hf He Ho)
      as (w1 & E1 & B1 & T1 & F1 & R1 & _).
    rewrite E1.
    assert (L1 : buckets w1 !! name = Some b) by (rewrite B1; exact Hb).
    assert (O1 : owned_in w1 name = true) by (unfold owned_in; rewrite B1; exact Ho).
    destruct (tighten_policy_served self w1 _ F1 L1 O1)
      as (w2 & E2 & B2 & T2 & F2 & R2).
    rewrite E2. exists w2. unfold ret, tags_after. rewrite Hb.
    split; [reflexivity|]. split; [exact Hl|].
    split; [rewrite B2, B1; reflexivity|].
    repeat split; congruence.
Qed.

(** ** [S3Bucket]: a bucket that is not owned *)

Lemma bucket_owned_yes (self : S3Bucket) (w w' : world) :
  raises_only w = true ->
  bucket_owned self w = (Ok true, w') ->
  owned_in w (bucket_name self) = true.
Proof.
  intros Hr H. destruct (hd None (faults w)) as [[e|v]|] eqn:Hf.
  - unfold bucket_owned, try_except, bind, lift, api in H. rewrite Hf in H.
    returned H.
  - exfalso. exact (raises_only_hd w v Hr Hf).
  - rewrite bucket_owned_served in H by exact Hf. congruence.
Qed.

Lemma bucket_probe_raises_only (self : S3Bucket) (w : world) :
  raises_only w = true ->
  (forall r w', bucket_exist self w = (r, w') ->
                raises_only w' = true /\ buckets w' = buckets w) /\
  (forall r w', bucket_owned self w = (r, w') ->
                raises_only w' = true /\ buckets w' = buckets w).
Proof.
  intros Hr. split; intros r w' H.
  - destruct (bucket_exist_world _ _ _ _ H) as [r0 E]. split.
    + exact (api_raises_only _ _ _ _ Hr E).
    + exact (proj1 (api_probe _ _ _ _ (ex_intro _ _ (or_introl eq_refl)) E)).
  - destruct (bucket_owned_world _ _ _ _ H) as [r0 E]. split.
    + exact (api_raises_only _ _ _ _ Hr E).
    + exact (proj1 (api_probe _ _ _ _ (ex_intro _ _ (or_intror eq_refl)) E)).
Qed.

(** The create call on a bucket that is there does not return, and
    changes nothing. *)
Lemma create_call_on_existing (acl name : string) (loc : pyval) (w : world)
    (b : bucket) (r : result pyval) (w' : world) :
  raises_only w = true ->
  buckets w !! name = Some b ->
  api (CreateBucket acl name loc) w = (r, w') ->
  (exists e, r = Raise e) /\ buckets w' = buckets w /\ raises_only w' = true.
Proof.
  intros Hr Hb H. pose proof (api_raises_only _ _ _ _ Hr H) as Hr'.
  unfold api in H. destruct (hd None (faults w)) as [[e|v]|] eqn:Hf.
  - injection H as <- <-. eauto.
  - exfalso. exact (raises_only_hd w v Hr Hf).
  - simpl in H. rewrite Hb in H. destruct (in_our_account b);
      injection H as <- <-; eauto.
Qed.

Lemma create_bucket_keeps_existing (self : S3Bucket) (w : world) (b : bucket)
    (r : result S3Bucket) (w' : world) :
  raises_only w = true ->
  buckets w !! bucket_name self = Some b ->
  create_bucket self w = (r, w') ->
  buckets w' = buckets w /\ raises_only w' = true /\
  (owned_in w (bucket_name self) = false ->
   r = Ok self \/ exists e, r = Raise e).
Proof.
  intros Hr Hb. unfold create_bucket, bind.
  destruct (bucket_exist self w) as [[ex|e] w0] eqn:Ee.
  2:{ intros [= <- <-].
      destruct (proj1 (bucket_probe_raises_only self w Hr) _ _ Ee). eauto 6. }
  destruct (proj1 (bucket_probe_raises_only self w Hr) _ _ Ee) as [Hr0 Hb0].
  destruct ex.
  - destruct (bucket_owned self w0) as [[ow|e] w1] eqn:Eo.
    2:{ intros [= <- <-].
        destruct (proj2 (bucket_probe_raises_only self w0 Hr0) _ _ Eo) as [? Hb1].
        rewrite Hb1. eauto 6. }
    destruct (proj2 (bucket_probe_raises_only self w0 Hr0) _ _ Eo) as [Hr1 Hb1].
    destruct ow; cbn [negb]; unfold Bucket.exit, Bucket.info, say, ret, raise;
      intros [= <- <-]; cbn; rewrite Hb1; eauto 6.
  - unfold try_except, bind, lift.
    destruct (api (CreateBucket "private" (bucket_name self) (Bucket.region_name self)) w0)
      as [r1 w1] eqn:E1.
    assert (Hb' : buckets w0 !! bucket_name self = Some b) by (rewrite Hb0; exact Hb).
    destruct (create_call_on_existing _ _ _ _ _ _ _ Hr0 Hb' E1) as ([e1 ->] & Hb1 & Hr1).
    unfold Bucket.exit, ret, raise.
    repeat match goal with
           | |- context [if ?c then _ else _] => destruct c
           end; intros [= <- <-]; rewrite Hb1; eauto 6.
Qed.

Lemma tighten_policy_keeps_unowned (self : S3Bucket) (w : world)
    (r : result S3Bucket) (w' : world) :
  raises_only w = true ->
  owned_in w (bucket_name self) = false ->
  tighten_policy self w = (r, w') ->
  buckets w' = buckets w /\ exists e, r = Raise e.
Proof.
  intros Hr Ho. unfold tighten_policy, bind.
  destruct (bucket_owned self w) as [[ow|e] w0] eqn:Eo.
  2:{ intros [= <- <-].
      destruct (proj2 (bucket_probe_raises_only self w Hr) _ _ Eo). eauto. }
  destruct (proj2 (bucket_probe_raises_only self w Hr) _ _ Eo) as [Hr0 Hb0].
  destruct ow.
  - pose proof (bucket_owned_yes _ _ _ Hr Eo). congruence.
  - cbn [negb]. unfold Bucket.exit, raise. intros [= <- <-]. eauto.
Qed.

(** ** [S3Bucket]: the properties *)

(** X2: a name that breaks a rule of [validate_s3bucket_name] makes the
    constructor raise [ValueError] before any call: the world is as it
    was. *)
Theorem S3Bucket_init_rejects_name (s : string) (auto_create : bool) (w : world) :
  bucket_name_accepted s = false ->
  exists reason,
    S3Bucket_init (VStr s) auto_create w = (Raise (Exn ValueError reason), w).
Proof.
  intros Hv. unfold S3Bucket_init, bind, lift.
  destruct (validate_s3bucket_name_outcome s) as [E|[reason E]].
  - apply validate_s3bucket_name_accepts in E. congruence.
  - rewrite E. exists reason. reflexivity.
Qed.

Lemma S3Bucket_init_rejects_name_witness :
  bucket_name_accepted "My_Bucket" = false /\
  exists reason,
    S3Bucket_init (VStr "My_Bucket") true world_empty =
    (Raise (Exn ValueError reason), world_empty).
Proof.
  split; [reflexivity|].
  apply (S3Bucket_init_rejects_name "My_Bucket" true world_empty). reflexivity.
Defined.

(** X3: when the read of the tags is served, [bucket_owned] returns
    without raising, and says yes exactly when the bucket is in the
    account and exactly one of its tags is managed_by=terraform-init; the
    buckets are as before. *)
Theorem bucket_owned_exactly_one_tag (self : S3Bucket) (w : world) :
  hd None (faults w) = None ->
  exists w',
    bucket_owned self w = (Ok (owned_in w (bucket_name self)), w') /\
    buckets w' = buckets w.
Proof.
  intros Hf. eexists. split; [apply bucket_owned_served; exact Hf|reflexivity].
Qed.

Lemma bucket_owned_exactly_one_tag_witness :
  hd None (faults world_tagged) = None /\
  exists w',
    bucket_owned bucket_abc world_tagged = (Ok true, w') /\
    buckets w' = buckets world_tagged.
Proof.
  split; [reflexivity|].
  apply (bucket_owned_exactly_one_tag bucket_abc world_tagged). reflexivity.
Defined.

(** Two tags of the tool are one too many, and no tag is none. *)
Example bucket_owned_counts :
  let twice := mkBucket true [managed_tag; managed_tag] None None in
  let bare := mkBucket true [] None None in
  fst (bucket_owned bucket_abc (set_buckets {[ "abc" := twice ]} world_empty)) = Ok false /\
  fst (bucket_owned bucket_abc (set_buckets {[ "abc" := bare ]} world_empty)) = Ok false /\
  fst (bucket_owned bucket_abc world_empty) = Ok false.
Proof. repeat split; vm_compute; reflexivity. Qed.

(** X4: a bucket that is there and is not owned (somebody else's, or in
    the account without exactly one tag of the tool) is never changed by
    the constructor with auto_create=True, whichever calls fail by
    raising, and the constructor does not return; when every call is
    served and the name is valid it ends in [SystemExit]. *)
Theorem S3Bucket_init_keeps_unowned (name : string) (w : world) (b : bucket)
    (r : result S3Bucket) (w' : world) :
  raises_only w = true ->
  buckets w !! name = Some b ->
  owned_in w name = false ->
  S3Bucket_init (VStr name) true w = (r, w') ->
  buckets w' = buckets w /\
  exists e, r = Raise e /\
            (faults w = [] -> bucket_name_accepted name = true ->
             exn_cls e = SystemExit).
Proof.
  intros Hr Hb Ho. unfold S3Bucket_init, bind, lift, get_region_name.
  destruct (validate_s3bucket_name_outcome name) as [E|[reason E]]; rewrite E;
    cbn [fst snd negb]; unfold ret, raise.
  2:{ intros [= <- <-]. split; [reflexivity|]. eexists. split; [reflexivity|].
      intros _ Hv. apply validate_s3bucket_name_accepts in Hv. congruence. }
  set (self := mkS3Bucket (region w) name).
  destruct (create_bucket self w) as [r1 w1] eqn:E1.
  destruct (create_bucket_keeps_existing self w b r1 w1 Hr Hb E1) as (B1 & Hr1 & Hres).
  assert (O1 : owned_in w1 name = false) by (unfold owned_in; rewrite B1; exact Ho).
  destruct (Hres Ho) as [-> | [e1 ->]].
  - destruct (tighten_policy self w1) as [r2 w2] eqn:E2.
    destruct (tighten_policy_keeps_unowned self w1 r2 w2 Hr1 O1 E2) as [B2 [e2 ->]].
    intros [= <- <-]. split; [congruence|]. exists e2. split; [reflexivity|].
    intros Hf _.
    destruct (create_bucket_served_conflict self w b Hf Hb Ho) as (msg & w3 & E3 & _).
    congruence.
  - intros [= <- <-]. split; [exact B1|]. exists e1. split; [reflexivity|].
    intros Hf _.
    destruct (create_bucket_served_conflict self w b Hf Hb Ho) as (msg & w3 & E3 & _).
    rewrite E3 in E1. injection E1 as <- _. reflexivity.
Qed.

Lemma S3Bucket_init_keeps_unowned_witness :
  raises_only world_foreign = true /\
  buckets world_foreign !! "abc" = Some (mkBucket false [] None None) /\
  owned_in world_foreign "abc" = false /\
  buckets (snd (S3Bucket_init (VStr "abc") true world_foreign)) = buckets world_foreign /\
  exists e, fst (S3Bucket_init (VStr "abc") true world_foreign) = Raise e /\
            (faults world_foreign = [] -> bucket_name_accepted "abc" = true ->
             exn_cls e = SystemExit).
Proof.
  split; [reflexivity|]. split; [vm_compute; reflexivity|].
  split; [vm_compute; reflexivity|].
  apply (S3Bucket_init_keeps_unowned "abc" world_foreign (mkBucket false [] None None));
    vm_compute; reflexivity.
Defined.

(** X5: when every call is served and the bucket is missing or owned,
    the constructor with auto_create=True returns, and the bucket is then
    in the account with the tags it had (or the tag of the tool, when it
    was missing), all public access blocked and versioning enabled; a
    second run on top returns too and leaves the buckets as they are. *)
Theorem S3Bucket_init_converges (name : string) (w : world) :
  faults w = [] ->
  bucket_name_accepted name = true ->
  buckets w !! name = None \/ owned_in w name = true ->
  exists w1 w2,
    S3Bucket_init (VStr name) true w = (Ok (mkS3Bucket (region w) name), w1) /\
    buckets w1 = <[name := secured_bucket (tags_after w name)]> (buckets w) /\
    S3Bucket_init (VStr name) true w1 = (Ok (mkS3Bucket (region w) name), w2) /\
    buckets w2 = buckets w1.
Proof.
  intros Hf Hv Hcase.
  destruct (S3Bucket_init_served name w Hf Hv Hcase)
    as (w1 & E1 & L1 & B1 & T1 & F1 & R1).
  assert (Hb1 : buckets w1 !! name = Some (secured_bucket (tags_after w name)))
    by (rewrite B1; apply lookup_insert_eq).
  destruct (secured_bucket_owned w1 name _ Hb1 L1) as [O1 _].
  destruct (S3Bucket_init_served name w1 F1 Hv (or_intror O1))
    as (w2 & E2 & L2 & B2 & T2 & F2 & R2).
  exists w1, w2. rewrite R1 in E2.
  split; [exact E1|]. split; [exact B1|]. split; [exact E2|].
  rewrite B2. unfold tags_after. rewrite Hb1. cbn [tag_set secured_bucket].
  apply insert_id. exact Hb1.
Qed.

Lemma S3Bucket_init_converges_witness :
  faults world_empty = [] /\
  bucket_name_accepted "abc" = true /\
  (buckets world_empty !! "abc" = None \/ owned_in world_empty "abc" = true) /\
  exists w1 w2,
    S3Bucket_init (VStr "abc") true world_empty =
      (Ok (mkS3Bucket (region world_empty) "abc"), w1) /\
    buckets w1 =
      <["abc" := secured_bucket (tags_after world_empty "abc")]> (buckets world_empty) /\
    S3Bucket_init (VStr "abc") true w1 =
      (Ok (mkS3Bucket (region world_empty) "abc"), w2) /\
    buckets w2 = buckets w1.
Proof.
  split; [reflexivity|]. split; [reflexivity|].
  split; [left; reflexivity|].
  apply (S3Bucket_init_converges "abc" world_empty);
    [reflexivity | reflexivity | left; reflexivity].
Defined.

(** ** [DynamoTable]: what a run touches *)

Lemma table_run_refl (name : string) (w : world) : table_run name w w.
Proof.
  repeat split; auto. exists []. rewrite app_nil_r. auto.
Qed.

Lemma table_run_trans (name : string) (w1 w2 w3 : world) :
  table_run name w1 w2 -> table_run name w2 w3 -> table_run name w1 w3.
Proof.
  intros (B1 & T1 & l1 & C1 & F1) (B2 & T2 & l2 & C2 & F2).
  split; [congruence|]. split.
  - intros other H1 H2. rewrite (T2 other H1 H2). exact (T1 other H1 H2).
  - exists (l1 ++ l2). rewrite C2, C1, <- app_assoc. split; [reflexivity|].
    rewrite forallb_app, F1, F2. reflexivity.
Qed.

Lemma table_run_print (name line : string) : preserves (table_run name) (say line).
Proof.
  intros w r w' [= <- <-]. change (table_run name w w). apply table_run_refl.
Qed.

Lemma table_run_api (name : string) (req : request) :
  about_tables name req = true -> preserves (table_run name) (api req).
Proof.
  intros Ha w r w' H.
  pose proof (api_frame _ _ _ _ H) as (Hc & _).
  assert (Hs : buckets w' = buckets w /\
               (forall other, other <> name +:+ ".lock" -> other <> name +:+ ".s3" ->
                              tables w' !! other = tables w !! other)).
  { unfold api in H. destruct (hd None (faults w)) as [[e|v]|].
    - injection H as <- <-. auto.
    - injection H as <- <-. auto.
    - unfold about_tables in Ha.
      destruct req; try discriminate Ha; cbn [table_of] in Ha;
        apply orb_true_iff in Ha;
        simpl in H;
        repeat match type of H with
               | context [match ?x with _ => _ end] => destruct x
               end;
        injection H as <- <-; simpl; split; auto;
        intros other H1 H2; rewrite lookup_insert_ne; auto;
        destruct Ha as [Ha|Ha]; apply String.eqb_eq in Ha; congruence. }
  destruct Hs as [Hb Ht]. split; [exact Hb|]. split; [exact Ht|].
  exists [req]. split; [exact Hc|]. simpl. rewrite Ha. reflexivity.
Qed.

Ltac table_steps name :=
  repeat first
    [ progress preserved (table_run_refl name) (table_run_trans name)
    | apply table_run_print
    | apply table_run_api; unfold about_tables; cbn [table_of];
      rewrite String.eqb_refl, ?orb_true_r; reflexivity ].

Lemma tables_exist_run (self : DynamoTable) :
  preserves (table_run (Table.table_name self)) (tables_exist self).
Proof. unfold tables_exist. table_steps (Table.table_name self). Qed.

Lemma create_tables_run (self : DynamoTable) (check_exist : bool) :
  preserves (table_run (Table.table_name self)) (create_tables self check_exist).
Proof.
  unfold create_tables, Table.exit, Table.info.
  preserved (table_run_refl (Table.table_name self)) (table_run_trans (Table.table_name self));
    try apply tables_exist_run; table_steps (Table.table_name self).
Qed.

Lemma lookup_s3_run (self : DynamoTable) (uri : string) (auto_create : bool) :
  preserves (table_run (Table.table_name self)) (lookup_s3 self uri auto_create).
Proof.
  unfold lookup_s3, Table.exit.
  table_steps (Table.table_name self).
Qed.

(** ** [DynamoTable]: the rows that a run keeps *)

Lemma rows_kept_refl (skip : string -> string -> bool) (w : world) :
  rows_kept skip w w.
Proof. intros n t H. exists t. auto. Qed.

Lemma rows_kept_trans (skip : string -> string -> bool) (w1 w2 w3 : world) :
  rows_kept skip w1 w2 -> rows_kept skip w2 w3 -> rows_kept skip w1 w3.
Proof.
  intros H1 H2 n t Ht.
  destruct (H1 n t Ht) as (t2 & L2 & K2 & I2).
  destruct (H2 n t2 L2) as (t3 & L3 & K3 & I3).
  exists t3. split; [exact L3|]. split; [congruence|].
  intros k Hk. rewrite (I3 k Hk). exact (I2 k Hk).
Qed.

Lemma rows_kept_same_tables (skip : string -> string -> bool) (w w' : world) :
  tables w' = tables w -> rows_kept skip w w'.
Proof. intros E n t H. exists t. rewrite E. auto. Qed.

Lemma rows_kept_print (skip : string -> string -> bool) (line : string) :
  preserves (rows_kept skip) (say line).
Proof.
  intros w r w' [= <- <-]. apply rows_kept_same_tables. reflexivity.
Qed.

(** Describing, creating, waiting and reading keep every row. *)
Lemma rows_kept_api (skip : string -> string -> bool) (req : request) :
  (forall t item, req <> PutItem t item) ->
  preserves (rows_kept skip) (api req).
Proof.
  intros Hreq w r w' H. unfold api in H.
  destruct (hd None (faults w)) as [[e|v]|].
  - injection H as <- <-. apply rows_kept_same_tables. reflexivity.
  - injection H as <- <-. apply rows_kept_same_tables. reflexivity.
  - destruct req; simpl in H;
      try (repeat match type of H with
                  | context [match ?x with _ => _ end] => destruct x
                  end;
           injection H as <- <-; apply rows_kept_same_tables; reflexivity).
    + destruct (tables w !! TableName) as [t0|] eqn:L; injection H as <- <-.
      * apply rows_kept_same_tables. reflexivity.
      * intros n t Ht. simpl in Ht. simpl.
        destruct (decide (TableName = n)) as [->|Hne]; [congruence|].
        rewrite lookup_insert_ne by exact Hne. exists t. auto.
    + destruct (tables w !! TableName) as [t0|] eqn:L; injection H as <- <-.
      * intros n t Ht. simpl in Ht. simpl.
        destruct (decide (TableName = n)) as [->|Hne].
        -- rewrite lookup_insert_eq. eexists. split; [reflexivity|].
           assert (t = t0) by congruence. subst. auto.
        -- rewrite lookup_insert_ne by exact Hne. exists t. auto.
      * apply rows_kept_same_tables. reflexivity.
    + exfalso. exact (Hreq _ _ eq_refl).
Qed.

Ltac rows_steps skip :=
  repeat first
    [ progress preserved (rows_kept_refl skip) (rows_kept_trans skip)
    | apply rows_kept_print
    | apply rows_kept_api; intros ? ?; discriminate ].

Lemma tables_exist_rows (skip : string -> string -> bool) (self : DynamoTable) :
  preserves (rows_kept skip) (tables_exist self).
Proof. unfold tables_exist. rows_steps skip. Qed.

Lemma create_tables_rows (self : DynamoTable) (check_exist : bool) :
  preserves (rows_kept no_row) (create_tables self check_exist).
Proof.
  unfold create_tables, Table.exit, Table.info.
  preserved (rows_kept_refl no_row) (rows_kept_trans no_row);
    try apply tables_exist_rows; rows_steps no_row.
Qed.

(** ** [lookup_s3]: when the calls are served *)

Lemma registered_inv (w : world) (name uri s : string) :
  registered w name uri = Some s ->
  exists t item, tables w !! (name +:+ ".s3") = Some t /\
                 items t !! uri = Some item /\
                 dict_lookup item "BucketName" = Some (VStr s).
Proof.
  unfold registered.
  destruct (tables w !! (name +:+ ".s3")) as [t|]; [|discriminate].
  destruct (items t !! uri) as [item|] eqn:Hi; [|discriminate].
  destruct (dict_lookup item "BucketName") as [[| | |s'| |]|] eqn:Hb;
    try discriminate.
  intros [= <-]. exists t, item. auto.
Qed.

(** A row with a bucket name is returned. *)
Lemma lookup_s3_registered (self : DynamoTable) (uri s : string)
    (auto_create : bool) (w : world) :
  hd None (faults w) = None ->
  registry_ready w (Table.table_name self) ->
  registered w (Table.table_name self) uri = Some s ->
  lookup_s3 self uri auto_create w =
  (Ok (Some s), after (GetItem (Table.table_name self +:+ ".s3") "GitURI" uri) w).
Proof.
  intros Hf (t & Ht & Hk) Hr.
  destruct (registered_inv _ _ _ _ Hr) as (t' & item & Ht' & Hi & Hb).
  assert (t' = t) by congruence. subst t'.
  unfold lookup_s3, try_except, bind, api, lift, after. rewrite Hf.
  cbn [serve set_faults log_call buckets tables faults calls region clock stdout].
  rewrite Ht, Hk. cbn [String.eqb Ascii.eqb Bool.eqb negb]. rewrite Hi.
  cbn. rewrite Hb. reflexivity.
Qed.

Ltac lookup_unregistered Ht Hk Hr :=
  unfold lookup_s3, try_except, bind, api, lift, after, time_string, ret, raise;
  cbn -[validate_s3bucket_name lookup insert String.append str_of_Z];
  rewrite Ht, Hk;
  cbn -[validate_s3bucket_name lookup insert String.append str_of_Z];
  match goal with
  | |- context [items ?t !! ?uri] => destruct (items t !! uri) as [item|]
  end;
  cbn -[validate_s3bucket_name lookup insert String.append str_of_Z];
  try match goal with
      | |- context [dict_lookup ?item "BucketName"] =>
          destruct (dict_lookup item "BucketName") as [[| | |s'| |]|];
          try discriminate Hr
      end;
  cbn -[validate_s3bucket_name lookup insert String.append str_of_Z].

(** Without such a row and without auto_create, the answer is [None]. *)
Lemma lookup_s3_unregistered (self : DynamoTable) (uri : string) (w : world) :
  hd None (faults w) = None ->
  registry_ready w (Table.table_name self) ->
  registered w (Table.table_name self) uri = None ->
  lookup_s3 self uri false w =
  (Ok None, after (GetItem (Table.table_name self +:+ ".s3") "GitURI" uri) w).
Proof.
  intros Hf (t & Ht & Hk) Hr.
  unfold registered in Hr. rewrite Ht in Hr.
  destruct w as [bk tb rg ck fl cl so]; simpl in Hf, Ht.
  destruct fl as [|[f|] fl]; try discriminate Hf;
    lookup_unregistered Ht Hk Hr; reflexivity.
Qed.

(** With auto_create and a generated name that is not a bucket name:
    [ValueError], and no write. *)
Lemma lookup_s3_refuses (self : DynamoTable) (uri : string) (w : world) :
  hd None (faults w) = None ->
  registry_ready w (Table.table_name self) ->
  registered w (Table.table_name self) uri = None ->
  bucket_name_accepted (generated_name w (Table.table_name self)) = false ->
  exists reason,
    lookup_s3 self uri true w =
    (Raise (Exn ValueError reason),
     after (GetItem (Table.table_name self +:+ ".s3") "GitURI" uri) w).
Proof.
  intros Hf (t & Ht & Hk) Hr Hv.
  unfold registered in Hr. rewrite Ht in Hr.
  destruct (validate_s3bucket_name_outcome (generated_name w (Table.table_name self)))
    as [E|[reason E]].
  { apply validate_s3bucket_name_accepts in E. congruence. }
  exists reason. unfold generated_name in E.
  destruct w as [bk tb rg ck fl cl so]; simpl in Hf, Ht, E.
  destruct fl as [|[f|] fl]; try discriminate Hf;
    lookup_unregistered Ht Hk Hr; rewrite E; reflexivity.
Qed.

(** With auto_create and a generated name that is a bucket name: the row
    is written and the name returned. *)
Lemma lookup_s3_allocates (self : DynamoTable) (uri : string) (w : world) :
  faults w = [] ->
  registry_ready w (Table.table_name self) ->
  registered w (Table.table_name self) uri = None ->
  bucket_name_accepted (generated_name w (Table.table_name self)) = true ->
  exists w',
    lookup_s3 self uri true w =
      (Ok (Some (generated_name w (Table.table_name self))), w') /\
    registered w' (Table.table_name self) uri =
      Some (generated_name w (Table.table_name self)) /\
    registry_ready w' (Table.table_name self) /\
    faults w' = [] /\ buckets w' = buckets w /\ region w' = region w /\
    clock w' = clock w /\
    calls w' = calls w ++
      [GetItem (Table.table_name self +:+ ".s3") "GitURI" uri;
       PutItem (Table.table_name self +:+ ".s3")
         [("GitURI", VStr uri);
          ("BucketName", VStr (generated_name w (Table.table_name self)))]].
Proof.
  intros Hf (t & Ht & Hk) Hr Hv.
  unfold registered in Hr. rewrite Ht in Hr.
  apply validate_s3bucket_name_accepts in Hv. unfold generated_name in *.
  unfold registered, registry_ready.
  destruct w as [bk tb rg ck fl cl so]; simpl in Hf, Ht, Hv; subst fl.
  eexists. split.
  - lookup_unregistered Ht Hk Hr; rewrite Hv;
      cbn -[validate_s3bucket_name lookup insert String.append str_of_Z];
      rewrite Ht, Hk;
      cbn -[validate_s3bucket_name lookup insert String.append str_of_Z];
      reflexivity.
  - cbn -[lookup insert String.append str_of_Z].
    rewrite lookup_insert_eq. cbn -[lookup insert String.append str_of_Z].
    rewrite lookup_insert_eq. cbn -[lookup insert String.append str_of_Z].
    split; [reflexivity|]. split; [eexists; split; reflexivity|].
    rewrite <- app_assoc. auto 10.
Qed.

(** ** The name that [lookup_s3] generates *)

Lemma chars_append (a b : string) : chars (a +:+ b) = chars a ++ chars b.
Proof.
  unfold chars. induction a as [|c a IH]; simpl; [reflexivity|].
  rewrite IH. reflexivity.
Qed.

Lemma length_chars (s : string) : length (chars s) = String.length s.
Proof.
  unfold chars. induction s as [|c s IH]; simpl; [reflexivity|].
  rewrite IH. reflexivity.
Qed.

Section Classes.

Variable cls : list (ascii * ascii).

Lemma class_to_end_outside (l1 l2 : list ascii) :
  existsb (fun c => negb (in_class cls c)) l1 = true ->
  l2 <> [] ->
  class_to_end cls (l1 ++ l2) = false.
Proof.
  intros H Hl2. induction l1 as [|x l1 IH]; [discriminate H|].
  cbn [existsb] in H. cbn [app class_to_end].
  assert (Hne : l1 ++ l2 <> []) by (destruct l1; [exact Hl2|discriminate]).
  destruct (l1 ++ l2) as [|y l] eqn:E; [congruence|].
  rewrite orb_false_r.
  destruct (in_class cls x); cbn [negb orb andb] in *; [|reflexivity].
  apply IH. exact H.
Qed.

Lemma class_to_end_all (l : list ascii) :
  forallb (in_class cls) l = true -> class_to_end cls l = true.
Proof.
  induction l as [|x l IH]; [reflexivity|].
  cbn [forallb class_to_end]. intros H. apply andb_true_iff in H as [-> H].
  rewrite (IH H). reflexivity.
Qed.

Lemma has_double_after_last (l rest : list ascii) (c d : ascii) :
  List.last (map Some l) None = Some c ->
  in_class cls c = true -> in_class cls d = true ->
  has_double cls (l ++ d :: rest) = true.
Proof.
  intros Hl Hc Hd. induction l as [|x l IH]; [discriminate Hl|].
  destruct l as [|y l'].
  - cbn in Hl. injection Hl as ->. cbn. rewrite Hc, Hd. reflexivity.
  - change (List.last (map Some (x :: y :: l')) None)
      with (List.last (map Some (y :: l')) None) in Hl.
    change ((x :: y :: l') ++ d :: rest) with (x :: y :: (l' ++ d :: rest)).
    change (has_double cls (x :: y :: (l' ++ d :: rest)))
      with ((in_class cls x && in_class cls y) || has_double cls ((y :: l') ++ d :: rest)).
    rewrite (IH Hl). apply orb_true_r.
Qed.

(** No double in [l], a last character outside the class: no double in
    [l ++ d :: rest] when there is none in [d :: rest]. *)
Lemma has_double_append (l rest : list ascii) (d : ascii) :
  has_double cls l = false ->
  match List.last (map Some l) None with
  | Some c => in_class cls c = false
  | None => True
  end ->
  has_double cls (d :: rest) = false ->
  has_double cls (l ++ d :: rest) = false.
Proof.
  intros Hl Hlast Hr. induction l as [|x l IH]; [exact Hr|].
  destruct l as [|y l'].
  - cbn in Hlast. cbn [app].
    change (has_double cls (x :: d :: rest))
      with ((in_class cls x && in_class cls d) || has_double cls (d :: rest)).
    rewrite Hlast, Hr. reflexivity.
  - change (has_double cls (x :: y :: l'))
      with ((in_class cls x && in_class cls y) || has_double cls (y :: l')) in Hl.
    apply orb_false_iff in Hl as [Hxy Hl].
    change ((x :: y :: l') ++ d :: rest) with (x :: y :: (l' ++ d :: rest)).
    change (has_double cls (x :: y :: (l' ++ d :: rest)))
      with ((in_class cls x && in_class cls y) || has_double cls ((y :: l') ++ d :: rest)).
    rewrite Hxy. cbn [orb]. apply IH; assumption.
Qed.

Lemma has_double_none (l : list ascii) :
  forallb (fun c => negb (in_class cls c)) l = true -> has_double cls l = false.
Proof.
  induction l as [|x l IH]; [reflexivity|].
  cbn [forallb]. intros H. apply andb_true_iff in H as [Hx H].
  destruct l as [|y l']; [reflexivity|].
  change (has_double cls (x :: y :: l'))
    with ((in_class cls x && in_class cls y) || has_double cls (y :: l')).
  rewrite (IH H). destruct (in_class cls x); [discriminate Hx|reflexivity].
Qed.

End Classes.

Lemma has_double_mono (small big : list (ascii * ascii)) (l : list ascii) :
  (forall c, in_class small c = true -> in_class big c = true) ->
  has_double big l = false -> has_double small l = false.
Proof.
  intros Hsub. induction l as [|x l IH]; [reflexivity|].
  destruct l as [|y l']; [reflexivity|].
  change (has_double big (x :: y :: l'))
    with ((in_class big x && in_class big y) || has_double big (y :: l')).
  change (has_double small (x :: y :: l'))
    with ((in_class small x && in_class small y) || has_double small (y :: l')).
  intros H. apply orb_false_iff in H as [Hxy H]. rewrite (IH H), orb_false_r.
  destruct (in_class small x) eqn:Ex; [|reflexivity].
  destruct (in_class small y) eqn:Ey; [|reflexivity].
  rewrite (Hsub x Ex), (Hsub y Ey) in Hxy. discriminate Hxy.
Qed.

(** The classes of the two validators, character by character. *)
Lemma bucket_char_facts (c : ascii) :
  in_class bucket_chars c = true ->
  in_class upper c = false /\
  (in_class alnum c = true -> in_class lower_digit c = true).
Proof.
  destruct c as [[] [] [] [] [] [] [] []]; vm_compute; intros H;
    split; congruence.
Qed.

Lemma dash_dot_underscore_covers (c : ascii) :
  in_class dash_dot c = true -> in_class dash_dot_underscore c = true.
Proof.
  destruct c as [[] [] [] [] [] [] [] []]; vm_compute; congruence.
Qed.

Lemma digit_char_facts (c : ascii) :
  in_class digits c = true ->
  in_class bucket_chars c = true /\ in_class dash_dot c = false.
Proof.
  destruct c as [[] [] [] [] [] [] [] []]; vm_compute; intros H;
    split; congruence.
Qed.

Lemma string_of_uint_digits (d : Decimal.uint) :
  forallb (in_class digits) (chars (NilEmpty.string_of_uint d)) = true.
Proof. induction d; simpl; try reflexivity; exact IHd. Qed.

(** [str(n)] of a number that is not negative: decimal digits, at least
    one. *)
Lemma str_of_Z_digits (z : Z) :
  0 <= z ->
  forallb (in_class digits) (chars (str_of_Z z)) = true /\
  chars (str_of_Z z) <> [].
Proof.
  intros Hz. unfold str_of_Z.
  destruct z as [|p|p]; [split; [reflexivity|discriminate]| |lia].
  cbn [Z.to_int NilZero.string_of_int].
  unfold NilZero.string_of_uint.
  destruct (Pos.to_uint p) as [|d|d|d|d|d|d|d|d|d|d] eqn:E;
    (split; [first [reflexivity | apply (string_of_uint_digits (Decimal.D0 d))
                   | apply (string_of_uint_digits (Decimal.D1 d))
                   | apply (string_of_uint_digits (Decimal.D2 d))
                   | apply (string_of_uint_digits (Decimal.D3 d))
                   | apply (string_of_uint_digits (Decimal.D4 d))
                   | apply (string_of_uint_digits (Decimal.D5 d))
                   | apply (string_of_uint_digits (Decimal.D6 d))
                   | apply (string_of_uint_digits (Decimal.D7 d))
                   | apply (string_of_uint_digits (Decimal.D8 d))
                   | apply (string_of_uint_digits (Decimal.D9 d))]
            | discriminate]).
Qed.

Lemma existsb_negb_forallb {A} (p : A -> bool) (l : list A) :
  existsb (fun x => negb (p x)) l = negb (forallb p l).
Proof.
  induction l as [|x l IH]; [reflexivity|].
  cbn [existsb forallb]. rewrite IH. destruct (p x); reflexivity.
Qed.

Lemma no_upper_in_bucket_chars (l : list ascii) :
  forallb (in_class bucket_chars) l = true ->
  existsb (in_class upper) l = false.
Proof.
  induction l as [|x l IH]; [reflexivity|].
  cbn [forallb existsb]. intros H. apply andb_true_iff in H as [Hx H].
  rewrite (proj1 (bucket_char_facts x Hx)), (IH H). reflexivity.
Qed.

Lemma forallb_weaken {A} (p q : A -> bool) (l : list A) :
  (forall x, p x = true -> q x = true) ->
  forallb p l = true -> forallb q l = true.
Proof.
  intros Hpq. induction l as [|x l IH]; [reflexivity|].
  cbn [forallb]. intros H. apply andb_true_iff in H as [Hx H].
  rewrite (Hpq x Hx), (IH H). reflexivity.
Qed.

Lemma chars_generated (name stamp : string) :
  chars (name +:+ "-" +:+ stamp) = chars name ++ "-"%char :: chars stamp.
Proof. rewrite chars_append. reflexivity. Qed.

(** A stem that is unfit never gives a bucket name, whatever the stamp. *)
Lemma unfit_stem_refused (name stamp : string) :
  unfit_stem name = true ->
  bucket_name_accepted (name +:+ "-" +:+ stamp) = false.
Proof.
  unfold unfit_stem, bucket_name_accepted, last_char. intros H.
  rewrite chars_generated.
  apply orb_true_iff in H as [H|H].
  - rewrite (class_to_end_outside bucket_chars _ _ H) by discriminate.
    apply andb_false_r.
  - destruct (List.last (map Some (chars name)) None) as [c|] eqn:El;
      [|discriminate H].
    rewrite (has_double_after_last dash_dot _ _ c "-"%char El H eq_refl).
    cbn [negb]. rewrite andb_false_r. reflexivity.
Qed.

(** A stem that is a table name and is fit gives a bucket name, as long
    as the whole is not longer than 63 and the stamp is not negative. *)
Lemma fit_stem_accepted (name : string) (z : Z) :
  table_name_accepted name = true ->
  unfit_stem name = false ->
  0 <= z ->
  (String.length (name +:+ "-" +:+ str_of_Z z) <= 63)%nat ->
  bucket_name_accepted (name +:+ "-" +:+ str_of_Z z) = true.
Proof.
  unfold table_name_accepted, unfit_stem, last_char, starts_with.
  intros Ht Hu Hz Hlen.
  destruct (str_of_Z_digits z Hz) as [Hd Hne].
  apply orb_false_iff in Hu as [Hall Hlast].
  rewrite existsb_negb_forallb in Hall. apply negb_false_iff in Hall.
  repeat (apply andb_true_iff in Ht as [Ht ?]).
  apply Nat.leb_le in Ht.
  assert (Hbd : forallb (in_class bucket_chars) (chars (str_of_Z z)) = true).
  { apply (forallb_weaken (in_class digits)); [|exact Hd].
    intros c Hc. exact (proj1 (digit_char_facts c Hc)). }
  assert (Hfull : forallb (in_class bucket_chars)
                    (chars name ++ "-"%char :: chars (str_of_Z z)) = true).
  { rewrite forallb_app, Hall. cbn [forallb andb]. rewrite Hbd. reflexivity. }
  unfold bucket_name_accepted, starts_with. rewrite chars_generated.
  rewrite (no_upper_in_bucket_chars _ Hfull).
  rewrite (class_to_end_all _ _ Hfull).
  assert (Hl3 : (3 <=? String.length (name +:+ "-" +:+ str_of_Z z))%nat = true).
  { apply Nat.leb_le. rewrite <- length_chars, chars_generated, length_app.
    rewrite length_chars. lia. }
  rewrite Hl3. apply Nat.leb_le in Hlen. rewrite Hlen. cbn [andb negb].
  rewrite andb_true_r.
  apply andb_true_iff. split.
  - destruct (chars name) as [|x l] eqn:Ec; [discriminate|].
    cbn [app]. cbn [forallb] in Hall. apply andb_true_iff in Hall as [Hx _].
    apply (proj2 (bucket_char_facts x Hx)). assumption.
  - apply negb_true_iff. apply has_double_append.
    + apply (has_double_mono dash_dot dash_dot_underscore);
        [exact dash_dot_underscore_covers|].
      apply negb_true_iff. assumption.
    + destruct (List.last (map Some (chars name)) None); [exact Hlast|exact I].
    + destruct (chars (str_of_Z z)) as [|d ds] eqn:Es; [congruence|].
      change (has_double dash_dot ("-"%char :: d :: ds))
        with ((in_class dash_dot "-"%char && in_class dash_dot d)
              || has_double dash_dot (d :: ds)).
      cbn [forallb] in Hd. pose proof Hd as Hd'.
      apply andb_true_iff in Hd' as [Hd0 _].
      rewrite (proj2 (digit_char_facts d Hd0)), andb_false_r. cbn [orb].
      apply has_double_none.
      apply (forallb_weaken (in_class digits)); [|exact Hd].
      intros c Hc. rewrite (proj2 (digit_char_facts c Hc)). reflexivity.
Qed.

(** ** [DynamoTable]: creating the tables *)

Lemma tables_exist_served (self : DynamoTable) (w : world) :
  faults w = [] ->
  exists w',
    tables_exist self w = (Ok (tables_in w (Table.table_name self)), w') /\
    tables w' = tables w /\ buckets w' = buckets w /\ faults w' = [].
Proof.
  intros Hf. unfold tables_exist, tables_in, try_except, bind, lift, ret, raise.
  destruct w as [bk tb rg ck fl cl so]; simpl in Hf; subst fl.
  set (lock := Table.table_name self +:+ ".lock").
  set (s3 := Table.table_name self +:+ ".s3").
  destruct (tb !! lock) as [tl|] eqn:L; destruct (tb !! s3) as [ts|] eqn:S;
    (eexists; split; [crunch_tables L S; reflexivity|]); cbn; auto.
Qed.

(** When every call is served, [create_tables] returns, whatever was
    there; a registry table that was missing is created empty, with the
    key GitURI. *)
Lemma create_tables_served (self : DynamoTable) (check_exist : bool) (w : world) :
  faults w = [] ->
  exists w',
    create_tables self check_exist w = (Ok self, w') /\
    faults w' = [] /\ region w' = region w /\ clock w' = clock w /\
    tables_in w' (Table.table_name self) = true /\
    (tables w !! (Table.table_name self +:+ ".s3") = None ->
     tables w' !! (Table.table_name self +:+ ".s3") = Some (mkTable "GitURI" true ∅)).
Proof.
  intros Hf.
  pose proof (suffix_lock_s3 (Table.table_name self)) as Hne.
  unfold create_tables, tables_exist, tables_in, try_except, bind, lift, ret,
    Table.info, say.
  set (lock := Table.table_name self +:+ ".lock") in *.
  set (s3 := Table.table_name self +:+ ".s3") in *.
  destruct w as [bk tb rg ck fl cl so]; simpl in Hf; subst fl.
  destruct check_exist;
    destruct (tb !! lock) as [tl|] eqn:L; destruct (tb !! s3) as [ts|] eqn:S;
    (eexists; split; [crunch_tables L S; reflexivity|]);
    cbn -[lookup insert];
    repeat first [ rewrite L | rewrite S | rewrite lookup_insert_eq
                 | rewrite lookup_insert_ne by congruence ];
    cbn -[lookup insert];
    repeat split; auto; try discriminate.
Qed.

(** ** [lookup_s3]: the rows of the other repositories *)

Lemma registry_run_refl (name uri : string) (w : world) : registry_run name uri w w.
Proof. intros Hk. split; [apply rows_kept_refl|exact Hk]. Qed.

Lemma registry_run_trans (name uri : string) (w1 w2 w3 : world) :
  registry_run name uri w1 w2 -> registry_run name uri w2 w3 ->
  registry_run name uri w1 w3.
Proof.
  intros H1 H2 Hk. destruct (H1 Hk) as [R1 K2]. destruct (H2 K2) as [R2 K3].
  split; [exact (rows_kept_trans _ _ _ _ R1 R2)|exact K3].
Qed.

Lemma registry_run_same_tables (name uri : string) (w w' : world) :
  tables w' = tables w -> registry_run name uri w w'.
Proof.
  intros E Hk. split; [apply rows_kept_same_tables; exact E|].
  unfold registry_keyed. rewrite E. exact Hk.
Qed.

Lemma registry_run_get (name uri : string) :
  preserves (registry_run name uri) (api (GetItem (name +:+ ".s3") "GitURI" uri)).
Proof.
  intros w r w' H. apply registry_run_same_tables.
  unfold api in H. destruct (hd None (faults w)) as [[e|v]|].
  - injection H as <- <-. reflexivity.
  - injection H as <- <-. reflexivity.
  - simpl in H.
    repeat match type of H with
           | context [match ?x with _ => _ end] => destruct x
           end; injection H as <- <-; reflexivity.
Qed.

Lemma registry_run_put (name uri : string) (other : list (string * pyval)) :
  preserves (registry_run name uri)
    (api (PutItem (name +:+ ".s3") (("GitURI", VStr uri) :: other))).
Proof.
  intros w r w' H. unfold api in H.
  destruct (hd None (faults w)) as [[e|v]|].
  - injection H as <- <-. apply registry_run_same_tables. reflexivity.
  - injection H as <- <-. apply registry_run_same_tables. reflexivity.
  - simpl in H.
    destruct (tables w !! (name +:+ ".s3")) as [t|] eqn:L.
    2:{ injection H as <- <-. apply registry_run_same_tables. reflexivity. }
    intros Hk. pose proof (Hk t L) as Hkey. rewrite Hkey in H.
    cbn [dict_lookup String.eqb Ascii.eqb Bool.eqb] in H.
    injection H as <- <-. split.
    + intros n t0 Ht0. simpl in Ht0. simpl.
      destruct (decide (name +:+ ".s3" = n)) as [<-|Hne].
      * rewrite lookup_insert_eq. eexists. split; [reflexivity|].
        assert (t0 = t) by congruence. subst t0.
        split; [simpl; symmetry; exact Hkey|].
        intros k Hskip. simpl. unfold the_row in Hskip.
        rewrite String.eqb_refl in Hskip. cbn [andb] in Hskip.
        apply String.eqb_neq in Hskip.
        rewrite lookup_insert_ne by congruence. reflexivity.
      * rewrite lookup_insert_ne by exact Hne. exists t0. auto.
    + intros t0. simpl. rewrite lookup_insert_eq. intros [= <-]. reflexivity.
Qed.

Lemma lookup_s3_registry_run (self : DynamoTable) (uri : string) (auto_create : bool) :
  preserves (registry_run (Table.table_name self) uri) (lookup_s3 self uri auto_create).
Proof.
  unfold lookup_s3, Table.exit.
  repeat first
    [ progress preserved (registry_run_refl (Table.table_name self) uri)
                         (registry_run_trans (Table.table_name self) uri)
    | apply registry_run_get
    | apply registry_run_put ].
Qed.

(** ** [DynamoTable]: the properties *)

(** With a region the client and the resource are built, and building
    them never changes anything. *)
Lemma boto3_dynamodb_ready (w : world) :
  isinstance_str (region w) = true -> boto3_dynamodb w = (Ok tt, w).
Proof.
  unfold boto3_dynamodb. destruct (region w); try discriminate. reflexivity.
Qed.

Lemma boto3_dynamodb_world (w w' : world) (r : result unit) :
  boto3_dynamodb w = (r, w') -> w' = w.
Proof.
  unfold boto3_dynamodb. destruct (region w); intros [= _ <-]; reflexivity.
Qed.

(** Without one the constructor stops there: [NoRegionError] before any
    call. *)
Lemma DynamoTable_init_without_region (name : string) (auto_create : bool)
    (w : world) :
  table_name_accepted name = true ->
  isinstance_str (region w) = false ->
  DynamoTable_init (VStr name) auto_create w = (Raise NoRegionError, w).
Proof.
  intros Hv Hr. apply validate_name_dynamotable_accepts in Hv.
  unfold DynamoTable_init, bind, lift, get_region_name, boto3_dynamodb.
  rewrite Hv. cbn [fst snd negb]. unfold ret at 1.
  destruct (region w); try discriminate Hr; reflexivity.
Qed.

(** X6: a name that breaks a rule of [validate_name_dynamotable] makes the
    constructor of [DynamoTable] raise [ValueError] before any call: the
    world is as it was. *)
Theorem DynamoTable_init_rejects_name (s : string) (auto_create : bool) (w : world) :
  table_name_accepted s = false ->
  exists reason,
    DynamoTable_init (VStr s) auto_create w = (Raise (Exn ValueError reason), w).
Proof.
  intros Hv. unfold DynamoTable_init, bind, lift.
  destruct (validate_name_dynamotable_outcome s) as [E|[reason E]].
  - apply validate_name_dynamotable_accepts in E. congruence.
  - rewrite E. exists reason. reflexivity.
Qed.

Lemma DynamoTable_init_rejects_name_witness :
  table_name_accepted "My--Table" = false /\
  exists reason,
    DynamoTable_init (VStr "My--Table") true world_empty =
    (Raise (Exn ValueError reason), world_empty).
Proof.
  split; [reflexivity|].
  apply (DynamoTable_init_rejects_name "My--Table" true world_empty). reflexivity.
Defined.

(** X7: whatever the service answers and however the run ends, the
    constructor of [DynamoTable] only makes calls about the tables
    [<name>.lock] and [<name>.s3], leaves the buckets and every other
    table as they were, and loses no table and no row: each table that
    was there is still there with its key and its rows. *)
Theorem DynamoTable_init_keeps_store (name : string) (auto_create : bool)
    (w : world) (r : result DynamoTable) (w' : world) :
  DynamoTable_init (VStr name) auto_create w = (r, w') ->
  table_run name w w' /\ rows_kept no_row w w'.
Proof.
  unfold DynamoTable_init, bind, lift, get_region_name.
  destruct (validate_name_dynamotable (VStr name)) as [[[|] reason]|e];
    cbn [fst snd negb]; unfold ret, raise;
    try (intros [= <- <-]; split; [apply table_run_refl|apply rows_kept_refl]).
  unfold boto3_dynamodb.
  destruct (region w) as [|b0|z0|r0|l0|d0] eqn:R; rewrite ?R; cbv beta iota;
    try (intros [= <- <-]; split; [apply table_run_refl|apply rows_kept_refl]).
  destruct auto_create;
    [|intros [= <- <-]; split; [apply table_run_refl|apply rows_kept_refl]].
  intros H. split.
  - exact (create_tables_run (mkDynamoTable (VStr r0) name) true _ _ _ H).
  - exact (create_tables_rows (mkDynamoTable (VStr r0) name) true _ _ _ H).
Qed.

Lemma DynamoTable_init_keeps_store_witness :
  table_run "terraform.x" world_two_rows
    (snd (DynamoTable_init (VStr "terraform.x") true world_two_rows)) /\
  rows_kept no_row world_two_rows
    (snd (DynamoTable_init (VStr "terraform.x") true world_two_rows)).
Proof.
  apply (DynamoTable_init_keeps_store "terraform.x" true world_two_rows
           (fst (DynamoTable_init (VStr "terraform.x") true world_two_rows))).
  vm_compute. reflexivity.
Defined.

(** X8: when the session has a region, every call is served and the
    name is valid, the constructor of [DynamoTable] with auto_create=True
    returns, both tables are there afterwards, and a registry table that
    was missing is created empty with the hash key GitURI. *)
Theorem DynamoTable_init_creates (name : string) (w : world) :
  isinstance_str (region w) = true ->
  faults w = [] ->
  table_name_accepted name = true ->
  exists w',
    DynamoTable_init (VStr name) true w = (Ok (mkDynamoTable (region w) name), w') /\
    tables_in w' name = true /\
    (tables w !! (name +:+ ".s3") = None ->
     tables w' !! (name +:+ ".s3") = Some (mkTable "GitURI" true ∅)).
Proof.
  intros Hr Hf Hv. apply validate_name_dynamotable_accepts in Hv.
  unfold DynamoTable_init, bind, lift, get_region_name. rewrite Hv.
  cbn [fst snd negb]. unfold ret at 1.
  rewrite (boto3_dynamodb_ready w Hr). cbv beta iota.
  rewrite (boto3_dynamodb_ready w Hr). cbv beta iota.
  destruct (create_tables_served (mkDynamoTable (region w) name) true w Hf)
    as (w' & E & _ & _ & _ & Hin & Hs3).
  exists w'. auto.
Qed.

Lemma DynamoTable_init_creates_witness :
  isinstance_str (region world_empty) = true /\
  faults world_empty = [] /\
  table_name_accepted "terraform.x" = true /\
  exists w',
    DynamoTable_init (VStr "terraform.x") true world_empty =
      (Ok (mkDynamoTable (region world_empty) "terraform.x"), w') /\
    tables_in w' "terraform.x" = true /\
    (tables world_empty !! "terraform.x.s3" = None ->
     tables w' !! "terraform.x.s3" = Some (mkTable "GitURI" true ∅)).
Proof.
  split; [reflexivity|]. split; [reflexivity|]. split; [reflexivity|].
  apply (DynamoTable_init_creates "terraform.x" world_empty); reflexivity.
Defined.

(** X9: when both describes are served, [tables_exist] returns without
    raising, says yes exactly when both tables are there, and leaves the
    store as it was. *)
Theorem tables_exist_both (self : DynamoTable) (w : world) :
  faults w = [] ->
  exists w',
    tables_exist self w = (Ok (tables_in w (Table.table_name self)), w') /\
    tables w' = tables w /\ buckets w' = buckets w.
Proof.
  intros Hf. destruct (tables_exist_served self w Hf) as (w' & E & T & B & _).
  exists w'. auto.
Qed.

Lemma tables_exist_both_witness :
  faults world_registered = [] /\
  exists w',
    tables_exist table_x world_registered = (Ok false, w') /\
    tables w' = tables world_registered /\ buckets w' = buckets world_registered.
Proof.
  split; [reflexivity|].
  apply (tables_exist_both table_x world_registered). reflexivity.
Defined.

(** X10: [lookup_s3] with auto_create=False, on a registry that has no
    row for the GitURI (or a row whose BucketName is not a string),
    returns [None] after the one read, and writes nothing. *)
Theorem lookup_s3_without_create (self : DynamoTable) (uri : string) (w : world) :
  hd None (faults w) = None ->
  registry_ready w (Table.table_name self) ->
  registered w (Table.table_name self) uri = None ->
  exists w',
    lookup_s3 self uri false w = (Ok None, w') /\
    tables w' = tables w /\
    calls w' = calls w ++ [GetItem (Table.table_name self +:+ ".s3") "GitURI" uri].
Proof.
  intros Hf Hr Hn. eexists. split; [exact (lookup_s3_unregistered self uri w Hf Hr Hn)|].
  split; reflexivity.
Qed.

Lemma lookup_s3_without_create_witness :
  hd None (faults world_ready) = None /\
  registry_ready world_ready "terraform.x" /\
  registered world_ready "terraform.x" "x/y" = None /\
  exists w',
    lookup_s3 table_x "x/y" false world_ready = (Ok None, w') /\
    tables w' = tables world_ready /\
    calls w' = calls world_ready ++ [GetItem "terraform.x.s3" "GitURI" "x/y"].
Proof.
  assert (R : registry_ready world_ready "terraform.x").
  { exists (mkTable "GitURI" true ∅). split; vm_compute; reflexivity. }
  split; [reflexivity|]. split; [exact R|]. split; [vm_compute; reflexivity|].
  apply (lookup_s3_without_create table_x "x/y" world_ready);
    [reflexivity | exact R | vm_compute; reflexivity].
Defined.

(** X11: allocation and lookup round trip.  When every call is served,
    the registry has no row for the GitURI and the generated name
    [<table_name>-<microseconds>] is a bucket name, [lookup_s3] with
    auto_create=True writes the row and returns that name; any later
    [lookup_s3] for the same GitURI then returns the same name without
    writing. *)
Theorem lookup_s3_allocates_once (self : DynamoTable) (uri : string)
    (again : bool) (w : world) :
  faults w = [] ->
  registry_ready w (Table.table_name self) ->
  registered w (Table.table_name self) uri = None ->
  bucket_name_accepted (generated_name w (Table.table_name self)) = true ->
  exists w1 w2,
    lookup_s3 self uri true w =
      (Ok (Some (generated_name w (Table.table_name self))), w1) /\
    registered w1 (Table.table_name self) uri =
      Some (generated_name w (Table.table_name self)) /\
    lookup_s3 self uri again w1 =
      (Ok (Some (generated_name w (Table.table_name self))), w2) /\
    tables w2 = tables w1.
Proof.
  intros Hf Hr Hn Hv.
  destruct (lookup_s3_allocates self uri w Hf Hr Hn Hv)
    as (w1 & E1 & R1 & K1 & F1 & _).
  exists w1. eexists. split; [exact E1|]. split; [exact R1|].
  split; [apply lookup_s3_registered; [rewrite F1; reflexivity|exact K1|exact R1]|].
  reflexivity.
Qed.

Lemma lookup_s3_allocates_once_witness :
  faults world_ready = [] /\
  registry_ready world_ready "terraform.x" /\
  registered world_ready "terraform.x" "x/y" = None /\
  bucket_name_accepted (generated_name world_ready "terraform.x") = true /\
  exists w1 w2,
    lookup_s3 table_x "x/y" true world_ready =
      (Ok (Some "terraform.x-1571000000000000"), w1) /\
    registered w1 "terraform.x" "x/y" = Some "terraform.x-1571000000000000" /\
    lookup_s3 table_x "x/y" false w1 =
      (Ok (Some "terraform.x-1571000000000000"), w2) /\
    tables w2 = tables w1.
Proof.
  assert (R : registry_ready world_ready "terraform.x").
  { exists (mkTable "GitURI" true ∅). split; vm_compute; reflexivity. }
  split; [reflexivity|]. split; [exact R|]. split; [vm_compute; reflexivity|].
  split; [vm_compute; reflexivity|].
  apply (lookup_s3_allocates_once table_x "x/y" false world_ready);
    [reflexivity | exact R | vm_compute; reflexivity | vm_compute; reflexivity].
Defined.

(** X12: a table name that [DynamoTable] accepts need not be the stem of
    a bucket name.  When the name has a character outside [a-z0-9.-] (an
    upper-case letter, an underscore) or ends with a dash or a dot,
    [lookup_s3] with auto_create=True on an unregistered GitURI raises
    [ValueError] after the read, whatever the clock says, and writes
    nothing. *)
Theorem lookup_s3_unfit_stem (self : DynamoTable) (uri : string) (w : world) :
  hd None (faults w) = None ->
  registry_ready w (Table.table_name self) ->
  registered w (Table.table_name self) uri = None ->
  unfit_stem (Table.table_name self) = true ->
  exists reason w',
    lookup_s3 self uri true w = (Raise (Exn ValueError reason), w') /\
    tables w' = tables w /\
    calls w' = calls w ++ [GetItem (Table.table_name self +:+ ".s3") "GitURI" uri].
Proof.
  intros Hf Hr Hn Hu.
  destruct (lookup_s3_refuses self uri w Hf Hr Hn) as [reason E].
  { unfold generated_name. apply unfit_stem_refused. exact Hu. }
  exists reason. eexists. split; [exact E|]. split; reflexivity.
Qed.

Lemma lookup_s3_unfit_stem_witness :
  validate_name_dynamotable (VStr "Terraform.X") = Ok (true, "Success") /\
  hd None (faults world_ready_upper) = None /\
  registry_ready world_ready_upper "Terraform.X" /\
  registered world_ready_upper "Terraform.X" "x/y" = None /\
  unfit_stem "Terraform.X" = true /\
  exists reason w',
    lookup_s3 table_upper "x/y" true world_ready_upper =
      (Raise (Exn ValueError reason), w') /\
    tables w' = tables world_ready_upper /\
    calls w' = calls world_ready_upper ++ [GetItem "Terraform.X.s3" "GitURI" "x/y"].
Proof.
  assert (R : registry_ready world_ready_upper "Terraform.X").
  { exists (mkTable "GitURI" true ∅). split; vm_compute; reflexivity. }
  split; [reflexivity|]. split; [reflexivity|]. split; [exact R|].
  split; [vm_compute; reflexivity|]. split; [reflexivity|].
  apply (lookup_s3_unfit_stem table_upper "x/y" world_ready_upper);
    [reflexivity | exact R | vm_compute; reflexivity | reflexivity].
Defined.

(** X13: for a table name that [validate_name_dynamotable] accepts and a
    clock that is not negative, the generated name is a bucket name
    exactly when the table name is a fit stem and the whole is at most 63
    characters long. *)
Theorem generated_name_accepted (name : string) (w : world) :
  table_name_accepted name = true ->
  0 <= clock w ->
  bucket_name_accepted (generated_name w name) =
  negb (unfit_stem name) && (String.length (generated_name w name) <=? 63)%nat.
Proof.
  intros Ht Hz. unfold generated_name.
  destruct (unfit_stem name) eqn:Hu; cbn [negb andb].
  - apply unfit_stem_refused. exact Hu.
  - destruct (Nat.leb_spec (String.length (name +:+ "-" +:+ str_of_Z (clock w))) 63)
      as [Hl|Hl].
    + apply fit_stem_accepted; assumption.
    + unfold bucket_name_accepted.
      destruct (Nat.leb_spec (String.length (name +:+ "-" +:+ str_of_Z (clock w))) 63);
        [lia|]. rewrite andb_false_r. reflexivity.
Qed.

Lemma generated_name_accepted_witness :
  table_name_accepted "terraform.github.com.org" = true /\
  0 <= clock world_empty /\
  bucket_name_accepted (generated_name world_empty "terraform.github.com.org") =
  negb (unfit_stem "terraform.github.com.org") &&
  (String.length (generated_name world_empty "terraform.github.com.org") <=? 63)%nat.
Proof.
  split; [reflexivity|]. split; [vm_compute; discriminate|].
  apply (generated_name_accepted "terraform.github.com.org" world_empty);
    [reflexivity | vm_compute; discriminate].
Defined.

(** X14: [lookup_s3] on a registry table that has the key GitURI never
    touches the row of another GitURI, nor any other table or bucket,
    whatever the service answers: only calls about the tables of its name
    are made, and every row but that of its own GitURI is as it was. *)
Theorem lookup_s3_keeps_other_rows (self : DynamoTable) (uri : string)
    (auto_create : bool) (w : world) (r : result (option string)) (w' : world) :
  registry_keyed (Table.table_name self) w ->
  lookup_s3 self uri auto_create w = (r, w') ->
  table_run (Table.table_name self) w w' /\
  rows_kept (the_row (Table.table_name self +:+ ".s3") uri) w w'.
Proof.
  intros Hk H. split.
  - exact (lookup_s3_run self uri auto_create _ _ _ H).
  - exact (proj1 (lookup_s3_registry_run self uri auto_create _ _ _ H Hk)).
Qed.

Lemma lookup_s3_keeps_other_rows_witness :
  registry_keyed "terraform.x" world_two_rows /\
  table_run "terraform.x" world_two_rows
    (snd (lookup_s3 table_x "x/new" true world_two_rows)) /\
  rows_kept (the_row "terraform.x.s3" "x/new") world_two_rows
    (snd (lookup_s3 table_x "x/new" true world_two_rows)).
Proof.
  assert (K : registry_keyed "terraform.x" world_two_rows).
  { intros t H. vm_compute in H. injection H as <-. reflexivity. }
  split; [exact K|].
  apply (lookup_s3_keeps_other_rows table_x "x/new" true world_two_rows
           (fst (lookup_s3 table_x "x/new" true world_two_rows)));
    [exact K | vm_compute; reflexivity].
Defined.

(** ** [BackendAWS]: the run as a whole *)

Lemma dict_lookup_set_eq (d : list (string * pyval)) (k : string) (v : pyval) :
  dict_lookup (dict_set d k v) k = Some v.
Proof.
  induction d as [|[k' v'] d IH]; simpl.
  - rewrite String.eqb_refl. reflexivity.
  - destruct (String.eqb k' k) eqn:E; simpl.
    + rewrite String.eqb_refl. reflexivity.
    + rewrite E. exact IH.
Qed.

Lemma dict_lookup_set_ne (d : list (string * pyval)) (k k' : string) (v : pyval) :
  k <> k' -> dict_lookup (dict_set d k v) k' = dict_lookup d k'.
Proof.
  intros Hne. induction d as [|[k0 v0] d IH]; simpl.
  - destruct (String.eqb_spec k k'); [contradiction|reflexivity].
  - destruct (String.eqb_spec k0 k) as [->|Hk]; simpl.
    + destruct (String.eqb_spec k k'); [contradiction|reflexivity].
    + destruct (String.eqb k0 k'); [reflexivity|exact IH].
Qed.

(** What [source_git] leaves in a new object when it returns. *)
Lemma source_git_fresh (remote_read current_branch : pyval) (b : Backend) :
  source_git remote_read current_branch Backend_init = (b, Ok tt) ->
  exists repo uri branch tn,
    current_branch = VStr branch /\
    keyvalue_map b = [("repo_name", VStr repo); ("bucket_uri", VStr uri);
                      ("branch_name", VStr branch)] /\
    MakeBackend.table_name b = VStr tn.
Proof.
  unfold source_git.
  destruct remote_read as [| | | | |d]; try discriminate.
  destruct (default VNone (dict_lookup d "origin")) as [| | |url| |]; try discriminate.
  destruct current_branch as [| | |branch| |]; try discriminate.
  cbn [isinstance_str negb]. intros [= <-].
  eexists _, _, branch, _. split; [reflexivity|]. split; reflexivity.
Qed.

(** The constructor of [DynamoTable] when every call is served: the
    registry is ready afterwards and holds the rows it held. *)
Lemma DynamoTable_init_ready (tn : string) (w : world) :
  isinstance_str (region w) = true ->
  faults w = [] ->
  table_name_accepted tn = true ->
  registry_keyed tn w ->
  exists w',
    DynamoTable_init (VStr tn) true w = (Ok (mkDynamoTable (region w) tn), w') /\
    faults w' = [] /\ region w' = region w /\ clock w' = clock w /\
    buckets w' = buckets w /\
    tables_in w' tn = true /\ registry_ready w' tn /\
    (forall uri, registered w' tn uri = registered w tn uri) /\
    (tables_in w tn = true -> tables w' = tables w).
Proof.
  intros Hrg Hf Hv Hk. apply validate_name_dynamotable_accepts in Hv.
  unfold DynamoTable_init, bind, lift, get_region_name. rewrite Hv.
  cbn [fst snd negb]. unfold ret at 1.
  rewrite (boto3_dynamodb_ready w Hrg). cbv beta iota.
  rewrite (boto3_dynamodb_ready w Hrg). cbv beta iota.
  set (self := mkDynamoTable (region w) tn).
  destruct (create_tables_served self true w Hf)
    as (w' & E & F & R & C & Hin & Hs3).
  pose proof (create_tables_run self true _ _ _ E) as (B & _).
  pose proof (create_tables_rows self true _ _ _ E) as Hrows.
  exists w'. split; [exact E|]. repeat (split; [assumption|]).
  assert (Hreg : registry_ready w' tn /\
                 forall uri, registered w' tn uri = registered w tn uri).
  { destruct (tables w !! (tn +:+ ".s3")) as [t|] eqn:L.
    - destruct (Hrows _ _ L) as (t' & L' & K' & I').
      split.
      + exists t'. split; [exact L'|]. rewrite K'. exact (Hk t L).
      + intros uri. unfold registered. rewrite L, L'.
        rewrite (I' uri eq_refl). reflexivity.
    - specialize (Hs3 L). cbn [Table.table_name self] in Hs3. split.
      + eexists. split; [exact Hs3|reflexivity].
      + intros uri. unfold registered. rewrite L, Hs3. cbn [items].
        rewrite lookup_empty. reflexivity. }
  destruct Hreg as [Hready Hsame]. split; [exact Hready|]. split; [exact Hsame|].
  intros Hin0. unfold tables_in in Hin0. apply andb_true_iff in Hin0 as [H1 H2].
  apply bool_decide_eq_true in H1, H2.
  destruct (create_tables_present self w Hf H1 H2) as (w2 & E2 & T2 & _).
  rewrite E in E2. injection E2 as <-. exact T2.
Qed.

Lemma tables_in_kept (skip : string -> string -> bool) (w w' : world) (tn : string) :
  rows_kept skip w w' -> tables_in w tn = true -> tables_in w' tn = true.
Proof.
  intros Hr Hin. unfold tables_in in *. apply andb_true_iff in Hin as [H1 H2].
  apply bool_decide_eq_true in H1, H2. destruct H1 as [t1 L1], H2 as [t2 L2].
  destruct (Hr _ _ L1) as (t1' & L1' & _). destruct (Hr _ _ L2) as (t2' & L2' & _).
  rewrite L1', L2'. reflexivity.
Qed.

Lemma registry_ready_keyed (w : world) (tn : string) :
  registry_ready w tn -> registry_keyed tn w.
Proof. intros (t & L & K) t' L'. congruence. Qed.

(** [lookup_s3] with auto_create=True when every call is served: the
    name of the repository, registered from now on. *)
Lemma lookup_s3_served (self : DynamoTable) (uri : string) (w : world) :
  faults w = [] ->
  registry_ready w (Table.table_name self) ->
  tables_in w (Table.table_name self) = true ->
  bucket_name_accepted (bucket_name_for w (Table.table_name self) uri) = true ->
  exists w',
    lookup_s3 self uri true w =
      (Ok (Some (bucket_name_for w (Table.table_name self) uri)), w') /\
    registered w' (Table.table_name self) uri =
      Some (bucket_name_for w (Table.table_name self) uri) /\
    registry_ready w' (Table.table_name self) /\
    tables_in w' (Table.table_name self) = true /\
    faults w' = [] /\ buckets w' = buckets w /\ region w' = region w /\
    (forall b, registered w (Table.table_name self) uri = Some b -> tables w' = tables w).
Proof.
  intros Hf Hr Hin Hv. unfold bucket_name_for in *.
  destruct (registered w (Table.table_name self) uri) as [b|] eqn:Hreg.
  - eexists. split; [apply lookup_s3_registered;
                     [rewrite Hf; reflexivity|exact Hr|exact Hreg]|].
    unfold after. cbn. rewrite Hf. auto 10.
  - destruct (lookup_s3_allocates self uri w Hf Hr Hreg Hv)
      as (w' & E & R' & K' & F' & B' & G' & _).
    exists w'. split; [exact E|]. split; [exact R'|]. split; [exact K'|].
    split.
    + apply (tables_in_kept (the_row (Table.table_name self +:+ ".s3") uri) w w');
        [|exact Hin].
      exact (proj1 (lookup_s3_registry_run self uri true _ _ _ E
                      (registry_ready_keyed _ _ Hr))).
    + repeat (split; [assumption|]). intros b Hb. discriminate Hb.
Qed.

Section WholeRun.

Variables (tn uri : string) (w : world).

Hypothesis region_set : isinstance_str (region w) = true.
Hypothesis served : faults w = [].
Hypothesis table_name_valid : table_name_accepted tn = true.
Hypothesis keyed : registry_keyed tn w.
Hypothesis name_valid : bucket_name_accepted (bucket_name_for w tn uri) = true.
Hypothesis bucket_free :
  buckets w !! bucket_name_for w tn uri = None \/
  owned_in w (bucket_name_for w tn uri) = true.

Variable self : BackendAws.BackendAWS.

Hypothesis no_table : BackendAws.table self = None.
Hypothesis has_table_name : MakeBackend.table_name (BackendAws.base self) = VStr tn.
Hypothesis has_uri :
  dict_lookup (keyvalue_map (BackendAws.base self)) "bucket_uri" = Some (VStr uri).
Hypothesis no_name :
  dict_lookup (keyvalue_map (BackendAws.base self)) "bucket_name" = None.

Lemma retrieve_bucket_name_served :
  exists w',
    BackendAws.retrieve_bucket_name self w = (Ok (named w tn uri self), w') /\
    faults w' = [] /\ region w' = region w /\ buckets w' = buckets w /\
    tables_in w' tn = true /\ registry_ready w' tn /\
    registered w' tn uri = Some (bucket_name_for w tn uri) /\
    (tables_in w tn = true -> is_Some (registered w tn uri) -> tables w' = tables w).
Proof.
  destruct (DynamoTable_init_ready tn w region_set served table_name_valid keyed)
    as (wA & EA & FA & RA & CA & BA & InA & KA & SA & TA).
  assert (Hname : bucket_name_for wA tn uri = bucket_name_for w tn uri).
  { unfold bucket_name_for, generated_name. rewrite SA, CA. reflexivity. }
  set (t := mkDynamoTable (region w) tn) in *.
  destruct (lookup_s3_served t uri wA FA KA InA) as (wB & EB & RB & KB & InB & FB & BB & GB & TB).
  { cbn [Table.table_name t]. rewrite Hname. exact name_valid. }
  cbn [Table.table_name t] in *. rewrite Hname in *.
  exists wB. split.
  - unfold BackendAws.retrieve_bucket_name. rewrite no_table.
    unfold BackendAws.retrieve_tables. rewrite has_table_name.
    unfold bind at 1. unfold try_except at 1. rewrite EA. unfold ret at 1.
    unfold try_except.
    cbn [BackendAws.base BackendAws.set_table BackendAws.table
         BackendAws.lookup_s3_of].
    unfold bind, lift. cbn [py_getitem]. rewrite has_uri. rewrite EB. reflexivity.
  - split; [exact FB|]. split; [congruence|]. split; [congruence|].
    split; [exact InB|]. split; [exact KB|]. split; [exact RB|].
    intros Hin [b Hb]. rewrite (TB b); [exact (TA Hin)|]. rewrite SA. exact Hb.
Qed.

Lemma retrieve_bucket_served :
  exists w',
    BackendAws.retrieve_bucket self w = (Ok (provided w tn uri self), w') /\
    faults w' = [] /\ region w' = region w /\
    tables_in w' tn = true /\ registry_ready w' tn /\
    registered w' tn uri = Some (bucket_name_for w tn uri) /\
    buckets w' =
      <[bucket_name_for w tn uri :=
          secured_bucket (tags_after w (bucket_name_for w tn uri))]> (buckets w) /\
    length (List.filter is_managed (tags_after w (bucket_name_for w tn uri))) = 1%nat /\
    (tables_in w tn = true -> is_Some (registered w tn uri) -> tables w' = tables w).
Proof.
  destruct retrieve_bucket_name_served
    as (wB & EB & FB & RB & BB & InB & KB & GB & TB).
  assert (Hfree : buckets wB !! bucket_name_for w tn uri = None \/
                  owned_in wB (bucket_name_for w tn uri) = true).
  { unfold owned_in. rewrite BB. exact bucket_free. }
  destruct (S3Bucket_init_served _ wB FB name_valid Hfree)
    as (wC & EC & LC & BC & TC & FC & RC).
  assert (Htags : tags_after wB (bucket_name_for w tn uri) =
                  tags_after w (bucket_name_for w tn uri)).
  { unfold tags_after. rewrite BB. reflexivity. }
  rewrite Htags in *. rewrite RB in EC.
  exists wC. split.
  - unfold BackendAws.retrieve_bucket, BackendAws.get_key. rewrite no_name.
    cbn [default from_option isinstance_str negb].
    unfold bind at 1. rewrite EB.
    unfold try_except, bind, lift.
    assert (Hget : py_getitem (VDict (keyvalue_map (BackendAws.base (named w tn uri self))))
                     "bucket_name"
                   = Ok (VStr (bucket_name_for w tn uri))).
    { unfold named. cbn [BackendAws.set_key BackendAws.set_base BackendAws.base
                         keyvalue_map py_getitem].
      rewrite dict_lookup_set_eq. reflexivity. }
    rewrite Hget, EC. reflexivity.
  - split; [exact FC|]. split; [congruence|].
    split; [unfold tables_in; rewrite TC; exact InB|].
    split; [unfold registry_ready; rewrite TC; exact KB|].
    split; [unfold registered; rewrite TC; exact GB|].
    split; [rewrite BC, BB; reflexivity|]. split; [exact LC|].
    intros Hin Hreg. rewrite TC. exact (TB Hin Hreg).
Qed.

End WholeRun.

(** [create] on a new object, when every call is served. *)
Lemma create_served (remote_read current_branch : pyval)
    (render : BackendAws.BackendAWS -> M unit) (w : world) (b0 : Backend)
    (tn uri : string) :
  source_git remote_read current_branch Backend_init = (b0, Ok tt) ->
  MakeBackend.table_name b0 = VStr tn ->
  dict_lookup (keyvalue_map b0) "bucket_uri" = Some (VStr uri) ->
  isinstance_str (region w) = true ->
  faults w = [] ->
  table_name_accepted tn = true ->
  registry_keyed tn w ->
  bucket_name_accepted (bucket_name_for w tn uri) = true ->
  buckets w !! bucket_name_for w tn uri = None \/
  owned_in w (bucket_name_for w tn uri) = true ->
  exists self' w',
    BackendAws.create remote_read current_branch render BackendAws.BackendAWS_init w =
      (render self' ;;; ret self') w' /\
    BackendAws.template_arguments self' =
      Ok [("BUCKET_NAME", VStr (bucket_name_for w tn uri));
          ("TABLE_LOCK", VStr (tn +:+ ".lock"));
          ("REPO_NAME", default VNone (dict_lookup (keyvalue_map b0) "repo_name"));
          ("BRANCH_NAME", default VNone (dict_lookup (keyvalue_map b0) "branch_name"));
          ("REGION_NAME", region w)] /\
    converged w' tn uri (bucket_name_for w tn uri) /\
    faults w' = [] /\
    (converged w tn uri (bucket_name_for w tn uri) ->
     tables w' = tables w /\ buckets w' = buckets w).
Proof.
  intros Hsg Htn Huri Hrg Hf Hv Hk Hb Hfree.
  destruct (source_git_fresh _ _ _ Hsg) as (repo & uri' & branch & tn' & -> & Hkv & _).
  set (self0 := BackendAws.set_base b0 BackendAws.BackendAWS_init).
  assert (Hnone : dict_lookup (keyvalue_map (BackendAws.base self0)) "bucket_name" = None).
  { cbn. rewrite Hkv. reflexivity. }
  destruct (retrieve_bucket_served tn uri w Hrg Hf Hv Hk Hb Hfree self0
              eq_refl Htn Huri Hnone)
    as (w' & E & F & R & Hin & Hready & Hreg & Hbk & Hlen & Hsame).
  eexists _, w'. split.
  - unfold BackendAws.create. cbn [BackendAws.base BackendAws.BackendAWS_init].
    rewrite Hsg. fold self0. cbn [BackendAws.bucket self0 BackendAws.set_base
                                   BackendAws.BackendAWS_init orb].
    unfold bind at 1. rewrite E.
    cbn [BackendAws.bucket provided BackendAws.set_bucket]. reflexivity.
  - split.
    { unfold BackendAws.template_arguments, BackendAws.get_key.
      cbn [BackendAws.base BackendAws.set_region_name provided named
           BackendAws.set_bucket BackendAws.set_key BackendAws.set_table
           BackendAws.set_base self0 BackendAws.region_name
           MakeBackend.table_name keyvalue_map Bucket.region_name].
      rewrite Htn. rewrite dict_lookup_set_eq.
      rewrite !dict_lookup_set_ne by discriminate. reflexivity. }
    split.
    { unfold converged. split; [exact Hin|]. split; [exact Hready|].
      split; [exact Hreg|]. eexists. split; [|exact Hlen].
      rewrite Hbk. apply lookup_insert_eq. }
    split; [exact F|].
    intros (Cin & Cready & Creg & tags & Cb & Cl). split.
    + apply Hsame; [exact Cin|]. rewrite Creg. eauto.
    + rewrite Hbk. unfold tags_after. rewrite Cb. cbn [tag_set secured_bucket].
      apply insert_id. exact Cb.
Qed.

(** X15: the run as a whole.  For a new [BackendAWS] object and a
    repository from which [source_git] derives the table name [tn] and the
    bucket_uri [uri]: when the session has a region, every call is
    served, [tn] is a valid table name, the bucket name of the repository (the registered one, or else
    [<tn>-<microseconds>]) is a valid bucket name and that bucket is
    missing or owned, [create] reaches the renderer, with BUCKET_NAME,
    TABLE_LOCK = [<tn>.lock], REPO_NAME, BRANCH_NAME and REGION_NAME as
    arguments of the template; by then both tables exist, the repository
    is registered under that bucket name and the bucket is secured. *)
Theorem create_provisions (remote_read current_branch : pyval)
    (render : BackendAws.BackendAWS -> M unit) (w : world) (b0 : Backend)
    (tn uri : string) :
  source_git remote_read current_branch Backend_init = (b0, Ok tt) ->
  MakeBackend.table_name b0 = VStr tn ->
  dict_lookup (keyvalue_map b0) "bucket_uri" = Some (VStr uri) ->
  isinstance_str (region w) = true ->
  faults w = [] ->
  table_name_accepted tn = true ->
  registry_keyed tn w ->
  bucket_name_accepted (bucket_name_for w tn uri) = true ->
  buckets w !! bucket_name_for w tn uri = None \/
  owned_in w (bucket_name_for w tn uri) = true ->
  exists self' w',
    BackendAws.create remote_read current_branch render BackendAws.BackendAWS_init w =
      (render self' ;;; ret self') w' /\
    BackendAws.template_arguments self' =
      Ok [("BUCKET_NAME", VStr (bucket_name_for w tn uri));
          ("TABLE_LOCK", VStr (tn +:+ ".lock"));
          ("REPO_NAME", default VNone (dict_lookup (keyvalue_map b0) "repo_name"));
          ("BRANCH_NAME", default VNone (dict_lookup (keyvalue_map b0) "branch_name"));
          ("REGION_NAME", region w)] /\
    converged w' tn uri (bucket_name_for w tn uri).
Proof.
  intros Hsg Htn Huri Hrg Hf Hv Hk Hb Hfree.
  destruct (create_served remote_read current_branch render w b0 tn uri
              Hsg Htn Huri Hrg Hf Hv Hk Hb Hfree) as (self' & w' & E & A & C & _).
  exists self', w'. auto.
Qed.

Lemma create_provisions_witness :
  let b0 := fst (source_git origin_https (VStr "main") Backend_init) in
  let tn := "terraform.github.com.org.sub" in
  let uri := "github.com/org.sub/myrepo" in
  source_git origin_https (VStr "main") Backend_init = (b0, Ok tt) /\
  MakeBackend.table_name b0 = VStr tn /\
  dict_lookup (keyvalue_map b0) "bucket_uri" = Some (VStr uri) /\
  isinstance_str (region world_empty) = true /\
  faults world_empty = [] /\
  table_name_accepted tn = true /\
  registry_keyed tn world_empty /\
  bucket_name_accepted (bucket_name_for world_empty tn uri) = true /\
  (buckets world_empty !! bucket_name_for world_empty tn uri = None \/
   owned_in world_empty (bucket_name_for world_empty tn uri) = true) /\
  exists self' w',
    BackendAws.create origin_https (VStr "main") no_render
      BackendAws.BackendAWS_init world_empty = (no_render self' ;;; ret self') w' /\
    BackendAws.template_arguments self' =
      Ok [("BUCKET_NAME", VStr (bucket_name_for world_empty tn uri));
          ("TABLE_LOCK", VStr (tn +:+ ".lock"));
          ("REPO_NAME", default VNone (dict_lookup (keyvalue_map b0) "repo_name"));
          ("BRANCH_NAME", default VNone (dict_lookup (keyvalue_map b0) "branch_name"));
          ("REGION_NAME", region world_empty)] /\
    converged w' tn uri (bucket_name_for world_empty tn uri).
Proof.
  assert (K : registry_keyed "terraform.github.com.org.sub" world_empty).
  { intros t H. vm_compute in H. discriminate H. }
  cbv zeta.
  split; [vm_compute; reflexivity|]. split; [vm_compute; reflexivity|].
  split; [vm_compute; reflexivity|]. split; [reflexivity|]. split; [reflexivity|].
  split; [vm_compute; reflexivity|]. split; [exact K|].
  split; [vm_compute; reflexivity|]. split; [left; vm_compute; reflexivity|].
  apply (create_provisions origin_https (VStr "main") no_render world_empty);
    [vm_compute; reflexivity | vm_compute; reflexivity | vm_compute; reflexivity
    | reflexivity | reflexivity | vm_compute; reflexivity | exact K
    | vm_compute; reflexivity
    | left; vm_compute; reflexivity].
Defined.

(** Without a region the run stops where the client of DynamoDB is
    built: nothing is sent, nothing is printed. *)
Example create_without_region :
  let w := mkWorld ∅ ∅ VNone 1571000000000000 [] [] [] in
  BackendAws.create origin_https (VStr "main") no_render
    BackendAws.BackendAWS_init w = (Raise NoRegionError, w).
Proof. vm_compute. reflexivity. Qed.

(** The example of the specification, for the https form of the origin. *)
Example create_first_run :
  BackendAws.template_arguments
    (match fst (BackendAws.create origin_https (VStr "main") no_render
                  BackendAws.BackendAWS_init world_empty) with
     | Ok self => self
     | Raise _ => BackendAws.BackendAWS_init
     end) =
  Ok [("BUCKET_NAME", VStr "terraform.github.com.org.sub-1571000000000000");
      ("TABLE_LOCK", VStr "terraform.github.com.org.sub.lock");
      ("REPO_NAME", VStr "myrepo");
      ("BRANCH_NAME", VStr "main");
      ("REGION_NAME", VStr "eu-west-1")] /\
  calls world_after_first_run =
  [DescribeTable "terraform.github.com.org.sub.lock";
   CreateTable "terraform.github.com.org.sub.lock" "LockID" "S" 5 5;
   CreateTable "terraform.github.com.org.sub.s3" "GitURI" "S" 5 5;
   WaitTableExists "terraform.github.com.org.sub.lock";
   WaitTableExists "terraform.github.com.org.sub.s3";
   GetItem "terraform.github.com.org.sub.s3" "GitURI" "github.com/org.sub/myrepo";
   PutItem "terraform.github.com.org.sub.s3"
     [("GitURI", VStr "github.com/org.sub/myrepo");
      ("BucketName", VStr "terraform.github.com.org.sub-1571000000000000")];
   HeadBucket "terraform.github.com.org.sub-1571000000000000";
   CreateBucket "private" "terraform.github.com.org.sub-1571000000000000"
     (VStr "eu-west-1");
   PutBucketTagging "terraform.github.com.org.sub-1571000000000000" [managed_tag];
   GetBucketTagging "terraform.github.com.org.sub-1571000000000000";
   PutPublicAccessBlock "terraform.github.com.org.sub-1571000000000000" all_blocked;
   PutBucketVersioning "terraform.github.com.org.sub-1571000000000000" "Enabled"].
Proof. split; vm_compute; reflexivity. Qed.

(** X16: a second run changes nothing.  From a store where the run for
    the repository has converged on the bucket name [b], with the session
    in a region and every call served, [create] on a new object reaches
    the renderer with the same BUCKET_NAME, and the tables and the buckets
    are as they were. *)
Theorem create_rerun (remote_read current_branch : pyval)
    (render : BackendAws.BackendAWS -> M unit) (w : world) (b0 : Backend)
    (tn uri b : string) :
  source_git remote_read current_branch Backend_init = (b0, Ok tt) ->
  MakeBackend.table_name b0 = VStr tn ->
  dict_lookup (keyvalue_map b0) "bucket_uri" = Some (VStr uri) ->
  isinstance_str (region w) = true ->
  faults w = [] ->
  table_name_accepted tn = true ->
  bucket_name_accepted b = true ->
  converged w tn uri b ->
  exists self' w',
    BackendAws.create remote_read current_branch render BackendAws.BackendAWS_init w =
      (render self' ;;; ret self') w' /\
    BackendAws.get_key self' "bucket_name" = VStr b /\
    tables w' = tables w /\ buckets w' = buckets w.
Proof.
  intros Hsg Htn Huri Hrg Hf Hv Hb Hc.
  pose proof Hc as (Cin & Cready & Creg & tags & Cb & Cl).
  assert (Hname : bucket_name_for w tn uri = b)
    by (unfold bucket_name_for; rewrite Creg; reflexivity).
  destruct (create_served remote_read current_branch render w b0 tn uri
              Hsg Htn Huri Hrg Hf Hv (registry_ready_keyed _ _ Cready))
    as (self' & w' & E & A & _ & _ & Hsame).
  { rewrite Hname. exact Hb. }
  { rewrite Hname. right. exact (proj1 (secured_bucket_owned w b tags Cb Cl)). }
  rewrite Hname in *. exists self', w'. split; [exact E|].
  split; [|exact (Hsame Hc)].
  unfold BackendAws.template_arguments in A.
  destruct (MakeBackend.table_name (BackendAws.base self')); try discriminate A.
  injection A as A _. exact A.
Qed.

Lemma create_rerun_witness :
  let b0 := fst (source_git origin_https (VStr "main") Backend_init) in
  let tn := "terraform.github.com.org.sub" in
  let uri := "github.com/org.sub/myrepo" in
  let b := "terraform.github.com.org.sub-1571000000000000" in
  source_git origin_https (VStr "main") Backend_init = (b0, Ok tt) /\
  MakeBackend.table_name b0 = VStr tn /\
  dict_lookup (keyvalue_map b0) "bucket_uri" = Some (VStr uri) /\
  isinstance_str (region world_after_first_run) = true /\
  faults world_after_first_run = [] /\
  table_name_accepted tn = true /\
  bucket_name_accepted b = true /\
  converged world_after_first_run tn uri b /\
  exists self' w',
    BackendAws.create origin_https (VStr "main") no_render
      BackendAws.BackendAWS_init world_after_first_run =
      (no_render self' ;;; ret self') w' /\
    BackendAws.get_key self' "bucket_name" = VStr b /\
    tables w' = tables world_after_first_run /\
    buckets w' = buckets world_after_first_run.
Proof.
  assert (C : converged world_after_first_run "terraform.github.com.org.sub"
                "github.com/org.sub/myrepo"
                "terraform.github.com.org.sub-1571000000000000").
  { split; [vm_compute; reflexivity|]. split.
    - exists (mkTable "GitURI" true
                {[ "github.com/org.sub/myrepo" :=
                     [("GitURI", VStr "github.com/org.sub/myrepo");
                      ("BucketName",
                       VStr "terraform.github.com.org.sub-1571000000000000")] ]}).
      split; vm_compute; reflexivity.
    - split; [vm_compute; reflexivity|].
      exists [managed_tag]. split; vm_compute; reflexivity. }
  cbv zeta.
  split; [vm_compute; reflexivity|]. split; [vm_compute; reflexivity|].
  split; [vm_compute; reflexivity|]. split; [vm_compute; reflexivity|].
  split; [vm_compute; reflexivity|]. split; [vm_compute; reflexivity|].
  split; [vm_compute; reflexivity|]. split; [exact C|].
  apply (create_rerun origin_https (VStr "main") no_render world_after_first_run
           (fst (source_git origin_https (VStr "main") Backend_init))
           "terraform.github.com.org.sub" "github.com/org.sub/myrepo");
    [vm_compute; reflexivity | vm_compute; reflexivity | vm_compute; reflexivity
    | vm_compute; reflexivity | vm_compute; reflexivity | vm_compute; reflexivity
    | vm_compute; reflexivity | exact C].
Defined.




(** ** What [source_git] derives *)

(** [re.sub] with an empty replacement only deletes. *)
Lemma sub_from_deletes (P : ascii -> Prop) (r : regex) (rest : list ascii) :
  Forall P rest -> forall skip i, Forall P (sub_from r [] skip i rest).
Proof.
  induction 1 as [|c rest Hc Hrest IH]; intros skip i.
  - destruct skip; cbn [sub_from]; [|constructor].
    destruct (match_at r false i []) as [j|]; [|constructor].
    destruct (j =? i)%nat; [|constructor].
    destruct (match_at r true i []); constructor.
  - destruct skip; cbn [sub_from]; [|apply IH].
    destruct (match_at r false i (c :: rest)) as [j|]; [|constructor; [exact Hc|apply IH]].
    destruct (j =? i)%nat; [|apply IH].
    destruct (match_at r true i (c :: rest)); cbn [app];
      [apply IH | constructor; [exact Hc|apply IH]].
Qed.

Lemma re_sub_deletes (P : ascii -> Prop) (r : regex) (s : string) :
  Forall P (chars s) -> Forall P (chars (re_sub r EmptyString s)).
Proof.
  intros H. unfold re_sub, chars. rewrite list_ascii_of_string_of_list_ascii.
  apply sub_from_deletes. exact H.
Qed.

Section Pieces.

Variable P : ascii -> Prop.

(** The pieces of a split are made of the characters of the string. *)
Lemma split_chars_keeps (sep : ascii) (l : list ascii) :
  Forall P l -> Forall (Forall P) (split_chars sep l).
Proof.
  induction 1 as [|c l Hc Hl IH]; cbn [split_chars].
  - repeat constructor.
  - destruct (Ascii.eqb c sep); [constructor; [constructor|exact IH]|].
    destruct (split_chars sep l) as [|piece pieces]; [repeat constructor; exact Hc|].
    inversion IH; subst. constructor; [constructor; assumption|assumption].
Qed.

Lemma split_keeps (sep : ascii) (s : string) :
  Forall P (chars s) -> Forall (fun p => Forall P (chars p)) (split sep s).
Proof.
  intros H. unfold split. apply Forall_map.
  eapply Forall_impl; [exact (split_chars_keeps sep _ H)|].
  intros l Hl. unfold chars. cbn. rewrite list_ascii_of_string_of_list_ascii. exact Hl.
Qed.

Lemma join_keeps (sep : string) (pieces : list string) :
  Forall P (chars sep) ->
  Forall (fun p => Forall P (chars p)) pieces ->
  Forall P (chars (join sep pieces)).
Proof.
  intros Hsep. induction 1 as [|p pieces Hp Hps IH]; [constructor|].
  cbn [join]. destruct pieces as [|q pieces]; [exact Hp|].
  rewrite !chars_append. apply Forall_app. split; [exact Hp|].
  apply Forall_app. split; [exact Hsep|exact IH].
Qed.

Lemma but_last_keeps {A} (Q : A -> Prop) (l : list A) :
  Forall Q l -> Forall Q (but_last l).
Proof.
  unfold but_last. induction 1 as [|x l Hx Hl IH]; [constructor|].
  cbn [removelast]. destruct l; [constructor|]. constructor; assumption.
Qed.

Lemma from_1_keeps {A} (Q : A -> Prop) (l : list A) :
  Forall Q l -> Forall Q (from_1 l).
Proof. unfold from_1. destruct 1; [constructor|assumption]. Qed.

Lemma first_of_keeps (l : list string) :
  Forall (fun p => Forall P (chars p)) l -> Forall P (chars (first_of l)).
Proof. unfold first_of. destruct 1; [constructor|assumption]. Qed.

Lemma last_of_keeps (l : list string) :
  Forall (fun p => Forall P (chars p)) l -> Forall P (chars (last_of l)).
Proof.
  unfold last_of. induction 1 as [|x l Hx Hl IH]; [constructor|].
  cbn [List.last]. destruct l; assumption.
Qed.

End Pieces.

(** No piece of a split holds the separator. *)
Lemma split_chars_free (sep : ascii) (l : list ascii) :
  Forall (Forall (fun c => c <> sep)) (split_chars sep l).
Proof.
  induction l as [|c l IH]; cbn [split_chars].
  - repeat constructor.
  - destruct (Ascii.eqb_spec c sep) as [->|Hne]; [constructor; [constructor|exact IH]|].
    destruct (split_chars sep l) as [|piece pieces]; [repeat constructor; exact Hne|].
    inversion IH; subst. constructor; [constructor; assumption|assumption].
Qed.

Lemma split_free (sep : ascii) (s : string) :
  Forall (fun p => Forall (fun c => c <> sep) (chars p)) (split sep s).
Proof.
  unfold split. apply Forall_map.
  eapply Forall_impl; [exact (split_chars_free sep _)|].
  intros l Hl. unfold chars. cbn. rewrite list_ascii_of_string_of_list_ascii. exact Hl.
Qed.

(** A string without the separator is its own single piece, and a
    separator after such a string starts the next piece. *)
Lemma split_chars_whole (sep : ascii) (l : list ascii) :
  Forall (fun c => c <> sep) l -> split_chars sep l = [l].
Proof.
  induction 1 as [|c l Hc Hl IH]; cbn [split_chars]; [reflexivity|].
  destruct (Ascii.eqb_spec c sep); [contradiction|]. rewrite IH. reflexivity.
Qed.

Lemma split_chars_piece (sep : ascii) (l rest : list ascii) :
  Forall (fun c => c <> sep) l ->
  split_chars sep (l ++ sep :: rest) = l :: split_chars sep rest.
Proof.
  induction 1 as [|c l Hc Hl IH]; cbn [split_chars app].
  - rewrite Ascii.eqb_refl. reflexivity.
  - destruct (Ascii.eqb_spec c sep); [contradiction|]. rewrite IH. reflexivity.
Qed.

Lemma string_of_chars (s : string) : string_of_list_ascii (chars s) = s.
Proof. apply string_of_list_ascii_of_string. Qed.

(** [(a + '/' + b + '/' + c).split('/')] for three strings without a
    slash. *)
Lemma split_three (sep : ascii) (a b c : string) :
  Forall (fun x => x <> sep) (chars a) ->
  Forall (fun x => x <> sep) (chars b) ->
  Forall (fun x => x <> sep) (chars c) ->
  split sep (a +:+ String sep EmptyString +:+ b +:+ String sep EmptyString +:+ c) =
  [a; b; c].
Proof.
  intros Ha Hb Hc. unfold split.
  change (list_ascii_of_string ?s) with (chars s).
  rewrite !chars_append. cbn [chars list_ascii_of_string app].
  change (list_ascii_of_string ?s) with (chars s).
  rewrite (split_chars_piece sep _ _ Ha), (split_chars_piece sep _ _ Hb),
    (split_chars_whole sep _ Hc).
  cbn [map]. rewrite !string_of_chars. reflexivity.
Qed.

Lemma lower_char_not_upper (c : ascii) : in_class upper (lower_char c) = false.
Proof.
  destruct c as [[] [] [] [] [] [] [] []]; vm_compute; reflexivity.
Qed.

Lemma lower_not_upper (s : string) :
  Forall (fun c => in_class upper c = false) (chars (lower s)).
Proof.
  unfold lower, chars. rewrite list_ascii_of_string_of_list_ascii.
  apply Forall_map. apply Forall_true. intros c. apply lower_char_not_upper.
Qed.

Lemma forallb_Forall_chars (f : ascii -> bool) (s : string) :
  Forall (fun c => f c = true) (chars s) -> forallb f (chars s) = true.
Proof.
  intros H. apply forallb_forall. intros c Hin.
  rewrite Forall_forall in H. apply H. apply list_elem_of_In. exact Hin.
Qed.

Lemma no_slash_intro (s : string) :
  Forall (fun c => c <> "/"%char) (chars s) -> no_slash s = true.
Proof.
  intros H. apply forallb_Forall_chars.
  eapply Forall_impl; [exact H|]. intros c Hc. cbn beta.
  destruct (Ascii.eqb_spec c "/"); [contradiction|reflexivity].
Qed.

Lemma no_upper_intro (s : string) :
  Forall (fun c => in_class upper c = false) (chars s) -> no_upper s = true.
Proof.
  intros H. apply forallb_Forall_chars.
  eapply Forall_impl; [exact H|]. intros c Hc. cbn beta. rewrite Hc. reflexivity.
Qed.

(** What a successful [source_git] leaves in the object, in terms of the
    host, the path and the name of the repository that it finds. *)
Lemma source_git_parts (remote_read current_branch : pyval) (self b : Backend) :
  source_git remote_read current_branch self = (b, Ok tt) ->
  exists host path repo,
    (Forall (fun c => c <> "/"%char) (chars host) /\
     Forall (fun c => c <> "/"%char) (chars path) /\
     Forall (fun c => c <> "/"%char) (chars repo)) /\
    (Forall (fun c => in_class upper c = false) (chars host) /\
     Forall (fun c => in_class upper c = false) (chars path) /\
     Forall (fun c => in_class upper c = false) (chars repo)) /\
    dict_lookup (keyvalue_map b) "repo_name" = Some (VStr repo) /\
    dict_lookup (keyvalue_map b) "bucket_uri" =
      Some (VStr (host +:+ "/" +:+ path +:+ "/" +:+ repo)) /\
    dict_lookup (keyvalue_map b) "branch_name" = Some current_branch /\
    isinstance_str current_branch = true /\
    MakeBackend.table_name b = VStr ("terraform." +:+ host +:+ "." +:+ path).
Proof.
  unfold source_git.
  destruct remote_read as [| | | | |d]; try discriminate.
  destruct (default VNone (dict_lookup d "origin")) as [| | |url| |]; try discriminate.
  destruct (isinstance_str current_branch) eqn:Hbr; cbn [negb]; [|discriminate].
  intros [= <-].
  set (pieces := split "/" (lower url)).
  set (host_path := re_sub re_uri_vars EmptyString (join "/" (but_last pieces))).
  set (host := first_of (split "/" host_path)).
  set (path := join "." (from_1 (split "/" host_path))).
  set (repo := re_sub re_dot_git EmptyString (last_of pieces)).
  assert (Hh : Forall (fun c => c <> "/"%char) (chars host)).
  { apply first_of_keeps, split_free. }
  assert (Hp : Forall (fun c => c <> "/"%char) (chars path)).
  { apply join_keeps; [repeat constructor; discriminate|].
    apply from_1_keeps, split_free. }
  assert (Hr : Forall (fun c => c <> "/"%char) (chars repo)).
  { apply re_sub_deletes, last_of_keeps, split_free. }
  assert (Lp : Forall (fun p => Forall (fun c => in_class upper c = false) (chars p)) pieces).
  { apply split_keeps, lower_not_upper. }
  assert (Lhp : Forall (fun c => in_class upper c = false) (chars host_path)).
  { apply re_sub_deletes, join_keeps; [repeat constructor|].
    apply but_last_keeps, Lp. }
  exists host, path, repo.
  split; [auto|]. split.
  { split; [apply first_of_keeps, split_keeps, Lhp|].
    split; [|apply re_sub_deletes, last_of_keeps, Lp].
    apply join_keeps; [repeat constructor|]. apply from_1_keeps, split_keeps, Lhp. }
  cbn [keyvalue_map MakeBackend.table_name].
  split; [rewrite !dict_lookup_set_ne by discriminate; apply dict_lookup_set_eq|].
  split; [rewrite dict_lookup_set_ne by discriminate; apply dict_lookup_set_eq|].
  split; [apply dict_lookup_set_eq|]. split; [reflexivity|].
  rewrite (split_three "/" host path repo Hh Hp Hr). reflexivity.
Qed.

(** X18: what [source_git] derives has a fixed shape.  The bucket_uri is
    [host/path/repo] for three strings without a slash, repo_name is
    [repo], and table_name is [terraform.host.path]: it is made of the
    host and the path of the bucket_uri, and neither the name of the
    repository nor the branch is part of it. *)
Theorem source_git_shape (remote_read current_branch : pyval) (self b : Backend) :
  source_git remote_read current_branch self = (b, Ok tt) ->
  exists host path repo,
    no_slash host = true /\ no_slash path = true /\ no_slash repo = true /\
    dict_lookup (keyvalue_map b) "repo_name" = Some (VStr repo) /\
    dict_lookup (keyvalue_map b) "bucket_uri" =
      Some (VStr (host +:+ "/" +:+ path +:+ "/" +:+ repo)) /\
    MakeBackend.table_name b = VStr ("terraform." +:+ host +:+ "." +:+ path).
Proof.
  intros H.
  destruct (source_git_parts _ _ _ _ H)
    as (host & path & repo & (Hh & Hp & Hr) & _ & Er & Eu & _ & _ & Et).
  exists host, path, repo.
  repeat (split; [auto using no_slash_intro|]). exact Et.
Qed.

Lemma source_git_shape_witness :
  let b := fst (source_git origin_https (VStr "main") Backend_init) in
  source_git origin_https (VStr "main") Backend_init = (b, Ok tt) /\
  exists host path repo,
    no_slash host = true /\ no_slash path = true /\ no_slash repo = true /\
    dict_lookup (keyvalue_map b) "repo_name" = Some (VStr repo) /\
    dict_lookup (keyvalue_map b) "bucket_uri" =
      Some (VStr (host +:+ "/" +:+ path +:+ "/" +:+ repo)) /\
    MakeBackend.table_name b = VStr ("terraform." +:+ host +:+ "." +:+ path).
Proof.
  cbv zeta. split; [vm_compute; reflexivity|].
  apply (source_git_shape origin_https (VStr "main") Backend_init).
  vm_compute; reflexivity.
Defined.

(** X19: [source_git] lower-cases the URL before anything else, and
    nothing it does afterwards brings an upper-case letter back: none of
    repo_name, bucket_uri and table_name has a letter A-Z. *)
Theorem source_git_lower_case (remote_read current_branch : pyval) (self b : Backend) :
  source_git remote_read current_branch self = (b, Ok tt) ->
  exists repo uri tn,
    dict_lookup (keyvalue_map b) "repo_name" = Some (VStr repo) /\
    dict_lookup (keyvalue_map b) "bucket_uri" = Some (VStr uri) /\
    MakeBackend.table_name b = VStr tn /\
    no_upper repo = true /\ no_upper uri = true /\ no_upper tn = true.
Proof.
  intros H.
  destruct (source_git_parts _ _ _ _ H)
    as (host & path & repo & _ & (Hh & Hp & Hr) & Er & Eu & _ & _ & Et).
  eexists _, _, _. split; [exact Er|]. split; [exact Eu|]. split; [exact Et|].
  split; [apply no_upper_intro, Hr|].
  split; apply no_upper_intro; rewrite !chars_append;
    repeat (apply Forall_app; split); try assumption; repeat constructor.
Qed.

Lemma source_git_lower_case_witness :
  let shouting := VDict [("origin", VStr "HTTPS://GitHub.com/Org/Sub/MyRepo.git")] in
  let b := fst (source_git shouting (VStr "main") Backend_init) in
  source_git shouting (VStr "main") Backend_init = (b, Ok tt) /\
  exists repo uri tn,
    dict_lookup (keyvalue_map b) "repo_name" = Some (VStr repo) /\
    dict_lookup (keyvalue_map b) "bucket_uri" = Some (VStr uri) /\
    MakeBackend.table_name b = VStr tn /\
    no_upper repo = true /\ no_upper uri = true /\ no_upper tn = true.
Proof.
  cbv zeta. split; [vm_compute; reflexivity|].
  apply (source_git_lower_case
           (VDict [("origin", VStr "HTTPS://GitHub.com/Org/Sub/MyRepo.git")])
           (VStr "main") Backend_init).
  vm_compute; reflexivity.
Defined.

(** X20: the two ways in which [source_git] fails.  Without a URL (the
    remote is no dict, or its origin no string) it raises ValueError and
    the object is as it was.  With a URL and a branch that is no string it
    raises ValueError too, but only after repo_name, bucket_uri and the
    branch value are stored; table_name is not set. *)
Theorem source_git_failures (remote_read current_branch : pyval) (self : Backend) :
  let origin :=
    match remote_read with
    | VDict d => default VNone (dict_lookup d "origin")
    | _ => VNone
    end in
  isinstance_str origin && isinstance_str current_branch = false ->
  exists b reason,
    source_git remote_read current_branch self = (b, Raise (Exn ValueError reason)) /\
    MakeBackend.table_name b = MakeBackend.table_name self /\
    (if isinstance_str origin
     then is_Some (dict_lookup (keyvalue_map b) "repo_name") /\
          is_Some (dict_lookup (keyvalue_map b) "bucket_uri") /\
          dict_lookup (keyvalue_map b) "branch_name" = Some current_branch
     else b = self).
Proof.
  cbv zeta. unfold source_git.
  destruct remote_read as [| | | | |d]; cbn [isinstance_str andb];
    try (intros _; eexists _, _; split; [reflexivity|split; reflexivity]).
  destruct (default VNone (dict_lookup d "origin")) as [| | |url| |];
    cbn [isinstance_str andb];
    try (intros _; eexists _, _; split; [reflexivity|split; reflexivity]).
  intros ->. cbn [negb]. eexists _, _. split; [reflexivity|].
  cbn [MakeBackend.table_name keyvalue_map]. split; [reflexivity|].
  split; [rewrite !dict_lookup_set_ne by discriminate; rewrite dict_lookup_set_eq; eauto|].
  split; [rewrite dict_lookup_set_ne by discriminate; rewrite dict_lookup_set_eq; eauto|].
  apply dict_lookup_set_eq.
Qed.

Lemma source_git_failures_witness :
  isinstance_str (VStr "https://github.com/org/sub/myrepo.git") &&
    isinstance_str VNone = false /\
  exists b reason,
    source_git origin_https VNone Backend_init = (b, Raise (Exn ValueError reason)) /\
    MakeBackend.table_name b = MakeBackend.table_name Backend_init /\
    is_Some (dict_lookup (keyvalue_map b) "repo_name") /\
    is_Some (dict_lookup (keyvalue_map b) "bucket_uri") /\
    dict_lookup (keyvalue_map b) "branch_name" = Some VNone.
Proof.
  split; [reflexivity|].
  apply (source_git_failures origin_https VNone Backend_init). reflexivity.
Defined.

(** ** [terraform_provider] *)

(** A match consumes a prefix of what is left, made of characters that
    the pattern allows, and hands over to its continuation there. *)
Lemma star_loop_consumes {A} (r : regex) (k : nat -> list ascii -> option A) (x : A) :
  (forall i rest k', run r i rest k' = Some x ->
     exists pre post, rest = pre ++ post /\ forallb (consumes r) pre = true /\
                      k' (i + length pre)%nat post = Some x) ->
  forall fuel i rest,
    star_loop (run r) k fuel i rest = Some x ->
    exists pre post, rest = pre ++ post /\ forallb (consumes r) pre = true /\
                     k (i + length pre)%nat post = Some x.
Proof.
  intros Hr. induction fuel as [|fuel IH]; intros i rest H; cbn [star_loop] in H.
  - exists [], rest. cbn. rewrite Nat.add_0_r. auto.
  - match type of H with
    | match ?b with _ => _ end = _ => destruct b as [y|] eqn:Eb
    end.
    + injection H as ->.
      destruct (Hr _ _ _ Eb) as (pre1 & post1 & -> & F1 & K1).
      destruct (i <? i + length pre1)%nat; [|discriminate K1].
      destruct (IH _ _ K1) as (pre2 & post2 & -> & F2 & K2).
      exists (pre1 ++ pre2), post2. rewrite <- app_assoc. split; [reflexivity|].
      rewrite forallb_app, F1, F2, length_app, Nat.add_assoc. auto.
    + exists [], rest. cbn. rewrite Nat.add_0_r. auto.
Qed.

Lemma run_consumes {A} (r : regex) (x : A) :
  forall i rest k,
    run r i rest k = Some x ->
    exists pre post, rest = pre ++ post /\ forallb (consumes r) pre = true /\
                     k (i + length pre)%nat post = Some x.
Proof.
  assert (Hnil : forall i rest (k : nat -> list ascii -> option A),
             k i rest = Some x ->
             exists pre post, rest = pre ++ post /\ forallb (consumes r) pre = true /\
                              k (i + length pre)%nat post = Some x).
  { intros i rest k H. exists [], rest. cbn. rewrite Nat.add_0_r. auto. }
  clear Hnil.
  induction r as [c| |cls| | | |r1 IH1 r2 IH2|r1 IH1 r2 IH2|r1 IH1];
    intros i rest k H; cbn [run] in H.
  - destruct rest as [|y rest]; [discriminate|].
    destruct (Ascii.eqb y c) eqn:E; [|discriminate].
    exists [y], rest. cbn. rewrite E, Nat.add_1_r. auto.
  - destruct rest as [|y rest]; [discriminate|].
    destruct (Ascii.eqb y newline) eqn:E; [discriminate|].
    exists [y], rest. cbn. rewrite E, Nat.add_1_r. auto.
  - destruct rest as [|y rest]; [discriminate|].
    destruct (in_class cls y) eqn:E; [|discriminate].
    exists [y], rest. cbn. rewrite E, Nat.add_1_r. auto.
  - destruct (i =? 0)%nat; [|discriminate].
    exists [], rest. cbn. rewrite Nat.add_0_r. auto.
  - exists [], rest. cbn. rewrite Nat.add_0_r. split; [reflexivity|]. split; [reflexivity|].
    destruct rest as [|y [|z rest]]; try discriminate; [exact H|].
    destruct (Ascii.eqb y newline); [exact H|discriminate].
  - exists [], rest. cbn. rewrite Nat.add_0_r. auto.
  - destruct (IH1 _ _ _ H) as (pre1 & post1 & -> & F1 & K1).
    destruct (IH2 _ _ _ K1) as (pre2 & post2 & -> & F2 & K2).
    exists (pre1 ++ pre2), post2. rewrite <- app_assoc. split; [reflexivity|].
    rewrite forallb_app, length_app, Nat.add_assoc. split; [|exact K2].
    apply andb_true_iff. split.
    + apply forallb_forall. intros c Hc. cbn [consumes].
      rewrite forallb_forall in F1. rewrite (F1 c Hc). reflexivity.
    + apply forallb_forall. intros c Hc. cbn [consumes].
      rewrite forallb_forall in F2. rewrite (F2 c Hc). apply orb_true_r.
  - destruct (run r1 i rest k) as [y|] eqn:E1.
    + injection H as ->. destruct (IH1 _ _ _ E1) as (pre & post & -> & F & K).
      exists pre, post. split; [reflexivity|]. split; [|exact K].
      apply forallb_forall. intros c Hc. cbn [consumes].
      rewrite forallb_forall in F. rewrite (F c Hc). reflexivity.
    + destruct (IH2 _ _ _ H) as (pre & post & -> & F & K).
      exists pre, post. split; [reflexivity|]. split; [|exact K].
      apply forallb_forall. intros c Hc. cbn [consumes].
      rewrite forallb_forall in F. rewrite (F c Hc). apply orb_true_r.
  - exact (star_loop_consumes r1 k x IH1 _ _ _ H).
Qed.

Lemma match_at_consumes (r : regex) (i j : nat) (rest : list ascii) :
  match_at r false i rest = Some j ->
  exists pre post, rest = pre ++ post /\ forallb (consumes r) pre = true /\
                   j = (i + length pre)%nat.
Proof.
  unfold match_at. intros H.
  assert (H' : run r i rest (fun j _ => Some j) = Some j) by exact H.
  destruct (run_consumes r j _ _ _ H') as (pre & post & E & F & K).
  exists pre, post. split; [exact E|]. split; [exact F|]. congruence.
Qed.

Lemma search_from_consumes (r : regex) (rest : list ascii) :
  forall i m,
    search_from r i rest = Some m ->
    exists skipped pre post,
      rest = skipped ++ pre ++ post /\ forallb (consumes r) pre = true /\
      fst m = (i + length skipped)%nat /\ snd m = (fst m + length pre)%nat.
Proof.
  induction rest as [|c rest IH]; intros i m H; cbn [search_from] in H.
  - destruct (match_at r false i []) as [j|] eqn:E; [|discriminate].
    injection H as <-. destruct (match_at_consumes _ _ _ _ E) as (pre & post & E' & F & ->).
    exists [], pre, post. cbn. rewrite Nat.add_0_r. auto.
  - destruct (match_at r false i (c :: rest)) as [j|] eqn:E.
    + injection H as <-. destruct (match_at_consumes _ _ _ _ E) as (pre & post & E' & F & ->).
      exists [], pre, post. cbn. rewrite Nat.add_0_r. auto.
    + destruct (IH _ _ H) as (skipped & pre & post & -> & F & E1 & E2).
      exists (c :: skipped), pre, post. cbn [app length].
      rewrite E2, E1. split; [reflexivity|]. split; [exact F|]. split; lia.
Qed.

(** The group of a match holds only characters its pattern allows. *)
Lemma group_consumes (r : regex) (s : string) (m : nat * nat) :
  re_search r s = Some m ->
  forallb (consumes r) (chars (group m s)) = true.
Proof.
  unfold re_search, group, chars. intros H.
  destruct (search_from_consumes _ _ _ _ H) as (skipped & pre & post & E & F & E1 & E2).
  rewrite list_ascii_of_string_of_list_ascii, E, E2, E1. cbn [Nat.add].
  rewrite drop_app_length.
  replace (length skipped + length pre - length skipped)%nat with (length pre) by lia.
  rewrite take_app_length. exact F.
Qed.

(** With an alternative [[...]*] in the pattern, [re.sub] leaves no
    character of the class: where one stands, a match that is not empty
    is found. *)
Lemma star_loop_beyond (body : nat -> list ascii -> (nat -> list ascii -> option nat) -> option nat)
    (adv : bool) (i : nat) :
  forall fuel i' rest, (i < i')%nat ->
    exists j,
      star_loop body
        (fun j _ => if adv && (j =? i)%nat then None else Some j) fuel i' rest = Some j.
Proof.
  induction fuel as [|fuel IH]; intros i' rest Hlt; cbn [star_loop].
  - destruct (Nat.eqb_spec i' i); [lia|]. rewrite andb_false_r. eauto.
  - match goal with |- exists j, match ?b with _ => _ end = _ => destruct b end; [eauto|].
    destruct (Nat.eqb_spec i' i); [lia|]. rewrite andb_false_r. eauto.
Qed.

(** The equations of the matcher that the proofs below step with. *)
Lemma run_alt {A} (r1 r2 : regex) (i : nat) (rest : list ascii)
    (k : nat -> list ascii -> option A) :
  run (Alt r1 r2) i rest k =
  match run r1 i rest k with Some x => Some x | None => run r2 i rest k end.
Proof. reflexivity. Qed.

Lemma run_star {A} (r : regex) (i : nat) (rest : list ascii)
    (k : nat -> list ascii -> option A) :
  run (Star r) i rest k = star_loop (run r) k (S (length rest)) i rest.
Proof. reflexivity. Qed.

Lemma star_loop_step {A}
    (body : nat -> list ascii -> (nat -> list ascii -> option A) -> option A)
    (k : nat -> list ascii -> option A) (fuel i : nat) (rest : list ascii) :
  star_loop body k (S fuel) i rest =
  match body i rest
          (fun i' rest' =>
             if (i <? i')%nat then star_loop body k fuel i' rest' else None) with
  | Some x => Some x
  | None => k i rest
  end.
Proof. reflexivity. Qed.

Lemma run_cls {A} (cls : list (ascii * ascii)) (i : nat) (c : ascii)
    (rest : list ascii) (k : nat -> list ascii -> option A) :
  run (Cls cls) i (c :: rest) k = if in_class cls c then k (S i) rest else None.
Proof. reflexivity. Qed.

Lemma match_at_class_char (a : regex) (cls : list (ascii * ascii)) (adv : bool)
    (i : nat) (c : ascii) (rest : list ascii) :
  in_class cls c = true ->
  exists j, match_at (Alt a (Star (Cls cls))) adv i (c :: rest) = Some j.
Proof.
  intros Hc. unfold match_at. rewrite run_alt.
  match goal with |- exists j, match ?b with _ => _ end = _ => destruct b end; [eauto|].
  rewrite run_star, star_loop_step, run_cls, Hc.
  destruct (Nat.ltb_spec i (S i)); [|lia].
  destruct (star_loop_beyond (run (Cls cls)) adv i (length (c :: rest)) (S i) rest)
    as [j ->]; [lia|].
  eauto.
Qed.

Lemma sub_from_drops_class (a : regex) (cls : list (ascii * ascii)) (rest : list ascii) :
  forall skip i,
    Forall (fun c => in_class cls c = false)
      (sub_from (Alt a (Star (Cls cls))) [] skip i rest).
Proof.
  induction rest as [|c rest IH]; intros skip i.
  - destruct skip; cbn [sub_from]; [|constructor].
    destruct (match_at _ false i []) as [j|]; [|constructor].
    destruct (j =? i)%nat; [|constructor].
    destruct (match_at _ true i []); constructor.
  - destruct skip; cbn [sub_from]; [|apply IH].
    destruct (in_class cls c) eqn:Hc.
    + destruct (match_at_class_char a cls false i c rest Hc) as [j ->].
      destruct (j =? i)%nat; [|apply IH].
      destruct (match_at_class_char a cls true i c rest Hc) as [j' ->]. apply IH.
    + destruct (match_at _ false i (c :: rest)) as [j|]; [|constructor; [exact Hc|apply IH]].
      destruct (j =? i)%nat; [|apply IH].
      destruct (match_at _ true i (c :: rest)); cbn [app];
        [apply IH | constructor; [exact Hc|apply IH]].
Qed.

(** What the pattern of the provider consumes and the second pattern
    does not delete is a character of a name. *)
Lemma provider_char (c : ascii) :
  consumes re_provider c = true -> in_class wrapping c = false ->
  in_class name_chars c = true.
Proof.
  destruct c as [[] [] [] [] [] [] [] []]; vm_compute; intros H1 H2;
    first [reflexivity | discriminate H1 | discriminate H2].
Qed.

Lemma provider_name_made (provider_file : string) (file : file_state)
    (warnings : list string) (name : string) :
  terraform_provider provider_file file = (warnings, Ok (Some name)) ->
  (2 <= String.length name <= 31)%nat /\
  forallb (in_class name_chars) (chars name) = true.
Proof.
  unfold terraform_provider.
  destruct file as [| |e|data]; try discriminate.
  set (squeezed := re_sub re_spaces " " (join " " (split newline (strip data)))).
  destruct (re_search re_provider squeezed) as [m|] eqn:Es; [|discriminate].
  set (found := re_sub re_name_wrapping EmptyString (group m squeezed)).
  destruct (String.length found <? 32)%nat eqn:L1; [|discriminate].
  destruct (1 <? String.length found)%nat eqn:L2; [|discriminate].
  cbn [andb]. intros [= _ <-].
  apply Nat.ltb_lt in L1, L2. split; [lia|].
  apply forallb_Forall_chars.
  pose proof (group_consumes _ _ _ Es) as G.
  assert (D : Forall (fun c => consumes re_provider c = true) (chars found)).
  { apply re_sub_deletes. apply Forall_forall. intros c Hc.
    rewrite forallb_forall in G. apply G. apply list_elem_of_In. exact Hc. }
  assert (W : Forall (fun c => in_class wrapping c = false) (chars found)).
  { unfold found, re_sub, chars. rewrite list_ascii_of_string_of_list_ascii.
    apply sub_from_drops_class. }
  rewrite Forall_forall in D, W. apply Forall_forall. intros c Hc.
  apply provider_char; auto.
Qed.

(** *** Reading a provider block *)

Lemma lstrip_chars_spaces (ws l : list ascii) :
  forallb is_space ws = true -> lstrip_chars (ws ++ l) = lstrip_chars l.
Proof.
  induction ws as [|c ws IH]; cbn [forallb app lstrip_chars]; [reflexivity|].
  intros H. apply andb_true_iff in H as [-> H]. exact (IH H).
Qed.

Lemma lstrip_chars_stops (a b : list ascii) (c : ascii) :
  is_space c = false -> exists a', lstrip_chars (a ++ c :: b) = a' ++ c :: b.
Proof.
  intros Hc. induction a as [|x a [a' IH]]; cbn [app lstrip_chars].
  - exists []. rewrite Hc. reflexivity.
  - destruct (is_space x); [exists a'; exact IH|]. exists (x :: a). reflexivity.
Qed.

(** [strip] of a text that holds, after white space, something that
    starts and ends with a character that is no white space. *)
Lemma strip_around (ws body rest : list ascii) (first last : ascii) :
  forallb is_space ws = true ->
  is_space first = false -> is_space last = false ->
  exists rest',
    chars (strip (string_of_list_ascii (ws ++ (first :: body ++ [last]) ++ rest))) =
    (first :: body ++ [last]) ++ rest'.
Proof.
  intros Hws Hf Hl. unfold strip, chars.
  rewrite !list_ascii_of_string_of_list_ascii.
  rewrite (lstrip_chars_spaces ws _ Hws). cbn [app lstrip_chars]. rewrite Hf.
  change (first :: (body ++ [last]) ++ rest) with ((first :: body ++ [last]) ++ rest).
  rewrite rev_app_distr.
  change (first :: body ++ [last]) with ((first :: body) ++ [last]).
  rewrite (rev_app_distr (first :: body) [last]). cbn [rev app].
  destruct (lstrip_chars_stops (rev rest) (rev body ++ [first]) last Hl) as [a' ->].
  exists (rev a'). rewrite rev_app_distr. cbn [rev]. rewrite rev_app_distr.
  cbn [rev app]. rewrite rev_involutive, <- !app_assoc. reflexivity.
Qed.

Lemma split_chars_nonempty (sep : ascii) (l : list ascii) : split_chars sep l <> [].
Proof.
  destruct l as [|c l]; cbn [split_chars]; [discriminate|].
  destruct (Ascii.eqb c sep); [discriminate|].
  destruct (split_chars sep l); discriminate.
Qed.

(** [' '.join(s.split(newline))] puts a space for each newline. *)
Lemma join_split_newline (l : list ascii) :
  chars (join " " (map string_of_list_ascii (split_chars newline l))) =
  map (fun c => if Ascii.eqb c newline then " "%char else c) l.
Proof.
  induction l as [|c l IH]; cbn [split_chars map]; [reflexivity|].
  pose proof (split_chars_nonempty newline l) as Hne.
  destruct (Ascii.eqb c newline).
  - cbn [map join]. destruct (split_chars newline l) as [|p ps]; [contradiction|].
    cbn [map] in *. rewrite <- IH. reflexivity.
  - destruct (split_chars newline l) as [|p ps]; [contradiction|].
    cbn [map] in *. rewrite <- IH. cbn [join]. destruct ps as [|p' ps]; cbn [map]; reflexivity.
Qed.

Lemma map_newline_free (l : list ascii) :
  Forall (fun c => c <> newline) l ->
  map (fun c => if Ascii.eqb c newline then " "%char else c) l = l.
Proof.
  induction 1 as [|c l Hc Hl IH]; cbn [map]; [reflexivity|].
  destruct (Ascii.eqb_spec c newline); [contradiction|]. rewrite IH. reflexivity.
Qed.

(** [re.sub(' +', ' ', s)] copies what is no space, and a single space. *)
Lemma squeeze_copies (c : ascii) (rest : list ascii) (i : nat) :
  c <> " "%char ->
  sub_from re_spaces [" "%char] 0 i (c :: rest) =
  c :: sub_from re_spaces [" "%char] 0 (S i) rest.
Proof.
  intros Hc. cbn [sub_from]. unfold match_at, re_spaces, Plus. cbn [run].
  destruct (Ascii.eqb_spec c " "); [contradiction|]. reflexivity.
Qed.

Lemma squeeze_single (d : ascii) (rest : list ascii) (i : nat) :
  d <> " "%char ->
  sub_from re_spaces [" "%char] 0 i (" "%char :: d :: rest) =
  " "%char :: sub_from re_spaces [" "%char] 0 (S i) (d :: rest).
Proof.
  intros Hd.
  assert (E : forall adv, match_at re_spaces adv i (" "%char :: d :: rest) = Some (S i)).
  { intros adv. unfold match_at, re_spaces, Plus. cbn [run]. cbn [Ascii.eqb Bool.eqb].
    rewrite star_loop_step. cbn [run].
    destruct (Ascii.eqb_spec d " "); [contradiction|].
    destruct (Nat.eqb_spec (S i) i); [lia|]. rewrite andb_false_r. reflexivity. }
  cbn [sub_from]. rewrite (E false).
  destruct (Nat.eqb_spec (S i) i); [lia|].
  replace (S i - i - 1)%nat with 0%nat by lia. reflexivity.
Qed.

Lemma squeeze_run (l rest : list ascii) :
  Forall (fun c => c <> " "%char) l ->
  forall i,
    sub_from re_spaces [" "%char] 0 i (l ++ rest) =
    l ++ sub_from re_spaces [" "%char] 0 (i + length l) rest.
Proof.
  induction 1 as [|c l Hc Hl IH]; intros i; cbn [app length].
  - rewrite Nat.add_0_r. reflexivity.
  - rewrite (squeeze_copies c _ i Hc), IH.
    replace (i + S (length l))%nat with (S i + length l)%nat by lia. reflexivity.
Qed.

Lemma quote_facts (q : ascii) :
  in_class quotes q = true ->
  q <> " "%char /\ q <> "r"%char /\ q <> newline /\ is_space q = false /\
  in_class wrapping q = true /\ in_class name_chars q = false.
Proof.
  destruct q as [[] [] [] [] [] [] [] []]; vm_compute; intros H;
    first [discriminate H | repeat split; discriminate].
Qed.

Lemma name_char_facts (c : ascii) :
  in_class name_chars c = true ->
  c <> " "%char /\ c <> newline /\ in_class wrapping c = false.
Proof.
  destruct c as [[] [] [] [] [] [] [] []]; vm_compute; intros H;
    first [discriminate H | repeat split; discriminate].
Qed.

Lemma run_seq {A} (r1 r2 : regex) (i : nat) (rest : list ascii)
    (k : nat -> list ascii -> option A) :
  run (Seq r1 r2) i rest k = run r1 i rest (fun i' rest' => run r2 i' rest' k).
Proof. reflexivity. Qed.

Lemma run_chr {A} (c x : ascii) (i : nat) (rest : list ascii)
    (k : nat -> list ascii -> option A) :
  run (Chr c) i (x :: rest) k = if Ascii.eqb x c then k (S i) rest else None.
Proof. reflexivity. Qed.

Lemma run_eps {A} (i : nat) (rest : list ascii) (k : nat -> list ascii -> option A) :
  run Eps i rest k = k i rest.
Proof. reflexivity. Qed.

(** A literal matches exactly itself. *)
Lemma run_lit_matches {A} (s rest : list ascii) (k : nat -> list ascii -> option A) :
  forall i, run (Lit s) i (s ++ rest) k = k (i + length s)%nat rest.
Proof.
  induction s as [|c s IH]; intros i; cbn [Lit app length].
  - rewrite run_eps, Nat.add_0_r. reflexivity.
  - rewrite run_seq, run_chr, Ascii.eqb_refl, IH.
    replace (S i + length s)%nat with (i + S (length s))%nat by lia. reflexivity.
Qed.

Lemma run_lit_sound {A} (s : list ascii) (k : nat -> list ascii -> option A) (x : A) :
  forall i rest,
    run (Lit s) i rest k = Some x ->
    exists tail, rest = s ++ tail /\ k (i + length s)%nat tail = Some x.
Proof.
  induction s as [|c s IH]; intros i rest H; cbn [Lit] in H.
  - rewrite run_eps in H. exists rest. cbn. rewrite Nat.add_0_r. auto.
  - rewrite run_seq in H. destruct rest as [|y rest]; [discriminate H|].
    rewrite run_chr in H. destruct (Ascii.eqb_spec y c) as [->|]; [|discriminate H].
    destruct (IH _ _ H) as (tail & -> & K). exists tail. split; [reflexivity|].
    cbn [length]. replace (i + S (length s))%nat with (S i + length s)%nat by lia.
    exact K.
Qed.

(** A star over a class takes all the characters of the class that come
    first; when what follows the star matches there, that is the match. *)
Lemma star_cls_greedy {A} (cls : list (ascii * ascii)) (rest : list ascii)
    (k : nat -> list ascii -> option A) (x : A) :
  match rest with [] => True | d :: _ => in_class cls d = false end ->
  forall n fuel i,
    forallb (in_class cls) n = true ->
    (length n < fuel)%nat ->
    k (i + length n)%nat rest = Some x ->
    star_loop (run (Cls cls)) k fuel i (n ++ rest) = Some x.
Proof.
  intros Hrest. induction n as [|c n IH]; intros fuel i Hn Hfuel Hk;
    (destruct fuel as [|fuel]; [cbn [length] in Hfuel; lia|]);
    rewrite star_loop_step; cbn [app length forallb] in *.
  - rewrite Nat.add_0_r in Hk. destruct rest as [|d rest]; [exact Hk|].
    rewrite run_cls, Hrest. exact Hk.
  - apply andb_true_iff in Hn as [Hc Hn]. rewrite run_cls, Hc.
    destruct (Nat.ltb_spec i (S i)); [|lia].
    rewrite (IH fuel (S i) Hn); [reflexivity|lia|].
    replace (S i + length n)%nat with (i + S (length n))%nat by lia. exact Hk.
Qed.

Lemma chars_provider_block (q1 q2 : ascii) (name : string) :
  chars (provider_block q1 name q2) =
  chars "provider " ++ q1 :: chars name ++ [q2; " "; "{"]%char.
Proof.
  unfold provider_block. rewrite !chars_append.
  change (chars (String q1 name)) with (q1 :: chars name).
  reflexivity.
Qed.

(** The pattern of the provider matches a block where it starts, up to
    its brace. *)
Lemma match_at_provider_block (q1 q2 : ascii) (n rest : list ascii) :
  in_class quotes q1 = true -> in_class quotes q2 = true ->
  forallb (in_class name_chars) n = true ->
  match_at re_provider false 0
    ((chars "provider " ++ q1 :: n ++ [q2; " "; "{"]%char) ++ rest) =
  Some (length (chars "provider " ++ q1 :: n ++ [q2; " "; "{"]%char)).
Proof.
  intros H1 H2 Hn. destruct (quote_facts q2 H2) as (_ & _ & _ & _ & _ & Hq2).
  set (total := length (chars "provider " ++ q1 :: n ++ [q2; " "; "{"]%char)).
  assert (E : (chars "provider " ++ q1 :: n ++ [q2; " "; "{"]%char) ++ rest =
              chars "provider " ++ q1 :: n ++ q2 :: " "%char :: "{"%char :: rest).
  { rewrite <- app_assoc. cbn [app]. rewrite <- app_assoc. reflexivity. }
  rewrite E. unfold match_at, re_provider, Opt.
  rewrite run_seq, run_alt.
  match goal with
  | |- context [run (Chr " "%char) ?i ?l ?k] =>
      change (run (Chr " "%char) i l k) with (@None nat)
  end.
  rewrite run_eps, run_seq, run_lit_matches, run_seq, run_cls, H1, run_seq, run_star.
  rewrite (star_cls_greedy name_chars (q2 :: " "%char :: "{"%char :: rest) _ total);
    [reflexivity | exact Hq2 | exact Hn | rewrite length_app; cbn [length]; lia |].
  rewrite run_seq, run_cls, H2, run_seq, run_alt, run_chr.
  cbn [Ascii.eqb Bool.eqb]. rewrite run_chr. cbn [Ascii.eqb Bool.eqb andb].
  f_equal. unfold total. rewrite !length_app. cbn [length chars list_ascii_of_string].
  rewrite !length_app. cbn [length]. lia.
Qed.

Lemma search_from_here (r : regex) (i j : nat) (rest : list ascii) :
  match_at r false i rest = Some j -> search_from r i rest = Some (i, j).
Proof. intros H. destruct rest; cbn [search_from]; rewrite H; reflexivity. Qed.

(** How [re.sub] steps: over a match that is not empty, over a position
    where only the empty match is found, and at the end. *)
Lemma sub_from_skip (r : regex) (repl l rest : list ascii) :
  forall i,
    sub_from r repl (length l) i (l ++ rest) =
    sub_from r repl 0 (i + length l) rest.
Proof.
  induction l as [|c l IH]; intros i; cbn [length app].
  - rewrite Nat.add_0_r. reflexivity.
  - cbn [sub_from]. rewrite IH.
    replace (i + S (length l))%nat with (S i + length l)%nat by lia. reflexivity.
Qed.

Lemma sub_from_replace (r : regex) (repl : list ascii) (c : ascii)
    (l rest : list ascii) (i : nat) :
  match_at r false i ((c :: l) ++ rest) = Some (i + S (length l))%nat ->
  sub_from r repl 0 i ((c :: l) ++ rest) =
  repl ++ sub_from r repl 0 (i + S (length l)) rest.
Proof.
  intros H. cbn [app] in *. cbn [sub_from]. rewrite H.
  destruct (Nat.eqb_spec (i + S (length l)) i); [lia|].
  replace (i + S (length l) - i - 1)%nat with (length l) by lia.
  rewrite sub_from_skip.
  replace (i + S (length l))%nat with (S i + length l)%nat by lia. reflexivity.
Qed.

Lemma sub_from_keep (r : regex) (repl : list ascii) (c : ascii)
    (rest : list ascii) (i : nat) :
  match_at r false i (c :: rest) = Some i ->
  match_at r true i (c :: rest) = None ->
  sub_from r repl 0 i (c :: rest) = repl ++ c :: sub_from r repl 0 (S i) rest.
Proof.
  intros H0 H1. cbn [sub_from]. rewrite H0, Nat.eqb_refl, H1. reflexivity.
Qed.

Lemma sub_from_end (r : regex) (i : nat) : sub_from r [] 0 i [] = [].
Proof.
  cbn [sub_from]. destruct (match_at r false i []) as [j|]; [|reflexivity].
  destruct (j =? i)%nat; [|reflexivity].
  destruct (match_at r true i []); reflexivity.
Qed.

(** Two ways to cut a list at an element, the first cut at its first
    occurrence. *)
Lemma split_at_first (x : ascii) (l1 l2 : list ascii) :
  Forall (fun c => c <> x) l1 ->
  forall a b,
    l1 ++ x :: l2 = a ++ x :: b ->
    (a = l1 /\ b = l2) \/ exists a', a = l1 ++ x :: a' /\ l2 = a' ++ x :: b.
Proof.
  induction 1 as [|c l1 Hc Hl IH]; intros a b E; cbn [app] in E.
  - destruct a as [|y a]; cbn [app] in E.
    + injection E as <-. left. auto.
    + injection E as <- E. right. exists a. auto.
  - destruct a as [|y a]; cbn [app] in E.
    + injection E as E _. congruence.
    + injection E as <- E. destruct (IH _ _ E) as [[-> ->]|(a' & -> & ->)].
      * left. auto.
      * right. exists a'. auto.
Qed.

(** The word [provider ] does not start inside or after the name. *)
Lemma no_provider_after (l pre tail : list ascii) (q2 : ascii) :
  Forall (fun c => c <> " "%char) l -> q2 <> "r"%char -> q2 <> " "%char ->
  l ++ [q2; " "; "{"]%char <> pre ++ chars "provider " ++ tail.
Proof.
  intros Hl Hr Hs E.
  assert (E' : (l ++ [q2]) ++ " "%char :: ["{"%char] =
               (pre ++ chars "provider") ++ " "%char :: tail).
  { rewrite <- !app_assoc. exact E. }
  apply split_at_first in E' as [[E1 _]|(a' & _ & E2)].
  - change (chars "provider") with (chars "provide" ++ ["r"%char]) in E1.
    rewrite app_assoc in E1. apply app_inj_tail in E1 as [_ E1]. congruence.
  - destruct a' as [|y [|z a']]; discriminate E2.
  - apply Forall_app. split; [exact Hl|]. repeat constructor. exact Hs.
Qed.

(** In a block, it starts at the start only. *)
Lemma provider_once (q1 q2 : ascii) (n pre tail : list ascii) :
  Forall (fun c => c <> " "%char) (q1 :: n) -> q2 <> "r"%char -> q2 <> " "%char ->
  chars "provider " ++ q1 :: n ++ [q2; " "; "{"]%char =
    pre ++ chars "provider " ++ tail ->
  pre = [].
Proof.
  intros Hn Hr Hs E.
  assert (E' : chars "provider" ++
                 " "%char :: (((q1 :: n) ++ [q2]) ++ " "%char :: ["{"%char]) =
               (pre ++ chars "provider") ++ " "%char :: tail).
  { rewrite <- !app_assoc. exact E. }
  apply split_at_first in E' as [[E1 _]|(a' & E1 & E2)].
  - apply (f_equal (@length ascii)) in E1. rewrite length_app in E1.
    destruct pre; [reflexivity|]. cbn [length] in E1. lia.
  - exfalso. apply split_at_first in E2 as [[-> _]|(a'' & _ & E3)].
    + change (chars "provider") with (chars "provide" ++ ["r"%char]) in E1 at 1.
      rewrite !app_comm_cons, !app_assoc in E1.
      apply app_inj_tail in E1 as [_ E1]. congruence.
    + destruct a'' as [|y [|z a'']]; discriminate E3.
    + apply Forall_app. split; [exact Hn|]. repeat constructor. exact Hs.
  - repeat constructor; discriminate.
Qed.

(** Where the first alternative of the second pattern matches, the word
    [provider ] stands in what is left. *)
Lemma provider_alt_sound (adv : bool) (i0 i j : nat) (l : list ascii) :
  run (Seq (Star Dot) (Lit (chars "provider "))) i l
    (fun j _ => if adv && (j =? i0)%nat then None else Some j) = Some j ->
  exists pre tail,
    l = pre ++ chars "provider " ++ tail /\ j = (i + length pre + 9)%nat.
Proof.
  intros H. rewrite run_seq in H.
  apply run_consumes in H as (pre & post & -> & _ & H).
  apply run_lit_sound in H as (tail & -> & H).
  exists pre, tail. split; [reflexivity|].
  destruct (adv && _); [discriminate H|]. injection H as <-. reflexivity.
Qed.

Lemma provider_alt_none (adv : bool) (i0 i : nat) (l : list ascii) :
  (forall pre tail, l <> pre ++ chars "provider " ++ tail) ->
  run (Seq (Star Dot) (Lit (chars "provider "))) i l
    (fun j _ => if adv && (j =? i0)%nat then None else Some j) = None.
Proof.
  intros Hno.
  destruct (run _ i l _) as [j|] eqn:E; [|reflexivity].
  apply provider_alt_sound in E as (pre & tail & E & _). destruct (Hno _ _ E).
Qed.

Section Block.

Variables (q1 q2 : ascii) (n : list ascii).

Hypothesis quote1 : in_class quotes q1 = true.
Hypothesis quote2 : in_class quotes q2 = true.
Hypothesis name_made : forallb (in_class name_chars) n = true.

Lemma name_spaceless : Forall (fun c => c <> " "%char) n.
Proof.
  apply Forall_forall. intros c Hc. rewrite forallb_forall in name_made.
  apply list_elem_of_In in Hc. exact (proj1 (name_char_facts c (name_made c Hc))).
Qed.

Lemma name_suffix_spaceless (l1 l2 : list ascii) :
  n = l1 ++ l2 -> Forall (fun c => c <> " "%char) l2.
Proof.
  intros E. pose proof name_spaceless as H. rewrite E in H.
  apply Forall_app in H. tauto.
Qed.

(** At the start of the block the second pattern takes [provider ]. *)
Lemma wrapping_at_start :
  match_at re_name_wrapping false 0
    ((chars "provider ") ++ q1 :: n ++ [q2; " "; "{"]%char) = Some 9%nat.
Proof.
  destruct (quote_facts q1 quote1) as (S1 & _).
  destruct (quote_facts q2 quote2) as (S2 & R2 & _).
  unfold match_at, re_name_wrapping. rewrite run_alt.
  change (list_ascii_of_string "provider ") with (chars "provider ").
  destruct (run (Seq (Star Dot) (Lit (chars "provider "))) 0 _ _) as [j|] eqn:E.
  - apply (provider_alt_sound false 0) in E as (pre & tail & E & ->).
    apply provider_once in E; [subst pre; reflexivity| |assumption|assumption].
    constructor; [exact S1|exact name_spaceless].
  - exfalso. rewrite run_seq, run_star, star_loop_step in E.
    destruct (run Dot 0 _ _); [discriminate E|].
    rewrite run_lit_matches in E. discriminate E.
Qed.

(** At the first quote it takes the quote. *)
Lemma wrapping_at_quote (c : ascii) (l : list ascii) (i : nat) :
  n = c :: l ->
  match_at re_name_wrapping false i (q1 :: n ++ [q2; " "; "{"]%char) = Some (S i).
Proof.
  intros En.
  destruct (quote_facts q1 quote1) as (S1 & _ & _ & _ & W1 & _).
  destruct (quote_facts q2 quote2) as (S2 & R2 & _).
  unfold match_at, re_name_wrapping. rewrite run_alt.
  change (list_ascii_of_string "provider ") with (chars "provider ").
  rewrite (provider_alt_none false i i).
  - rewrite run_star.
    change (q1 :: n ++ [q2; " "; "{"]%char)
      with ([q1] ++ n ++ [q2; " "; "{"]%char).
    rewrite (star_cls_greedy wrapping _ _ (S i)); [reflexivity| | | |].
    + rewrite En. cbn [app]. apply name_char_facts.
      pose proof name_made as Hm. rewrite En in Hm. cbn [forallb] in Hm.
      apply andb_true_iff in Hm. tauto.
    + cbn [forallb]. rewrite W1. reflexivity.
    + cbn [length app]. lia.
    + cbn [length]. destruct (Nat.eqb_spec (i + 1) i); [lia|].
      cbn [andb]. f_equal. lia.
  - intros pre tail.
    change (q1 :: n ++ [q2; " "; "{"]%char)
      with ((q1 :: n) ++ [q2; " "; "{"]%char).
    apply no_provider_after; [|assumption|assumption].
    constructor; [exact S1|exact name_spaceless].
Qed.

(** At a character of the name it finds the empty match only. *)
Lemma wrapping_in_name (adv : bool) (c : ascii) (l1 l2 : list ascii) (i : nat) :
  n = l1 ++ c :: l2 ->
  match_at re_name_wrapping adv i (c :: l2 ++ [q2; " "; "{"]%char) =
  if adv then None else Some i.
Proof.
  intros En.
  destruct (quote_facts q2 quote2) as (S2 & R2 & _).
  assert (Hc : in_class wrapping c = false).
  { apply name_char_facts. rewrite forallb_forall in name_made.
    apply name_made. rewrite En. apply in_or_app. right. left. reflexivity. }
  unfold match_at, re_name_wrapping. rewrite run_alt.
  change (list_ascii_of_string "provider ") with (chars "provider ").
  rewrite (provider_alt_none adv i i).
  - rewrite run_star, star_loop_step, run_cls, Hc, Nat.eqb_refl.
    destruct adv; reflexivity.
  - intros pre tail.
    change (c :: l2 ++ [q2; " "; "{"]%char)
      with ((c :: l2) ++ [q2; " "; "{"]%char).
    apply no_provider_after; [|assumption|assumption].
    exact (name_suffix_spaceless l1 (c :: l2) En).
Qed.

(** After the name it takes what is left. *)
Lemma wrapping_at_end (i : nat) :
  match_at re_name_wrapping false i [q2; " "; "{"]%char = Some (i + 3)%nat.
Proof.
  destruct (quote_facts q2 quote2) as (S2 & R2 & _ & _ & W2 & _).
  unfold match_at, re_name_wrapping. rewrite run_alt.
  change (list_ascii_of_string "provider ") with (chars "provider ").
  rewrite (provider_alt_none false i i).
  - rewrite run_star.
    change [q2; " "%char; "{"%char] with ([q2; " "; "{"]%char ++ []).
    rewrite (star_cls_greedy wrapping [] _ (i + 3)%nat); [reflexivity|exact I| | |].
    + cbn [forallb]. rewrite W2. reflexivity.
    + cbn [length app]. lia.
    + cbn [length]. destruct (Nat.eqb_spec (i + 3) i); [lia|]. reflexivity.
  - intros pre tail. apply (no_provider_after [] pre tail q2); [constructor|assumption..].
Qed.

Lemma wrapping_keeps_name (l1 l2 : list ascii) :
  n = l1 ++ l2 ->
  forall i,
    sub_from re_name_wrapping [] 0 i (l2 ++ [q2; " "; "{"]%char) = l2.
Proof.
  revert l1. induction l2 as [|c l2 IH]; intros l1 En i; cbn [app].
  - change [q2; " "%char; "{"%char] with ((q2 :: [" "; "{"]%char) ++ []).
    rewrite sub_from_replace; [apply sub_from_end|].
    cbn [length app]. replace (i + 3)%nat with (i + 3)%nat by reflexivity.
    exact (wrapping_at_end i).
  - rewrite sub_from_keep.
    + cbn [app]. f_equal. apply (IH (l1 ++ [c])). rewrite <- app_assoc. exact En.
    + exact (wrapping_in_name false c l1 l2 i En).
    + exact (wrapping_in_name true c l1 l2 i En).
Qed.

(** [re.sub] with the second pattern leaves the name of a block. *)
Lemma wrapping_removed (c : ascii) (l : list ascii) :
  n = c :: l ->
  sub_from re_name_wrapping [] 0 0
    (chars "provider " ++ q1 :: n ++ [q2; " "; "{"]%char) = n.
Proof.
  intros En.
  change (chars "provider " ++ q1 :: n ++ [q2; " "; "{"]%char)
    with (("p"%char :: chars "rovider ") ++ q1 :: n ++ [q2; " "; "{"]%char).
  rewrite sub_from_replace; [|exact wrapping_at_start].
  cbn [app length chars list_ascii_of_string Nat.add].
  change (q1 :: n ++ [q2; " "; "{"]%char)
    with ((q1 :: []) ++ n ++ [q2; " "; "{"]%char).
  rewrite sub_from_replace.
  - cbn [app length]. exact (wrapping_keeps_name [] n eq_refl _).
  - cbn [app length]. replace (9 + 1)%nat with 10%nat by reflexivity.
    exact (wrapping_at_quote c l 9 En).
Qed.

End Block.

(** Squeezing the spaces leaves a block as it is. *)
Lemma squeeze_block (q1 q2 : ascii) (n rest : list ascii) :
  in_class quotes q1 = true -> in_class quotes q2 = true ->
  forallb (in_class name_chars) n = true ->
  exists rest',
    sub_from re_spaces [" "%char] 0 0
      ((chars "provider " ++ q1 :: n ++ [q2; " "; "{"]%char) ++ rest) =
    (chars "provider " ++ q1 :: n ++ [q2; " "; "{"]%char) ++ rest'.
Proof.
  intros H1 H2 Hn.
  destruct (quote_facts q1 H1) as (S1 & _). destruct (quote_facts q2 H2) as (S2 & _).
  pose proof (name_spaceless n Hn) as Sn.
  eexists.
  assert (E : forall t,
             (chars "provider " ++ q1 :: n ++ [q2; " "; "{"]%char) ++ t =
             chars "provider" ++
               " "%char :: q1 :: ((n ++ [q2]) ++ " "%char :: "{"%char :: t)).
  { intros t. rewrite <- !app_assoc. cbn [app]. rewrite <- !app_assoc. reflexivity. }
  rewrite !E.
  rewrite squeeze_run by (repeat constructor; discriminate).
  rewrite squeeze_single by exact S1.
  change (q1 :: (n ++ [q2]) ++ " "%char :: "{"%char :: rest)
    with ((q1 :: n ++ [q2]) ++ " "%char :: "{"%char :: rest).
  rewrite squeeze_run.
  - rewrite squeeze_single by discriminate.
    rewrite squeeze_copies by discriminate. reflexivity.
  - constructor; [exact S1|]. apply Forall_app. split; [exact Sn|].
    repeat constructor. exact S2.
Qed.

Lemma block_newline_free (q1 q2 : ascii) (n : list ascii) :
  in_class quotes q1 = true -> in_class quotes q2 = true ->
  forallb (in_class name_chars) n = true ->
  Forall (fun c => c <> newline)
    (chars "provider " ++ q1 :: n ++ [q2; " "; "{"]%char).
Proof.
  intros H1 H2 Hn.
  destruct (quote_facts q1 H1) as (_ & _ & N1 & _).
  destruct (quote_facts q2 H2) as (_ & _ & N2 & _).
  apply Forall_app. split; [repeat constructor; discriminate|].
  constructor; [exact N1|]. apply Forall_app. split.
  - apply Forall_forall. intros c Hc. rewrite forallb_forall in Hn.
    apply list_elem_of_In in Hc. apply (name_char_facts c (Hn c Hc)).
  - repeat constructor; [exact N2|discriminate|discriminate].
Qed.

Lemma terraform_provider_block (provider_file lead name rest : string) (q1 q2 : ascii) :
  forallb is_space (chars lead) = true ->
  in_class quotes q1 = true -> in_class quotes q2 = true ->
  forallb (in_class name_chars) (chars name) = true ->
  (2 <= String.length name <= 31)%nat ->
  terraform_provider provider_file
    (Holding (lead +:+ provider_block q1 name q2 +:+ rest)) =
  ([], Ok (Some name)).
Proof.
  intros Hlead H1 H2 Hn Hlen.
  set (block := chars "provider " ++ q1 :: chars name ++ [q2; " "; "{"]%char).
  destruct (quote_facts q1 H1) as (_ & _ & _ & Sp1 & _).
  (* strip *)
  assert (Hs : exists r1,
             chars (strip (lead +:+ provider_block q1 name q2 +:+ rest)) = block ++ r1).
  { destruct (strip_around (chars lead)
                (chars "rovider " ++ q1 :: chars name ++ [q2; " "%char])
                (chars rest) "p" "{" Hlead eq_refl eq_refl) as [r1 E].
    assert (Eb : "p"%char :: (chars "rovider " ++ q1 :: chars name ++ [q2; " "%char])
                   ++ ["{"%char] = block).
    { unfold block. cbn [app chars list_ascii_of_string].
      rewrite <- !app_assoc. reflexivity. }
    exists r1. rewrite Eb in E. rewrite <- E. f_equal. f_equal.
    rewrite <- (string_of_chars (lead +:+ provider_block q1 name q2 +:+ rest)).
    f_equal. rewrite !chars_append, chars_provider_block. reflexivity. }
  destruct Hs as [r1 Hs].
  (* newlines *)
  assert (Hc : exists r2,
             chars (join " " (split newline
                      (strip (lead +:+ provider_block q1 name q2 +:+ rest)))) =
             block ++ r2).
  { unfold split. change (list_ascii_of_string ?s) with (chars s).
    rewrite join_split_newline, Hs, map_app.
    rewrite (map_newline_free block) by (apply block_newline_free; assumption).
    eauto. }
  destruct Hc as [r2 Hc].
  (* spaces *)
  destruct (squeeze_block q1 q2 (chars name) r2 H1 H2 Hn) as [r3 Hq].
  fold block in Hq.
  unfold terraform_provider.
  set (squeezed := re_sub re_spaces " "
                     (join " " (split newline
                        (strip (lead +:+ provider_block q1 name q2 +:+ rest))))).
  assert (Hsq : chars squeezed = block ++ r3).
  { unfold squeezed, re_sub, chars. rewrite list_ascii_of_string_of_list_ascii.
    change (list_ascii_of_string ?s) with (chars s). rewrite Hc. exact Hq. }
  (* the match and its group *)
  assert (Hm : re_search re_provider squeezed = Some (0%nat, length block)).
  { unfold re_search. change (list_ascii_of_string ?s) with (chars s). rewrite Hsq.
    apply search_from_here, match_at_provider_block; assumption. }
  rewrite Hm.
  assert (Hg : group (0%nat, length block) squeezed = string_of_list_ascii block).
  { unfold group. change (list_ascii_of_string ?s) with (chars s). rewrite Hsq.
    cbv [fst snd]. rewrite Nat.sub_0_r, drop_0, take_app_length. reflexivity. }
  rewrite Hg.
  (* the name *)
  assert (Hname : re_sub re_name_wrapping EmptyString (string_of_list_ascii block) = name).
  { unfold re_sub. rewrite list_ascii_of_string_of_list_ascii.
    cbn [list_ascii_of_string].
    destruct (chars name) as [|c l] eqn:En.
    { rewrite <- length_chars, En in Hlen. cbn [length] in Hlen. lia. }
    unfold block.
    rewrite (wrapping_removed q1 q2 (c :: l) H1 H2 Hn c l eq_refl).
    rewrite <- En. apply string_of_chars. }
  rewrite Hname.
  destruct (Nat.ltb_spec (String.length name) 32); [|lia].
  destruct (Nat.ltb_spec 1 (String.length name)); [|lia].
  reflexivity.
Qed.

(** X21: whatever the file holds, a name that [terraform_provider]
    returns has between 2 and 31 characters, each of them a letter, a
    digit or a dash: no space, quote or brace of the block is left in
    it. *)
Theorem terraform_provider_name_shape (provider_file : string) (file : file_state)
    (warnings : list string) (name : string) :
  terraform_provider provider_file file = (warnings, Ok (Some name)) ->
  (2 <= String.length name <= 31)%nat /\
  forallb (in_class name_chars) (chars name) = true.
Proof. apply provider_name_made. Qed.

Lemma terraform_provider_name_shape_witness :
  let text :=
    "# the account" +:+ String newline ("  provider   'aws-2'{ region = 1 }") in
  terraform_provider "provider.tf" (Holding text) = ([], Ok (Some "aws-2")) /\
  (2 <= String.length "aws-2" <= 31)%nat /\
  forallb (in_class name_chars) (chars "aws-2") = true.
Proof.
  cbv zeta. split; [vm_compute; reflexivity|].
  apply (terraform_provider_name_shape "provider.tf"
           (Holding ("# the account" +:+
                     String newline ("  provider   'aws-2'{ region = 1 }"))) []).
  vm_compute. reflexivity.
Defined.

(** X22: a file that starts, after any white space, with
    [provider <quote>NAME<quote> {] is read as the provider NAME, whatever
    follows the brace: for a NAME of 2 to 31 letters, digits and dashes,
    and a single or a double quote on each side, [terraform_provider]
    returns NAME and warns of nothing. *)
Theorem terraform_provider_reads_block (provider_file lead name rest : string)
    (q1 q2 : ascii) :
  forallb is_space (chars lead) = true ->
  in_class quotes q1 = true -> in_class quotes q2 = true ->
  forallb (in_class name_chars) (chars name) = true ->
  (2 <= String.length name <= 31)%nat ->
  terraform_provider provider_file
    (Holding (lead +:+ provider_block q1 name q2 +:+ rest)) =
  ([], Ok (Some name)).
Proof. apply terraform_provider_block. Qed.

Lemma terraform_provider_reads_block_witness :
  let lead := String newline "  " in
  let rest := String newline ("  region = 'eu-west-1'" +:+ String newline "}") in
  forallb is_space (chars lead) = true /\
  in_class quotes "034" = true /\ in_class quotes "'" = true /\
  forallb (in_class name_chars) (chars "aws") = true /\
  (2 <= String.length "aws" <= 31)%nat /\
  terraform_provider "provider.tf"
    (Holding (lead +:+ provider_block "034" "aws" "'" +:+ rest)) =
  ([], Ok (Some "aws")).
Proof.
  cbv zeta.
  split; [reflexivity|]. split; [reflexivity|]. split; [reflexivity|].
  split; [reflexivity|]. split; [cbn; lia|].
  apply (terraform_provider_reads_block "provider.tf" (String newline "  ") "aws"
           (String newline ("  region = 'eu-west-1'" +:+ String newline "}"))
           "034" "'");
    [reflexivity | reflexivity | reflexivity | reflexivity | cbn; lia].
Defined.

(** What is no provider block gives no provider: a name of one character,
    a name of 32, a block without its brace, an empty file; and a file
    that is not there gives a warning. *)
Example terraform_provider_nothing :
  terraform_provider "provider.tf" (Holding (provider_block "'" "x" "'")) =
    ([], Ok None) /\
  terraform_provider "provider.tf"
    (Holding (provider_block "'" "abcdefghijklmnopqrstuvwxyz012345" "'")) =
    ([], Ok None) /\
  terraform_provider "provider.tf" (Holding "provider 'aws'") = ([], Ok None) /\
  terraform_provider "provider.tf" (Holding EmptyString) = ([], Ok None) /\
  terraform_provider "provider.tf" Missing =
    (["cant access provider_file:provider.tf"], Ok None).
Proof. repeat split; vm_compute; reflexivity. Qed.
